(** * Simple_Speak: the speaker-resolution policy, the configuration loader
      and the conversation loop, embedded from [tts.py] and [main.py].

    The Python code is sequential and talks to four opaque collaborators:
    the OuteTTS engine, the file system, the console/clock and [playsound].
    They are kept abstract in the class [Externals]; every call the program
    makes to one of them is recorded as an [event], so that statements such
    as "is called exactly once" or "is never attempted" are statements about
    the list of events a run emits.

    Conventions.
    - A Python value that comes out of [json.load] is a [pyval].
    - An exception is an [exn]; [is_Exception] says whether its class derives
      from [Exception] (what [except Exception] catches).
    - A computation is [M A]: it takes the state of the outside world and
      gives an [outcome] (a value or a raised exception), the new world and
      the events emitted.
    - [logging] and [print] are taken to be total: they only emit events. *)

From Stdlib Require Import ZArith QArith String Ascii List Lia DecimalString DecimalNat
  SpecFloat.
From stdpp Require Import base strings gmap list.

Open Scope string_scope.

(* ===================================================================== *)
(** * Python values and exceptions                                        *)
(* ===================================================================== *)

Module Py.

#[warnings="-register-all"]
Inductive pyval : Type :=
| PNone
| PBool (b : bool)
| PInt (n : Z)
| PFloat (f : spec_float)
| PStr (s : string)
| PList (l : list pyval)
| PDict (d : gmap string pyval).

(** [bool(v)]: what [if v:] tests. *)
Definition truthy (v : pyval) : bool :=
  match v with
  | PNone => false
  | PBool b => b
  | PInt n => negb (n =? 0)%Z
  | PFloat (S754_zero _) => false
  | PFloat _ => true
  | PStr s => negb (String.eqb s "")
  | PList l => negb (Nat.eqb (length l) 0)
  | PDict d => negb (Nat.eqb (size d) 0)
  end.

(** [v == s] for a [str] [s]: only a [str] is equal to a [str]. *)
Definition eq_str (v : pyval) (s : string) : bool :=
  match v with
  | PStr t => String.eqb t s
  | _ => false
  end.

(** The exception classes the program can meet.  The first three derive
    from [BaseException] only; the others derive from [Exception]. *)
Inductive exn_class : Type :=
| KeyboardInterrupt
| SystemExit
| GeneratorExit
| OSError
| FileNotFoundError
| PermissionError
| ValueError
| JSONDecodeError
| TypeError
| KeyError
| AttributeError
| OverflowError
| EOFError
| RuntimeError.

Record exn : Type := Exn { exn_cls : exn_class; exn_msg : string }.

(** [isinstance(e, Exception)] *)
Definition is_Exception (e : exn) : bool :=
  match exn_cls e with
  | KeyboardInterrupt | SystemExit | GeneratorExit => false
  | _ => true
  end.

(** [isinstance(e, KeyboardInterrupt)] *)
Definition is_KeyboardInterrupt (e : exn) : bool :=
  match exn_cls e with
  | KeyboardInterrupt => true
  | _ => false
  end.

(** [isinstance(e, OSError)] *)
Definition is_OSError (e : exn) : bool :=
  match exn_cls e with
  | OSError | FileNotFoundError | PermissionError => true
  | _ => false
  end.

(** [isinstance(e, json.JSONDecodeError)] *)
Definition is_JSONDecodeError (e : exn) : bool :=
  match exn_cls e with
  | JSONDecodeError => true
  | _ => false
  end.

Inductive outcome (A : Type) : Type :=
| Ret (a : A)
| Raise (e : exn).
Arguments Ret {A} a.
Arguments Raise {A} e.

(** [s.lower()], on the ASCII letters.  A byte above 127 is left alone, and
    no non-ASCII letter lowers to a letter of [quit] or [exit]. *)
Definition lower_ascii (c : ascii) : ascii :=
  let n := nat_of_ascii c in
  if (65 <=? n)%nat && (n <=? 90)%nat then ascii_of_nat (n + 32) else c.

Fixpoint lower (s : string) : string :=
  match s with
  | EmptyString => EmptyString
  | String c r => String (lower_ascii c) (lower r)
  end.

(** [text[:n]] *)
Definition slice_to (n : nat) (s : string) : string := String.substring 0 n s.

(** [needle in hay] for two [str]. *)
Fixpoint is_substring (needle hay : string) : bool :=
  String.prefix needle hay ||
  match hay with
  | EmptyString => false
  | String _ r => is_substring needle r
  end.

(** The newline character, [\n] in a Python literal. *)
Definition nl : string := String (ascii_of_nat 10) EmptyString.

(** [key in c] for a [str] key. *)
Definition py_contains (key : string) (c : pyval) : outcome bool :=
  match c with
  | PDict d => Ret (bool_decide (is_Some (d !! key)))
  | PList l => Ret (existsb (fun x => eq_str x key) l)
  | PStr s => Ret (is_substring key s)
  | _ => Raise (Exn TypeError "argument is not iterable")
  end.

(** [c[key] = v] for a [str] key. *)
Definition py_setitem (c : pyval) (key : string) (v : pyval) : outcome pyval :=
  match c with
  | PDict d => Ret (PDict (<[key := v]> d))
  | PList _ => Raise (Exn TypeError "list indices must be integers or slices, not str")
  | _ => Raise (Exn TypeError "object does not support item assignment")
  end.

(** [c[key]] for a [str] key. *)
Definition py_getitem (c : pyval) (key : string) : outcome pyval :=
  match c with
  | PDict d =>
      match d !! key with
      | Some v => Ret v
      | None => Raise (Exn KeyError key)
      end
  | PList _ => Raise (Exn TypeError "list indices must be integers or slices, not str")
  | PStr _ => Raise (Exn TypeError "string indices must be integers, not 'str'")
  | _ => Raise (Exn TypeError "object is not subscriptable")
  end.

(** [c.get(key)] *)
Definition py_get (c : pyval) (key : string) : outcome pyval :=
  match c with
  | PDict d => Ret (default PNone (d !! key))
  | _ => Raise (Exn AttributeError "object has no attribute 'get'")
  end.

(** A [datetime], and [strftime("%Y-%m-%d_%H-%M-%S")]. *)
Record datetime : Type :=
  { year : nat; month : nat; day : nat; hour : nat; minute : nat; second : nat }.

Fixpoint zeros (n : nat) : string :=
  match n with
  | O => ""
  | S k => String "0" (zeros k)
  end.

Definition zfill (width n : nat) : string :=
  let d := NilEmpty.string_of_uint (Nat.to_uint n) in
  zeros (width - String.length d) +:+ d.

Definition strftime_stamp (t : datetime) : string :=
  zfill 4 (year t) +:+ "-" +:+ zfill 2 (month t) +:+ "-" +:+ zfill 2 (day t)
  +:+ "_" +:+ zfill 2 (hour t) +:+ "-" +:+ zfill 2 (minute t) +:+ "-"
  +:+ zfill 2 (second t).

End Py.
Export Py.

(* ===================================================================== *)
(** * The outside world                                                   *)
(* ===================================================================== *)

(** The keyword arguments of [outetts.SamplerConfig(...)] in [__init__]. *)
Record sampler_args : Type :=
  { temperature : Q; repetition_penalty : Q; repetition_range : Z;
    top_k : Z; top_p : Q; min_p : Q }.

(** What the program uses and does not define: the engine, the file
    system, the console, the clock and the audio player.  A call takes the
    state of the world and gives an outcome and the new state. *)
Class Externals : Type :=
  { World : Type;
    (** engine types and the enumeration members [__init__] names *)
    Models : Type;
    Backend : Type;
    Quantization : Type;
    ModelConfig : Type;
    Interface : Type;
    SamplerConfig : Type;
    Speaker : Type;
    GenerationType : Type;
    GenerationConfig : Type;
    Audio : Type;
    VERSION_1_0_SIZE_1B : Models;
    LLAMACPP : Backend;
    FP16 : Quantization;
    CHUNKED : GenerationType;
    (** [outetts]; a speaker call may return [None] ([option]) *)
    auto_config : Models -> Backend -> Quantization -> World -> outcome ModelConfig * World;
    new_Interface : ModelConfig -> World -> outcome Interface * World;
    new_SamplerConfig : sampler_args -> World -> outcome SamplerConfig * World;
    create_speaker : Interface -> pyval -> World -> outcome (option Speaker) * World;
    load_default_speaker : Interface -> pyval -> World -> outcome (option Speaker) * World;
    new_GenerationConfig :
      string -> GenerationType -> Speaker -> SamplerConfig -> World -> outcome GenerationConfig * World;
    generate : Interface -> GenerationConfig -> World -> outcome Audio * World;
    audio_save : Audio -> string -> World -> outcome unit * World;
    (** [os], [os.path] *)
    fs_exists : World -> string -> bool;
    fd_exists : World -> Z -> bool;
    os_makedirs : string -> World -> outcome unit * World;
    os_path_dirname : string -> string;
    os_path_basename : string -> string;
    os_path_join : string -> string -> string;
    (** [os.path.exists('')] is [False] on every platform *)
    fs_exists_empty : forall w, fs_exists w "" = false;
    (** [with open(path, 'r') as f: json.load(f)] *)
    json_load_file : string -> World -> outcome pyval * World;
    (** [playsound], [input], [datetime.datetime.now] *)
    playsound : string -> World -> outcome unit * World;
    input : string -> World -> outcome string * World;
    datetime_now : World -> datetime * World;
    (** how f-strings print what is not a [str] *)
    repr_value : pyval -> string;
    str_Models : Models -> string;
    str_Backend : Backend -> string;
    str_Quantization : Quantization -> string;
    str_SamplerConfig : SamplerConfig -> string }.

Section Effects.

Context `{Ext : Externals}.

(** [str(v)] inside an f-string. *)
Definition py_str (v : pyval) : string :=
  match v with
  | PStr s => s
  | _ => repr_value v
  end.

Inductive level : Type := INFO | WARNING | ERROR | CRITICAL.

(** One entry per effect the program has on its collaborators. *)
Inductive event : Type :=
| EvLog (lvl : level) (msg : string)
| EvPrint (msg : string)
| EvInput (prompt : string)
| EvNow
| EvMakedirs (path : string)
| EvJsonLoad (path : string)
| EvAutoConfig (m : Models) (b : Backend) (q : Quantization)
| EvInterface (c : ModelConfig)
| EvSamplerConfig (a : sampler_args)
| EvCreateSpeaker (voice_file : pyval)
| EvLoadDefaultSpeaker (speaker_id : pyval)
| EvGenerationConfig (text : string) (speaker : Speaker) (sc : SamplerConfig)
| EvGenerate (c : GenerationConfig)
| EvSave (a : Audio) (path : string)
| EvPlaysound (path : string).

(** ** The monad: world passing, exceptions, emitted events *)

#[projections(primitive)]
Record result (A : Type) : Type :=
  Res { out : outcome A; world : World; evs : list event }.
Arguments Res {A} out world evs.
Arguments out {A} r.
Arguments world {A} r.
Arguments evs {A} r.

Definition M (A : Type) : Type := World -> result A.

Definition ret {A} (a : A) : M A := fun w => Res (Ret a) w [].

Definition raise {A} (e : exn) : M A := fun w => Res (Raise e) w [].

(** [r], after the events [l] that came before it. *)
Definition prepend {A} (l : list event) (r : result A) : result A :=
  Res (out r) (world r) (l ++ evs r).

Definition bind {A B} (m : M A) (f : A -> M B) : M B :=
  fun w =>
    let r := m w in
    match out r with
    | Ret a => prepend (evs r) (f a (world r))
    | Raise e => Res (Raise e) (world r) (evs r)
    end.

(** [try: body / except ...]: [handlers e] is the body of the first
    [except] clause whose class matches [e], if one does.  An exception
    raised inside a clause is not caught by the same [try]. *)
Definition try_except {A} (body : M A) (handlers : exn -> option (M A)) : M A :=
  fun w =>
    let r := body w in
    match out r with
    | Ret a => r
    | Raise e =>
        match handlers e with
        | Some h => prepend (evs r) (h (world r))
        | None => r
        end
    end.

(** [except Exception as e: h e] *)
Definition except_Exception {A} (h : exn -> M A) : exn -> option (M A) :=
  fun e => if is_Exception e then Some (h e) else None.

Definition emit (ev : event) : M unit := fun w => Res (Ret tt) w [ev].

(** A call to a collaborator: the event, then whatever the world answers. *)
Definition call {A} (ev : event) (f : World -> outcome A * World) : M A :=
  fun w => let (o, w') := f w in Res o w' [ev].

(** A look at the world that changes nothing. *)
Definition ask {A} (f : World -> A) : M A := fun w => Res (Ret (f w)) w [].

Definition lift_outcome {A} (o : outcome A) : M A := fun w => Res o w [].

End Effects.

Arguments Res {Ext A} out world evs.
Arguments out {Ext A} r.
Arguments world {Ext A} r.
Arguments evs {Ext A} r.
Arguments prepend {Ext A} l r.

Declare Scope py_scope.
Delimit Scope py_scope with py.
Notation "x <- m ;; k" := (bind m (fun x => k))
  (at level 100, m at next level, right associativity) : py_scope.
Notation "m ;; k" := (bind m (fun _ => k))
  (at level 100, right associativity) : py_scope.
Open Scope py_scope.

Section Program.

Context `{Ext : Externals}.

Definition log (lvl : level) (msg : string) : M unit := emit (EvLog lvl msg).
Definition print (msg : string) : M unit := emit (EvPrint msg).

(** [os.path.exists(v)]: a [str] is looked up; an [int] is a file
    descriptor, which must fit a C [int]; anything else makes [os.stat]
    raise [TypeError].  Only [OSError] and [ValueError] are turned into
    [False] by [os.path.exists], and they are part of [fs_exists]. *)
Definition os_path_exists (v : pyval) : M bool :=
  match v with
  | PStr p => ask (fun w => fs_exists w p)
  | PInt n =>
      if ((- 2 ^ 31 <=? n) && (n <? 2 ^ 31))%Z
      then ask (fun w => fd_exists w n)
      else raise (Exn OverflowError "fd is greater than maximum")
  | PBool b => ask (fun w => fd_exists w (if b then 1 else 0)%Z)
  | _ => raise (Exn TypeError "stat: path should be string, bytes, os.PathLike or integer")
  end.

(** [os.path.basename(v)] *)
Definition py_basename (v : pyval) : M string :=
  match v with
  | PStr p => ret (os_path_basename p)
  | _ => raise (Exn TypeError "expected str, bytes or os.PathLike object")
  end.

(* ===================================================================== *)
(** * tts.py                                                              *)
(* ===================================================================== *)

Definition DEFAULT_VOICE : string := "EN-FEMALE-1-NEUTRAL".

(** The attributes of a [TTSHandler] that outlive [__init__]
    ([self.config] is only read inside it).  [None] is Python's [None];
    an interface or a sampler configuration, being an object, is true
    where the code tests it with [if]. *)
Record TTSHandler : Type :=
  { interface : option Interface;
    sampler_config : option SamplerConfig }.

Definition recommended_sampler : sampler_args :=
  {| temperature := 0.4; repetition_penalty := 1.1; repetition_range := 64;
     top_k := 40; top_p := 0.9; min_p := 0.05 |}.

(** [TTSHandler.__init__] *)
Definition TTSHandler_init (model_size : Models) (backend : Backend)
    (quantization : Quantization) : M TTSHandler :=
  log INFO ("Initializing OuteTTS Interface (Model: " +:+ str_Models model_size
            +:+ ", Backend: " +:+ str_Backend backend
            +:+ ", Quant: " +:+ str_Quantization quantization +:+ ")...");;
  log INFO "This may take some time on the first run as models might be downloaded.";;
  self_interface <- try_except
    (self_config <- call (EvAutoConfig model_size backend quantization)
                         (auto_config model_size backend quantization);;
     i <- call (EvInterface self_config) (new_Interface self_config);;
     log INFO "OuteTTS Interface initialized successfully.";;
     ret (Some i))
    (except_Exception (fun e =>
     log ERROR ("Failed to initialize OuteTTS Interface: " +:+ exn_msg e);;
     ret None));;
  match self_interface with
  | Some i =>
      sc <- call (EvSamplerConfig recommended_sampler)
                 (new_SamplerConfig recommended_sampler);;
      log INFO ("Using Sampler Config: " +:+ str_SamplerConfig sc);;
      ret {| interface := Some i; sampler_config := Some sc |}
  | None =>
      ret {| interface := None; sampler_config := None |}
  end.

(** Lines 110-117 of [speak]: the directory of the output file. *)
Definition ensure_output_dir (output_file : string) : M bool :=
  try_except
    (let output_dir := os_path_dirname output_file in
     missing <- (if truthy (PStr output_dir)
                 then (b <- os_path_exists (PStr output_dir);; ret (negb b))
                 else ret false);;
     (if missing : bool
      then call (EvMakedirs output_dir) (os_makedirs output_dir);;
           log INFO ("Created output directory for TTS: " +:+ output_dir)
      else ret tt);;
     ret true)
    (except_Exception (fun e =>
     log ERROR ("Error creating directory for " +:+ output_file +:+ ": " +:+ exn_msg e);;
     ret false)).

(** Step 1 of [speak]: the cloning attempt.  Gives the local variables
    [(speaker, speaker_source)] as they stand after line 134. *)
Definition clone_step (i : Interface) (voice_file : pyval)
  : M (option Speaker * string) :=
  found <- (if truthy voice_file then os_path_exists voice_file else ret false);;
  if found : bool then
    log INFO ("Attempting voice cloning from: " +:+ py_str voice_file);;
    try_except
      (speaker <- call (EvCreateSpeaker voice_file) (create_speaker i voice_file);;
       base <- py_basename voice_file;;
       log INFO "Speaker profile created successfully from file.";;
       ret (speaker, "Cloned File (" +:+ base +:+ ")"))
      (except_Exception (fun e =>
       log ERROR ("Error creating speaker profile from " +:+ py_str voice_file
                  +:+ ": " +:+ exn_msg e +:+ ". Trying speaker ID or default...");;
       ret (None, "Unknown")))
  else ret (None, "Unknown").

(** Steps 2 and 3 of [speak], entered when [speaker is None]. *)
Definition id_step (i : Interface) (speaker_id : pyval)
  : M (option Speaker * string) :=
   chosen <-
    (if truthy speaker_id then
       log INFO ("Attempting to load provided speaker ID: " +:+ py_str speaker_id);;
       ret (speaker_id, "Provided ID (" +:+ py_str speaker_id +:+ ")")
     else
       log INFO ("No speaker ID or voice file provided. Attempting to load class default: "
                 +:+ DEFAULT_VOICE);;
       ret (PStr DEFAULT_VOICE, "Class Default ID (" +:+ DEFAULT_VOICE +:+ ")"));;
  let final_speaker_id_to_load := fst chosen in
  let speaker_source := snd chosen in
  if truthy final_speaker_id_to_load then
    try_except
      (speaker <- call (EvLoadDefaultSpeaker final_speaker_id_to_load)
                       (load_default_speaker i final_speaker_id_to_load);;
       log INFO ("Successfully loaded speaker: " +:+ speaker_source);;
       ret (speaker, speaker_source))
      (except_Exception (fun e =>
       log ERROR ("CRITICAL: Failed to load speaker ID '" +:+ py_str final_speaker_id_to_load
                  +:+ "' using load_default_speaker: " +:+ exn_msg e);;
       (if eq_str final_speaker_id_to_load DEFAULT_VOICE
        then log CRITICAL ("Failure loading the primary DEFAULT_VOICE ('" +:+ DEFAULT_VOICE
                           +:+ "'). Check outetts installation and model data.")
        else ret tt);;
       ret (None, "Failed Load (" +:+ py_str final_speaker_id_to_load +:+ ")")))
  else
    log ERROR "Could not determine a speaker ID to load.";;
    ret (None, speaker_source).

(** Steps 1 to 3: the speaker and its source when line 168 is reached. *)
Definition resolve_speaker (i : Interface) (speaker_id voice_file : pyval)
  : M (option Speaker * string) :=
  cloned <- clone_step i voice_file;;
  match fst cloned with
  | Some _ => ret cloned
  | None => id_step i speaker_id
  end.

(** Steps 4 to 7 of [speak]. *)
Definition generate_step (i : Interface) (sc : SamplerConfig)
    (text output_file : string) (resolved : option Speaker * string) : M bool :=
  match fst resolved with
  | None =>
      log ERROR ("Failed to obtain a valid speaker profile (Source attempted: "
                 +:+ snd resolved +:+ "). Cannot generate speech.");;
      ret false
  | Some speaker =>
      generation_config <- call (EvGenerationConfig text speaker sc)
                                (new_GenerationConfig text CHUNKED speaker sc);;
      log INFO ("Generating speech using speaker source: [" +:+ snd resolved
                +:+ "] for text: '" +:+ slice_to 50 text +:+ "...'");;
      output_audio <- call (EvGenerate generation_config) (generate i generation_config);;
      call (EvSave output_audio output_file) (audio_save output_audio output_file);;
      log INFO ("Speech generated and saved to: " +:+ output_file);;
      ret true
  end.

(** Lines 124-187: the body of the outer [try] of [speak]. *)
Definition speak_body (i : Interface) (sc : SamplerConfig)
    (text output_file : string) (speaker_id voice_file : pyval) : M bool :=
  resolved <- resolve_speaker i speaker_id voice_file;;
  generate_step i sc text output_file resolved.

(** Lines 189-191: its [except Exception as e] clause. *)
Definition speak_failed (e : exn) : M bool :=
  log ERROR ("An unexpected error occurred during speech generation: " +:+ exn_msg e);;
  ret false.

(** [TTSHandler.speak] *)
Definition speak (self : TTSHandler) (text output_file : string)
    (speaker_id voice_file : pyval) : M bool :=
  match interface self with
  | None =>
      log ERROR "OuteTTS Interface is not initialized. Cannot generate speech.";;
      ret false
  | Some i =>
  match sampler_config self with
  | None =>
      log ERROR "OuteTTS Sampler Config is not set (likely due to init failure). Cannot generate speech.";;
      ret false
  | Some sc =>
  if negb (truthy (PStr text)) then
    log WARNING "Input text is empty. No audio generated.";;
    ret false
  else if negb (truthy (PStr output_file)) then
    log ERROR "Output file path not specified.";;
    ret false
  else
    dir_ok <- ensure_output_dir output_file;;
    if negb dir_ok then ret false
    else try_except (speak_body i sc text output_file speaker_id voice_file)
                    (except_Exception speak_failed)
  end
  end.

(* ===================================================================== *)
(** * main.py                                                             *)
(* ===================================================================== *)

Definition CACHE_DIR : string := "cache".
Definition CONFIG_FILE : string := "config.json".

(** [ensure_cache_dir] *)
Definition ensure_cache_dir : M bool :=
  found <- os_path_exists (PStr CACHE_DIR);;
  if negb found then
    try_except
      (call (EvMakedirs CACHE_DIR) (os_makedirs CACHE_DIR);;
       log INFO ("Created cache directory: " +:+ CACHE_DIR);;
       ret true)
      (fun e =>
         if is_OSError e
         then Some (log ERROR ("Error creating cache directory " +:+ CACHE_DIR
                               +:+ ": " +:+ exn_msg e);;
                    ret false)
         else None)
  else ret true.

Definition default_config : pyval :=
  PDict (<["speaker_id" := PNone]> (<["voice_file" := PNone]> ∅)).

(** The body of the [with] block of [load_config], lines 33-43. *)
Definition load_config_body : M pyval :=
  config <- call (EvJsonLoad CONFIG_FILE) (json_load_file CONFIG_FILE);;
  has_id <- lift_outcome (py_contains "speaker_id" config);;
  config <- (if negb has_id
             then lift_outcome (py_setitem config "speaker_id" PNone)
             else ret config);;
  has_vf <- lift_outcome (py_contains "voice_file" config);;
  config <- (if negb has_vf
             then lift_outcome (py_setitem config "voice_file" PNone)
             else ret config);;
  vf <- lift_outcome (py_getitem config "voice_file");;
  missing <- (if truthy vf
              then (vf' <- lift_outcome (py_getitem config "voice_file");;
                    b <- os_path_exists vf';; ret (negb b))
              else ret false);;
  if missing : bool then
    vf' <- lift_outcome (py_getitem config "voice_file");;
    log WARNING ("Voice file specified in " +:+ CONFIG_FILE +:+ " not found: "
                 +:+ py_str vf' +:+ ". It will be ignored.");;
    lift_outcome (py_setitem config "voice_file" PNone)
  else ret config.

(** The two [except] clauses of [load_config], lines 44-49. *)
Definition load_config_except (e : exn) : option (M pyval) :=
  if is_JSONDecodeError e then
    Some (log ERROR ("Error decoding " +:+ CONFIG_FILE
                     +:+ ". Using default configuration.");;
          ret default_config)
  else if is_Exception e then
    Some (log ERROR ("Error loading " +:+ CONFIG_FILE +:+ ": " +:+ exn_msg e
                     +:+ ". Using default configuration.");;
          ret default_config)
  else None.

(** [load_config] *)
Definition load_config : M pyval :=
  found <- os_path_exists (PStr CONFIG_FILE);;
  if found : bool then try_except load_config_body load_config_except
  else
    log INFO (CONFIG_FILE +:+ " not found. Using default configuration.");;
    ret default_config.

(** [play_audio] *)
Definition play_audio (file_path : string) : M unit :=
  found <- os_path_exists (PStr file_path);;
  if found : bool then
    try_except
      (log INFO ("Playing audio file: " +:+ file_path);;
       call (EvPlaysound file_path) (playsound file_path);;
       log INFO "Playback finished.")
      (except_Exception (fun e =>
       log ERROR ("Error playing audio file " +:+ file_path +:+ ": " +:+ exn_msg e);;
       print ("Error: Could not play audio file '" +:+ file_path +:+ "'. Check logs.")))
  else
    log ERROR ("Audio file not found for playback: " +:+ file_path);;
    print ("Error: Audio file '" +:+ file_path +:+ "' not found.").

(** How one pass through the body of [while True] ends. *)
Inductive ctl : Type := Continue | Break.

Definition PROMPT : string := nl +:+ "Enter text to synthesize: ".
Definition SORRY : string := "Sorry, failed to generate audio for the text (check logs).".

(** The file name of lines 106-108 for the clock value [now]. *)
Definition output_path_at (now : datetime) : string :=
  os_path_join CACHE_DIR (strftime_stamp now +:+ ".wav").

(** Lines 105-124: what is done with an accepted line. *)
Definition synthesize_and_play (tts_handler : TTSHandler) (config : pyval)
    (text_input : string) : M ctl :=
  now <- call EvNow (fun w => let (t, w') := datetime_now w in (Ret t, w'));;
  let output_path := output_path_at now in
  log INFO ("Synthesizing text: '" +:+ text_input +:+ "'");;
  speaker_id <- lift_outcome (py_get config "speaker_id");;
  voice_file <- lift_outcome (py_get config "voice_file");;
  success <- speak tts_handler text_input output_path speaker_id voice_file;;
  (if success : bool
   then play_audio output_path
   else print SORRY);;
  ret Continue.

(** Lines 98-124: the body of the [try] inside [while True]. *)
Definition loop_try (tts_handler : TTSHandler) (config : pyval) : M ctl :=
  text_input <- call (EvInput PROMPT) (input PROMPT);;
  if existsb (String.eqb (lower text_input)) ["quit"; "exit"] then ret Break
  else if negb (truthy (PStr text_input)) then
    print "Please enter some text.";;
    ret Continue
  else synthesize_and_play tts_handler config text_input.

(** Lines 126-131: its two [except] clauses. *)
Definition loop_except (e : exn) : option (M ctl) :=
  if is_KeyboardInterrupt e then
    Some (print (nl +:+ "Exiting...");; ret Break)
  else if is_Exception e then
    Some (log ERROR ("An unexpected error occurred in the main loop: " +:+ exn_msg e);;
          print "An unexpected error occurred. Check logs.";;
          ret Continue)
  else None.

(** One pass through [while True], lines 97-131. *)
Definition loop_body (tts_handler : TTSHandler) (config : pyval) : M ctl :=
  try_except (loop_try tts_handler config) loop_except.

(** How a bounded run of [main] ends: it returned, or the bound on the
    number of loop passes was reached first. *)
Inductive main_end : Type := Returned | OutOfFuel.

Fixpoint main_loop (fuel : nat) (tts_handler : TTSHandler) (config : pyval)
  : M main_end :=
  match fuel with
  | O => ret OutOfFuel
  | S fuel' =>
      c <- loop_body tts_handler config;;
      match c with
      | Break => ret Returned
      | Continue => main_loop fuel' tts_handler config
      end
  end.

(** [main], with at most [fuel] passes through the loop. *)
Definition main (fuel : nat) : M main_end :=
  cache_ok <- ensure_cache_dir;;
  if negb cache_ok then
    print "Failed to create cache directory. Exiting.";;
    ret Returned
  else
    print "Initializing TTS Handler (this might take a while)...";;
    made <- try_except
      (h <- TTSHandler_init VERSION_1_0_SIZE_1B LLAMACPP FP16;; ret (Some h))
      (except_Exception (fun e =>
       print ("FATAL: Failed to initialize TTS Handler: " +:+ exn_msg e);;
       print "Please check your outetts installation, model downloads, and configurations.";;
       ret None));;
    match made with
    | None => ret Returned
    | Some tts_handler =>
        match interface tts_handler with
        | None =>
            print "FATAL: TTS Interface could not be initialized (check logs for details). Exiting.";;
            ret Returned
        | Some _ =>
            print (nl +:+ "Simple Speak App (using OuteTTS)");;
            print "Type 'quit' or 'exit' to stop.";;
            config <- load_config;;
            main_loop fuel tts_handler config
        end
    end.

(* ===================================================================== *)
(** * Reading a run                                                       *)
(* ===================================================================== *)

Definition is_log (ev : event) : bool :=
  match ev with EvLog _ _ => true | _ => false end.

Definition is_create_speaker (ev : event) : bool :=
  match ev with EvCreateSpeaker _ => true | _ => false end.

Definition is_load_default_speaker (ev : event) : bool :=
  match ev with EvLoadDefaultSpeaker _ => true | _ => false end.

Definition is_generation (ev : event) : bool :=
  match ev with
  | EvGenerationConfig _ _ _ | EvGenerate _ | EvSave _ _ => true
  | _ => false
  end.

Definition is_save (ev : event) : bool :=
  match ev with EvSave _ _ => true | _ => false end.

Definition is_playsound (ev : event) : bool :=
  match ev with EvPlaysound _ => true | _ => false end.

Definition is_print (ev : event) : bool :=
  match ev with EvPrint _ => true | _ => false end.

(** The engine is being constructed (what [__init__] does). *)
Definition is_initialization (ev : event) : bool :=
  match ev with
  | EvAutoConfig _ _ _ | EvInterface _ | EvSamplerConfig _ => true
  | _ => false
  end.

(** The error line 133 logs when cloning raised. *)
Definition is_cloning_error (ev : event) : bool :=
  match ev with
  | EvLog ERROR msg => String.prefix "Error creating speaker profile from " msg
  | _ => false
  end.

(** How many events of a run satisfy [p]. *)
Fixpoint count_ev (p : event -> bool) (l : list event) : nat :=
  match l with
  | [] => 0
  | ev :: l' => (if p ev then 1 else 0) + count_ev p l'
  end.

(** [m] emits no event that satisfies [p], in whatever world it runs. *)
Definition quiet (p : event -> bool) {A} (m : M A) : Prop :=
  forall w, count_ev p (evs (m w)) = 0.

(** A parsed configuration object once lines 35-38 have added the keys
    it lacks. *)
Definition with_default_keys (d : gmap string pyval) : gmap string pyval :=
  let d1 := if bool_decide (is_Some (d !! "speaker_id")) then d
            else <["speaker_id" := PNone]> d in
  if bool_decide (is_Some (d1 !! "voice_file")) then d1
  else <["voice_file" := PNone]> d1.

(** The identifier step 2 of [speak] determines. *)
Definition determined_id (speaker_id : pyval) : pyval :=
  if truthy speaker_id then speaker_id else PStr DEFAULT_VOICE.

(** An input line the loop neither takes as an exit word nor re-prompts for. *)
Definition accepted (line : string) : bool :=
  negb (existsb (String.eqb (lower line)) ["quit"; "exit"]) && truthy (PStr line).

Definition is_makedirs (ev : event) : bool :=
  match ev with EvMakedirs _ => true | _ => false end.

Definition is_input (ev : event) : bool :=
  match ev with EvInput _ => true | _ => false end.

Definition is_json_load (ev : event) : bool :=
  match ev with EvJsonLoad _ => true | _ => false end.

Definition is_auto_config (ev : event) : bool :=
  match ev with EvAutoConfig _ _ _ => true | _ => false end.

Definition is_interface_construction (ev : event) : bool :=
  match ev with EvInterface _ => true | _ => false end.

Definition is_sampler_construction (ev : event) : bool :=
  match ev with EvSamplerConfig _ => true | _ => false end.

(** A call to the engine for a speaker or for audio. *)
Definition is_engine_call (ev : event) : bool :=
  is_create_speaker ev || is_load_default_speaker ev || is_generation ev.

(** The effects [speak] has: log lines, the output directory and the
    engine's speaker and generation operations. *)
Definition is_speak_effect (ev : event) : bool :=
  is_log ev || is_makedirs ev || is_engine_call ev.

(** What [main] does before its loop: the cache directory, messages, the
    construction of the engine and the reading of the configuration. *)
Definition is_startup_effect (ev : event) : bool :=
  is_log ev || is_print ev || is_makedirs ev || is_initialization ev
  || is_json_load ev.

(** What a pass of the loop does: the prompt, the clock, messages, and
    the effects of [speak] and [play_audio]. *)
Definition is_loop_effect (ev : event) : bool :=
  match ev with
  | EvInput _ | EvNow | EvPrint _ | EvPlaysound _ => true
  | _ => is_speak_effect ev
  end.

(** The ranges of the fields of a [datetime.datetime] with a year of
    four digits. *)
Definition datetime_valid (t : datetime) : Prop :=
  1000 <= year t < 100 * 100 /\ 1 <= month t <= 12 /\ 1 <= day t <= 31 /\
  hour t <= 23 /\ minute t <= 59 /\ second t <= 59.

(** Reading a decimal numeral. *)
Definition read_decimal (s : string) : option nat :=
  option_map Nat.of_uint (NilEmpty.uint_of_string s).

End Program.

(* ===================================================================== *)
(** * A small concrete world                                              *)
(* ===================================================================== *)

(** An instance of [Externals] that can be run: the engine answers from a
    script, the file system is a list of paths, [os.path] is [posixpath],
    standard input is a queue of lines.  Speakers are numbered. *)
Module Demo.

Record world : Type :=
  { files : list string;
    stdin : list (outcome string);
    clock : datetime;
    config_file : outcome pyval;
    engine_start : outcome unit;
    cloning : outcome (option nat);
    builtin : outcome (option nat);
    synthesis : outcome unit;
    saving : outcome unit;
    playing : outcome unit }.

Definition with_files (w : world) (fs : list string) : world :=
  {| files := fs; stdin := stdin w; clock := clock w;
     config_file := config_file w; engine_start := engine_start w;
     cloning := cloning w; builtin := builtin w; synthesis := synthesis w;
     saving := saving w; playing := playing w |}.

Definition with_stdin (w : world) (q : list (outcome string)) : world :=
  {| files := files w; stdin := q; clock := clock w;
     config_file := config_file w; engine_start := engine_start w;
     cloning := cloning w; builtin := builtin w; synthesis := synthesis w;
     saving := saving w; playing := playing w |}.

Definition exists_path (w : world) (p : string) : bool :=
  negb (String.eqb p "") && existsb (String.eqb p) (files w).

Lemma exists_path_empty (w : world) : exists_path w "" = false.
Proof. reflexivity. Qed.

Definition after {A B} (gate : outcome A) (b : B) : outcome B :=
  match gate with
  | Ret _ => Ret b
  | Raise e => Raise e
  end.

Definition makedirs (p : string) (w : world) : outcome unit * world :=
  if exists_path w p
  then (Raise (Exn OSError "File exists"), w)
  else (Ret tt, with_files w (p :: files w)).

Definition save (a : string) (p : string) (w : world) : outcome unit * world :=
  match saving w with
  | Ret _ => (Ret tt, with_files w (p :: files w))
  | Raise e => (Raise e, w)
  end.

Definition read_line (prompt : string) (w : world) : outcome string * world :=
  match stdin w with
  | [] => (Raise (Exn EOFError "EOF when reading a line"), w)
  | l :: q => (l, with_stdin w q)
  end.

(** [posixpath.basename], [dirname] and [join] of two parts. *)
Fixpoint has_slash (s : string) : bool :=
  match s with
  | EmptyString => false
  | String c r => Ascii.eqb c "/" || has_slash r
  end.

Fixpoint basename (s : string) : string :=
  match s with
  | EmptyString => EmptyString
  | String c r => if has_slash s then basename r else s
  end.

Fixpoint upto_last_slash (s : string) : string :=
  match s with
  | EmptyString => EmptyString
  | String c r => if has_slash s then String c (upto_last_slash r) else EmptyString
  end.

Fixpoint all_slashes (s : string) : bool :=
  match s with
  | EmptyString => true
  | String c r => Ascii.eqb c "/" && all_slashes r
  end.

Fixpoint rstrip_slashes (s : string) : string :=
  match s with
  | EmptyString => EmptyString
  | String c r => if all_slashes s then EmptyString else String c (rstrip_slashes r)
  end.

Definition dirname (s : string) : string :=
  let head := upto_last_slash s in
  if all_slashes head then head else rstrip_slashes head.

Definition ends_with_slash (s : string) : bool :=
  match basename s with
  | EmptyString => has_slash s
  | _ => false
  end.

Definition join (a b : string) : string :=
  if String.prefix "/" b then b
  else if String.eqb a "" || ends_with_slash a then a +:+ b
  else a +:+ "/" +:+ b.

#[export] Instance ext : Externals :=
  {| World := world;
     Models := unit; Backend := unit; Quantization := unit;
     ModelConfig := unit; Interface := unit; SamplerConfig := unit;
     Speaker := nat; GenerationType := unit;
     GenerationConfig := string * nat; Audio := string;
     VERSION_1_0_SIZE_1B := tt; LLAMACPP := tt; FP16 := tt; CHUNKED := tt;
     auto_config := fun _ _ _ w => (engine_start w, w);
     new_Interface := fun _ w => (Ret tt, w);
     new_SamplerConfig := fun _ w => (Ret tt, w);
     create_speaker := fun _ _ w => (cloning w, w);
     load_default_speaker := fun _ _ w => (builtin w, w);
     new_GenerationConfig := fun text _ sp _ w => (Ret (text, sp), w);
     generate := fun _ c w => (after (synthesis w) (fst c), w);
     audio_save := save;
     fs_exists := exists_path;
     fd_exists := fun _ _ => false;
     os_makedirs := makedirs;
     os_path_dirname := dirname;
     os_path_basename := basename;
     os_path_join := join;
     fs_exists_empty := exists_path_empty;
     json_load_file := fun _ w => (config_file w, w);
     playsound := fun _ w => (playing w, w);
     input := read_line;
     datetime_now := fun w => (clock w, w);
     repr_value := fun _ => "<object>";
     str_Models := fun _ => "Models.VERSION_1_0_SIZE_1B";
     str_Backend := fun _ => "Backend.LLAMACPP";
     str_Quantization := fun _ => "LlamaCppQuantization.FP16";
     str_SamplerConfig := fun _ => "SamplerConfig(...)" |}.

(** A handler after a successful [__init__]. *)
Definition handler : TTSHandler :=
  {| interface := Some tt; sampler_config := Some tt |}.

(** 9 April 2025, 07:30:05. *)
Definition morning : datetime :=
  {| year := 2025; month := 4; day := 9; hour := 7; minute := 30; second := 5 |}.

(** Everything works: the cache directory and the sample [me.wav] exist,
    cloning gives speaker 7, the built-in voice is speaker 1. *)
Definition fine : world :=
  {| files := ["cache"; "config.json"; "me.wav"];
     stdin := [Ret "hello"; Ret "quit"];
     clock := morning;
     config_file := Ret (PDict (<["voice_file" := PStr "me.wav"]> ∅));
     engine_start := Ret tt;
     cloning := Ret (Some 7);
     builtin := Ret (Some 1);
     synthesis := Ret tt;
     saving := Ret tt;
     playing := Ret tt |}.

Definition with_cloning (w : world) (c : outcome (option nat)) : world :=
  {| files := files w; stdin := stdin w; clock := clock w;
     config_file := config_file w; engine_start := engine_start w;
     cloning := c; builtin := builtin w; synthesis := synthesis w;
     saving := saving w; playing := playing w |}.

Definition with_builtin (w : world) (b : outcome (option nat)) : world :=
  {| files := files w; stdin := stdin w; clock := clock w;
     config_file := config_file w; engine_start := engine_start w;
     cloning := cloning w; builtin := b; synthesis := synthesis w;
     saving := saving w; playing := playing w |}.

Definition with_synthesis (w : world) (g : outcome unit) : world :=
  {| files := files w; stdin := stdin w; clock := clock w;
     config_file := config_file w; engine_start := engine_start w;
     cloning := cloning w; builtin := builtin w; synthesis := g;
     saving := saving w; playing := playing w |}.

Definition with_config (w : world) (c : outcome pyval) : world :=
  {| files := files w; stdin := stdin w; clock := clock w;
     config_file := c; engine_start := engine_start w;
     cloning := cloning w; builtin := builtin w; synthesis := synthesis w;
     saving := saving w; playing := playing w |}.

Definition with_engine_start (w : world) (s : outcome unit) : world :=
  {| files := files w; stdin := stdin w; clock := clock w;
     config_file := config_file w; engine_start := s;
     cloning := cloning w; builtin := builtin w; synthesis := synthesis w;
     saving := saving w; playing := playing w |}.

Definition boom : exn := Exn RuntimeError "boom".
Definition ctrl_c : exn := Exn KeyboardInterrupt "".

(** Worlds in which one collaborator misbehaves. *)
Definition no_builtin : world := with_builtin fine (Raise boom).
Definition no_cloning : world := with_cloning fine (Raise boom).
Definition interrupted : world := with_synthesis fine (Raise ctrl_c).
Definition no_engine : world := with_engine_start fine (Raise boom).
Definition without_interface : TTSHandler := {| interface := None; sampler_config := None |}.

Definition config_gone : world :=
  with_config fine (Ret (PDict (<["voice_file" := PStr "gone.wav"]> ∅))).
Definition config_blank : world :=
  with_config fine (Ret (PDict (<["voice_file" := PStr ""]> ∅))).
Definition config_garbled : world :=
  with_config fine (Raise (Exn JSONDecodeError "Expecting value")).
Definition config_list : world :=
  with_config fine (Ret (PList [PStr "speaker_id"; PStr "voice_file"])).
Definition config_absent : world := with_files fine ["cache"].


Definition with_saving (w : world) (s : outcome unit) : world :=
  {| files := files w; stdin := stdin w; clock := clock w;
     config_file := config_file w; engine_start := engine_start w;
     cloning := cloning w; builtin := builtin w; synthesis := synthesis w;
     saving := s; playing := playing w |}.

(** Worlds in which the engine answers [None] instead of raising. *)
Definition clone_refused : world := with_cloning fine (Ret None).
Definition builtin_refused : world := with_builtin fine (Ret None).

(** Worlds in which generation or saving fails. *)
Definition no_synthesis : world := with_synthesis fine (Raise boom).
Definition disk_full : world :=
  with_saving fine (Raise (Exn OSError "No space left on device")).

(** A configuration whose [voice_file] is a list. *)
Definition config_unusable : world :=
  with_config fine
    (Ret (PDict (<["speaker_id" := PStr "EN-MALE-9"]>
                   (<["voice_file" := PList [PStr "me.wav"]]> ∅)))).

(** Ctrl-C arrives while the engine clones, or loads the built-in voice. *)
Definition clone_interrupted : world := with_cloning fine (Raise ctrl_c).
Definition builtin_interrupted : world := with_builtin fine (Raise ctrl_c).

(** What the user types. *)
Definition says (lines : list (outcome string)) : world := with_stdin fine lines.

(** 9 April 2025, 19:30:05. *)
Definition evening : datetime :=
  {| year := 2025; month := 4; day := 9; hour := 19; minute := 30; second := 5 |}.

End Demo.


(* ===================================================================== *)
(** * Properties                                                          *)
(* ===================================================================== *)

Section Theory.

Context `{Ext : Externals}.

(** ** Events and the monad *)

Lemma count_ev_app (p : event -> bool) (l1 l2 : list event) :
  count_ev p (l1 ++ l2) = count_ev p l1 + count_ev p l2.
Proof. induction l1 as [|ev l1 IH]; simpl; [reflexivity | rewrite IH; lia]. Qed.

Lemma count_ev_zero_not_In (p : event -> bool) (l : list event) (ev : event) :
  count_ev p l = 0 -> p ev = true -> ~ In ev l.
Proof.
  induction l as [|x l IH]; simpl; intros Hc Hp; [tauto|].
  intros [-> | Hin].
  - rewrite Hp in Hc. discriminate.
  - apply IH; [destruct (p x); simpl in Hc; lia | assumption | assumption].
Qed.

Lemma bind_Ret {A B} (m : M A) (f : A -> M B) w a :
  out (m w) = Ret a ->
  bind m f w = prepend (evs (m w)) (f a (world (m w))).
Proof. intros H. unfold bind. rewrite H. reflexivity. Qed.

Lemma bind_Raise {A B} (m : M A) (f : A -> M B) w e :
  out (m w) = Raise e ->
  bind m f w = Res (Raise e) (world (m w)) (evs (m w)).
Proof. intros H. unfold bind. rewrite H. reflexivity. Qed.

Lemma bind_at {A B} (m m' : M A) (f : A -> M B) w :
  m w = m' w -> bind m f w = bind m' f w.
Proof. intros H. unfold bind. rewrite H. reflexivity. Qed.

Lemma try_except_at {A} (b b' : M A) h w :
  b w = b' w -> try_except b h w = try_except b' h w.
Proof. intros H. unfold try_except. rewrite H. reflexivity. Qed.

(** What a [try] can do. *)
Lemma try_cases {A} (body : M A) handlers w :
  let r := try_except body handlers w in
  (exists a, out (body w) = Ret a /\ r = body w) \/
  (exists e, out (body w) = Raise e /\ handlers e = None /\ r = body w) \/
  (exists e h, out (body w) = Raise e /\ handlers e = Some h /\
               r = prepend (evs (body w)) (h (world (body w)))).
Proof.
  unfold try_except. cbv zeta.
  destruct (out (body w)) as [a|e] eqn:Ho; [left; eauto|].
  destruct (handlers e) as [h|] eqn:Hh; [right; right | right; left]; eauto 6.
Qed.

(** What a [try] with the single clause [except Exception] can do. *)
Lemma try_Exception_cases {A} (body : M A) (h : exn -> M A) w :
  let r := try_except body (except_Exception h) w in
  (exists a, out (body w) = Ret a /\ r = body w) \/
  (exists e, out (body w) = Raise e /\ is_Exception e = false /\ r = body w) \/
  (exists e, out (body w) = Raise e /\ is_Exception e = true /\
             r = prepend (evs (body w)) (h e (world (body w)))).
Proof.
  unfold try_except, except_Exception. cbv zeta.
  destruct (out (body w)) as [a|e] eqn:Ho.
  - left. eauto.
  - destruct (is_Exception e) eqn:He.
    + right; right. eauto.
    + right; left. eauto.
Qed.

Lemma bind_prepend {A B} (m m' : M A) (f : A -> M B) w w' l :
  m w = prepend l (m' w') -> bind m f w = prepend l (bind m' f w').
Proof.
  intros H. unfold bind. rewrite H. cbn.
  destruct (out (m' w')); unfold prepend; cbn; [rewrite app_assoc|]; reflexivity.
Qed.

Lemma bind_In {A B} (m : M A) (f : A -> M B) w ev :
  In ev (evs (m w)) -> In ev (evs (bind m f w)).
Proof.
  intros H. unfold bind. destruct (out (m w)); cbn; [|exact H].
  apply in_app_iff. left. exact H.
Qed.

Lemma bind_In_inv {A B} (m : M A) (f : A -> M B) w ev :
  In ev (evs (bind m f w)) ->
  In ev (evs (m w)) \/ exists a, In ev (evs (f a (world (m w)))).
Proof.
  unfold bind. destruct (out (m w)) as [a|e]; cbn; [|tauto].
  rewrite in_app_iff. intros [H | H]; eauto.
Qed.

(** ** Calls that a computation never makes *)

Lemma quiet_ret p {A} (a : A) : quiet p (ret a).
Proof. intros w. reflexivity. Qed.

Lemma quiet_raise p {A} e : quiet p (@raise _ A e).
Proof. intros w. reflexivity. Qed.

Lemma quiet_ask p {A} (f : World -> A) : quiet p (ask f).
Proof. intros w. reflexivity. Qed.

Lemma quiet_lift p {A} (o : outcome A) : quiet p (lift_outcome o).
Proof. intros w. reflexivity. Qed.

Lemma quiet_emit p ev : p ev = false -> quiet p (emit ev).
Proof. intros H w. simpl. rewrite H. reflexivity. Qed.

Lemma quiet_call p {A} ev (f : World -> outcome A * World) :
  p ev = false -> quiet p (call ev f).
Proof. intros H w. unfold call. destruct (f w). simpl. rewrite H. reflexivity. Qed.

Lemma quiet_bind p {A B} (m : M A) (f : A -> M B) :
  quiet p m -> (forall a, quiet p (f a)) -> quiet p (bind m f).
Proof.
  intros Hm Hf w. unfold bind. destruct (out (m w)) eqn:Ho; simpl.
  - rewrite count_ev_app, Hm, Hf. reflexivity.
  - apply Hm.
Qed.

Lemma count_bind_quiet p {A B} (m : M A) (f : A -> M B) w :
  (forall a, quiet p (f a)) ->
  count_ev p (evs (bind m f w)) = count_ev p (evs (m w)).
Proof.
  intros Hf. unfold bind. destruct (out (m w)); cbn; [|reflexivity].
  rewrite count_ev_app, Hf. lia.
Qed.

Lemma quiet_try p {A} (body : M A) handlers :
  quiet p body -> (forall e h, handlers e = Some h -> quiet p h) ->
  quiet p (try_except body handlers).
Proof.
  intros Hb Hh w. unfold try_except.
  destruct (out (body w)) eqn:Ho; [apply Hb|].
  destruct (handlers e) eqn:He; [|apply Hb].
  simpl. rewrite count_ev_app, Hb, (Hh _ _ He). reflexivity.
Qed.

Lemma quiet_except_Exception p {A} (h : exn -> M A) :
  (forall e, quiet p (h e)) ->
  forall e k, except_Exception h e = Some k -> quiet p k.
Proof.
  intros H e k. unfold except_Exception.
  destruct (is_Exception e); [intros [= <-]; apply H | discriminate].
Qed.

Lemma quiet_if p {A} (c : bool) (m1 m2 : M A) :
  quiet p m1 -> quiet p m2 -> quiet p (if c then m1 else m2).
Proof. destruct c; auto. Qed.

Lemma quiet_os_path_exists p v : quiet p (os_path_exists v).
Proof.
  destruct v; try (intros w; reflexivity).
  unfold os_path_exists. apply quiet_if; intros w; reflexivity.
Qed.

(** [os.path.exists] only looks: it leaves the world as it is. *)
Lemma os_path_exists_pure v w :
  world (os_path_exists v w) = w /\ evs (os_path_exists v w) = [].
Proof.
  destruct v; try (split; reflexivity).
  unfold os_path_exists. destruct (_ && _)%bool; split; reflexivity.
Qed.

Lemma quiet_py_basename p v : quiet p (py_basename v).
Proof. destruct v; intros w; reflexivity. Qed.

Create HintDb quiet.

(** Proves [quiet p m] when [m] is built from the combinators above and
    [p] is false on every event [m] names; what is known about the parts
    of [m] is taken from the hypotheses and from the hints [quiet]. *)
Ltac quiet_step :=
  first
    [ assumption
    | apply quiet_ret | apply quiet_raise | apply quiet_ask | apply quiet_lift
    | apply quiet_os_path_exists | apply quiet_py_basename
    | apply quiet_emit; solve [reflexivity | auto]
    | apply quiet_call; solve [reflexivity | auto]
    | apply quiet_bind; [|intros ?]
    | apply quiet_try; [|apply quiet_except_Exception; intros ?]
    | apply quiet_if
    | match goal with |- quiet _ (match ?x with _ => _ end) => destruct x end
    | progress unfold log, print
    | solve [eauto with quiet] ].

Ltac quiet_tac := repeat quiet_step.

(** ** The three steps of [speak] *)

(** Runs a computation whose calls are all named in the goal: every call
    to a collaborator is split into its possible answers. *)
Ltac exec :=
  repeat (cbn;
          match goal with
          | |- context [let (_, _) := ?x in _] => destruct x as [[?|?] ?] eqn:?
          end);
  cbn.

Lemma exists_truthy w p : fs_exists w p = true -> truthy (PStr p) = true.
Proof.
  intros H. destruct p; [|reflexivity].
  rewrite fs_exists_empty in H. discriminate.
Qed.

Lemma truthy_determined_id speaker_id : truthy (determined_id speaker_id) = true.
Proof. unfold determined_id. destruct (truthy speaker_id) eqn:H; [exact H | reflexivity]. Qed.

Lemma clone_step_skipped i voice_file w :
  truthy voice_file = false ->
  clone_step i voice_file w = Res (Ret (None, "Unknown")) w [].
Proof. intros H. unfold clone_step. rewrite H. reflexivity. Qed.

Lemma clone_step_missing i p w :
  fs_exists w p = false ->
  clone_step i (PStr p) w = Res (Ret (None, "Unknown")) w [].
Proof.
  intros H. unfold clone_step.
  destruct (truthy (PStr p)); unfold bind; cbn; rewrite ?H; reflexivity.
Qed.

Lemma clone_step_returned i p w speaker w' :
  fs_exists w p = true ->
  create_speaker i (PStr p) w = (Ret speaker, w') ->
  clone_step i (PStr p) w =
  Res (Ret (speaker, "Cloned File (" +:+ os_path_basename p +:+ ")")) w'
      [EvLog INFO ("Attempting voice cloning from: " +:+ p);
       EvCreateSpeaker (PStr p);
       EvLog INFO "Speaker profile created successfully from file."].
Proof.
  intros Hp Hc. unfold clone_step. rewrite (exists_truthy _ _ Hp).
  unfold bind, try_except, call. cbn. rewrite Hp. cbn. rewrite Hc. reflexivity.
Qed.

Lemma clone_step_raised i p w e w' :
  fs_exists w p = true ->
  create_speaker i (PStr p) w = (Raise e, w') ->
  is_Exception e = true ->
  clone_step i (PStr p) w =
  Res (Ret (None, "Unknown")) w'
      [EvLog INFO ("Attempting voice cloning from: " +:+ p);
       EvCreateSpeaker (PStr p);
       EvLog ERROR ("Error creating speaker profile from " +:+ p +:+ ": "
                    +:+ exn_msg e +:+ ". Trying speaker ID or default...")].
Proof.
  intros Hp Hc He. unfold clone_step. rewrite (exists_truthy _ _ Hp).
  unfold bind, try_except, except_Exception, call. cbn. rewrite Hp. cbn.
  rewrite Hc. cbn. rewrite He. reflexivity.
Qed.

(** An exception that is not an [Exception] leaves [clone_step] as it is. *)
Lemma clone_step_interrupted i p w e w' :
  fs_exists w p = true ->
  create_speaker i (PStr p) w = (Raise e, w') ->
  is_Exception e = false ->
  clone_step i (PStr p) w =
  Res (Raise e) w'
      [EvLog INFO ("Attempting voice cloning from: " +:+ p); EvCreateSpeaker (PStr p)].
Proof.
  intros Hp Hc He. unfold clone_step. rewrite (exists_truthy _ _ Hp).
  unfold bind, try_except, except_Exception, call. cbn. rewrite Hp. cbn.
  rewrite Hc. cbn. rewrite He. reflexivity.
Qed.

(** [id_step] asks the engine once, for [determined_id speaker_id], and
    what it gives back follows the engine's answer. *)
Lemma id_step_spec i speaker_id w :
  let id := determined_id speaker_id in
  let answer := load_default_speaker i id w in
  let r := id_step i speaker_id w in
  world r = snd answer /\
  (exists m tail, evs r = EvLog INFO m :: EvLoadDefaultSpeaker id :: tail /\
                  Forall (fun ev => is_log ev = true) tail) /\
  match fst answer with
  | Ret speaker => exists src, out r = Ret (speaker, src)
  | Raise e => if is_Exception e
               then exists src, out r = Ret (None, src)
               else out r = Raise e
  end.
Proof.
  cbv zeta. unfold id_step, determined_id.
  destruct (truthy speaker_id) eqn:Ht.
  - unfold bind at 1. cbn [log emit out evs world ret prepend fst snd].
    cbn [bind log emit out evs world ret prepend fst snd app]. rewrite Ht.
    unfold try_except, except_Exception, bind, call. cbn.
    destruct (load_default_speaker i speaker_id w) as [[sp|e] w'] eqn:Hl; cbn.
    + repeat split; eauto 10.
    + destruct (is_Exception e) eqn:He; cbn.
      * destruct (eq_str speaker_id DEFAULT_VOICE); cbn; repeat split; eauto 10.
      * repeat split; eauto 10.
  - unfold try_except, except_Exception, bind, call. cbn.
    destruct (load_default_speaker i (PStr DEFAULT_VOICE) w) as [[sp|e] w'] eqn:Hl; cbn.
    + repeat split; eauto 10.
    + destruct (is_Exception e) eqn:He; cbn; repeat split; eauto 10.
Qed.

Lemma generate_step_unresolved i sc text output_file src w :
  generate_step i sc text output_file (None, src) w =
  Res (Ret false) w
      [EvLog ERROR ("Failed to obtain a valid speaker profile (Source attempted: "
                    +:+ src +:+ "). Cannot generate speech.")].
Proof. reflexivity. Qed.

(** With a speaker, [generate_step] first builds the generation
    configuration for that speaker, and for no other. *)
Lemma generate_step_speaker i sc text output_file speaker src w :
  let r := generate_step i sc text output_file (Some speaker, src) w in
  In (EvGenerationConfig text speaker sc) (evs r) /\
  (forall t s c, In (EvGenerationConfig t s c) (evs r) -> s = speaker).
Proof.
  cbv zeta. unfold generate_step, bind, call, log, emit. exec;
    (split; [tauto | intros t s c H; intuition congruence]).
Qed.

(** [generate_step] gives [True] only when the four engine calls all
    returned; it then saved once, to [output_file]. *)
Lemma generate_step_true i sc text output_file resolved w :
  out (generate_step i sc text output_file resolved w) = Ret true ->
  exists speaker c a w1 w2 w3,
    fst resolved = Some speaker /\
    new_GenerationConfig text CHUNKED speaker sc w = (Ret c, w1) /\
    generate i c w1 = (Ret a, w2) /\
    audio_save a output_file w2 = (Ret tt, w3) /\
    world (generate_step i sc text output_file resolved w) = w3 /\
    count_ev is_save (evs (generate_step i sc text output_file resolved w)) = 1 /\
    In (EvSave a output_file) (evs (generate_step i sc text output_file resolved w)).
Proof.
  destruct resolved as [[speaker|] src]; unfold generate_step; cbn [fst snd].
  2: { cbn. discriminate. }
  unfold bind, call, log, emit. exec; try discriminate.
  intros _.
  match goal with H : audio_save _ _ _ = (Ret ?u, _) |- _ => destruct u end.
  exists speaker. do 5 eexists.
  repeat split; eauto.
Qed.

Lemma generate_step_save_once i sc text output_file resolved w :
  count_ev is_save (evs (generate_step i sc text output_file resolved w)) <= 1 /\
  (forall a p, In (EvSave a p) (evs (generate_step i sc text output_file resolved w)) ->
               p = output_file).
Proof.
  destruct resolved as [[speaker|] src]; unfold generate_step; cbn [fst snd].
  2: { cbn. split; [lia | intros a p H; intuition discriminate]. }
  unfold bind, call, log, emit. exec;
    (split; [lia | intros a' p' H; intuition congruence]).
Qed.

Lemma generate_step_never_false_with_speaker i sc text output_file speaker src w :
  out (generate_step i sc text output_file (Some speaker, src) w) <> Ret false.
Proof.
  unfold generate_step, bind, call, log, emit. exec; discriminate.
Qed.

(** ** What each part of [speak] can emit *)

Section Quiet.

Variable p : event -> bool.
Hypothesis p_log : forall l m, p (EvLog l m) = false.

Lemma log_quiet l m : quiet p (log l m).
Proof. apply quiet_emit, p_log. Qed.

Lemma ensure_output_dir_quiet output_file :
  (forall d, p (EvMakedirs d) = false) -> quiet p (ensure_output_dir output_file).
Proof. intros Hm. unfold ensure_output_dir. quiet_tac. Qed.

Lemma clone_step_quiet i voice_file :
  (forall v, p (EvCreateSpeaker v) = false) -> quiet p (clone_step i voice_file).
Proof. intros Hc. unfold clone_step. quiet_tac. Qed.

Lemma id_step_quiet i speaker_id :
  (forall v, p (EvLoadDefaultSpeaker v) = false) -> quiet p (id_step i speaker_id).
Proof. intros Hl. unfold id_step. quiet_tac. Qed.

#[local] Hint Resolve ensure_output_dir_quiet clone_step_quiet id_step_quiet : quiet.

Lemma resolve_speaker_quiet i speaker_id voice_file :
  (forall v, p (EvCreateSpeaker v) = false) ->
  (forall v, p (EvLoadDefaultSpeaker v) = false) ->
  quiet p (resolve_speaker i speaker_id voice_file).
Proof. intros Hc Hl. unfold resolve_speaker. quiet_tac. Qed.

Lemma generate_step_quiet i sc text output_file resolved :
  (forall t s c, p (EvGenerationConfig t s c) = false) ->
  (forall c, p (EvGenerate c) = false) ->
  (forall a f, p (EvSave a f) = false) ->
  quiet p (generate_step i sc text output_file resolved).
Proof. intros Hc Hg Hs. unfold generate_step. quiet_tac. Qed.

Lemma speak_failed_quiet e : quiet p (speak_failed e).
Proof. unfold speak_failed. quiet_tac. Qed.

#[local] Hint Resolve resolve_speaker_quiet generate_step_quiet speak_failed_quiet : quiet.

(** [speak] only logs, makes directories and calls the engine's five
    speaker and generation operations. *)
Lemma speak_quiet self text output_file speaker_id voice_file :
  (forall d, p (EvMakedirs d) = false) ->
  (forall v, p (EvCreateSpeaker v) = false) ->
  (forall v, p (EvLoadDefaultSpeaker v) = false) ->
  (forall t s c, p (EvGenerationConfig t s c) = false) ->
  (forall c, p (EvGenerate c) = false) ->
  (forall a f, p (EvSave a f) = false) ->
  quiet p (speak self text output_file speaker_id voice_file).
Proof. intros Hm Hc Hl Hgc Hg Hs. unfold speak, speak_body. quiet_tac. Qed.

End Quiet.

(** The cloning error of line 133 is logged by [clone_step] only; without
    a voice file nothing in [speak] logs it. *)
Lemma speak_without_file_no_cloning_error self text output_file speaker_id :
  quiet is_cloning_error (speak self text output_file speaker_id PNone).
Proof.
  unfold speak, speak_body, speak_failed, resolve_speaker, generate_step,
    ensure_output_dir, id_step, clone_step.
  cbn [truthy]. quiet_tac.
Qed.

(** ** A call of [speak] that reaches speaker resolution

    That is: the handler has its interface and its sampler configuration,
    text and output path are not empty, and lines 110-117 found or made
    the directory of the output file. *)

Lemma truthy_str s : s <> "" -> truthy (PStr s) = true.
Proof. destruct s; [congruence | reflexivity]. Qed.

(** The events of the outer [try] of [speak] are those of its body, and
    one more log line when the body raised an [Exception]. *)
Lemma try_speak_failed_evs (body : M bool) w :
  exists tail, evs (try_except body (except_Exception speak_failed) w) = (evs (body w) ++ tail)%list /\
               Forall (fun ev => is_log ev = true) tail.
Proof.
  destruct (try_Exception_cases body speak_failed w)
    as [(a & _ & ->) | [(e & _ & _ & ->) | (e & _ & _ & ->)]].
  - exists []. rewrite app_nil_r. auto.
  - exists []. rewrite app_nil_r. auto.
  - eexists. split; [reflexivity|]. repeat constructor.
Qed.

Lemma count_ev_logs p tail :
  (forall l m, p (EvLog l m) = false) ->
  Forall (fun ev => is_log ev = true) tail -> count_ev p tail = 0.
Proof.
  intros Hp Hall. induction Hall as [|ev tail Hev _ IH]; [reflexivity|].
  destruct ev; try discriminate. cbn. rewrite Hp. exact IH.
Qed.

Lemma In_logs ev tail :
  Forall (fun ev => is_log ev = true) tail -> In ev tail -> is_log ev = true.
Proof. intros Hall Hin. rewrite Forall_forall in Hall. apply Hall. apply list_elem_of_In, Hin. Qed.

Section Resolution.

Variables (self : TTSHandler) (i : Interface) (sc : SamplerConfig).
Variables (text output_file : string) (speaker_id : pyval) (w : World).

Hypothesis has_interface : interface self = Some i.
Hypothesis has_sampler : sampler_config self = Some sc.
Hypothesis text_given : text <> "".
Hypothesis output_given : output_file <> "".
Hypothesis dir_ok : out (ensure_output_dir output_file w) = Ret true.

(** The world in which speaker resolution starts. *)
Let w1 : World := world (ensure_output_dir output_file w).

Lemma speak_reaches_resolution voice_file :
  speak self text output_file speaker_id voice_file w =
  prepend (evs (ensure_output_dir output_file w))
    (try_except (speak_body i sc text output_file speaker_id voice_file)
                (except_Exception speak_failed) w1).
Proof.
  unfold speak. rewrite has_interface, has_sampler.
  rewrite (truthy_str _ text_given), (truthy_str _ output_given). cbn [negb].
  rewrite (bind_Ret _ _ _ _ dir_ok). reflexivity.
Qed.

(** Counting in a run of [speak]: the directory step and the closing log
    line add nothing to what the body of the [try] emits. *)
Lemma speak_count p voice_file :
  (forall l m, p (EvLog l m) = false) -> (forall d, p (EvMakedirs d) = false) ->
  count_ev p (evs (speak self text output_file speaker_id voice_file w)) =
  count_ev p (evs (speak_body i sc text output_file speaker_id voice_file w1)).
Proof.
  intros Hl Hm. rewrite speak_reaches_resolution. cbn [prepend evs].
  rewrite count_ev_app, (ensure_output_dir_quiet p Hl _ Hm w).
  destruct (try_speak_failed_evs (speak_body i sc text output_file speaker_id voice_file) w1)
    as (tail & -> & Hall).
  rewrite count_ev_app, (count_ev_logs p tail Hl Hall). lia.
Qed.

Lemma speak_In voice_file ev :
  is_log ev = false -> (forall d, ev <> EvMakedirs d) ->
  In ev (evs (speak self text output_file speaker_id voice_file w)) <->
  In ev (evs (speak_body i sc text output_file speaker_id voice_file w1)).
Proof.
  intros Hl Hm. rewrite speak_reaches_resolution. cbn [prepend evs].
  destruct (try_speak_failed_evs (speak_body i sc text output_file speaker_id voice_file) w1)
    as (tail & -> & Hall).
  rewrite !in_app_iff. split; [|tauto].
  intros [H | [H | H]]; [exfalso | exact H | exfalso].
  - pose (p := fun e => if is_log e then false
                        else match e with EvMakedirs _ => false | _ => true end).
    assert (Hq : quiet p (ensure_output_dir output_file))
      by (apply ensure_output_dir_quiet; reflexivity).
    apply (count_ev_zero_not_In p _ ev (Hq w)); [|exact H].
    unfold p. rewrite Hl. destruct ev; try reflexivity. exfalso. eapply Hm. reflexivity.
  - rewrite (In_logs _ _ Hall H) in Hl. discriminate.
Qed.

Lemma speak_body_resolved voice_file resolved w2 l :
  resolve_speaker i speaker_id voice_file w1 = Res (Ret resolved) w2 l ->
  speak_body i sc text output_file speaker_id voice_file w1 =
  prepend l (generate_step i sc text output_file resolved w2).
Proof. intros H. unfold speak_body, bind. rewrite H. reflexivity. Qed.

Lemma resolve_speaker_cloned p speaker w2 :
  fs_exists w1 p = true ->
  create_speaker i (PStr p) w1 = (Ret (Some speaker), w2) ->
  resolve_speaker i speaker_id (PStr p) w1 =
  Res (Ret (Some speaker, "Cloned File (" +:+ os_path_basename p +:+ ")")) w2
      [EvLog INFO ("Attempting voice cloning from: " +:+ p);
       EvCreateSpeaker (PStr p);
       EvLog INFO "Speaker profile created successfully from file."].
Proof.
  intros Hp Hc. unfold resolve_speaker, bind.
  rewrite (clone_step_returned _ _ _ _ _ Hp Hc). reflexivity.
Qed.

(** C1.  In a call that reaches speaker resolution, when [voice_file]
    names an existing file and [create_speaker] returns a profile,
    resolution gives that profile with the source "Cloned File",
    [load_default_speaker] is not called at all in the call,
    [create_speaker] is called once, and the generation configuration is
    built for the cloned profile and for no other. *)
Theorem speak_valid_voice_file_uses_clone p speaker w2 :
  fs_exists w1 p = true ->
  create_speaker i (PStr p) w1 = (Ret (Some speaker), w2) ->
  let r := speak self text output_file speaker_id (PStr p) w in
  out (resolve_speaker i speaker_id (PStr p) w1)
    = Ret (Some speaker, "Cloned File (" +:+ os_path_basename p +:+ ")") /\
  count_ev is_load_default_speaker (evs r) = 0 /\
  count_ev is_create_speaker (evs r) = 1 /\
  In (EvGenerationConfig text speaker sc) (evs r) /\
  (forall t s c, In (EvGenerationConfig t s c) (evs r) -> s = speaker).
Proof.
  intros Hp Hc. cbv zeta.
  pose proof (resolve_speaker_cloned p speaker w2 Hp Hc) as Hres.
  pose proof (speak_body_resolved _ _ _ _ Hres) as Hbody.
  split; [rewrite Hres; reflexivity|].
  split.
  { rewrite speak_count by reflexivity. rewrite Hbody. cbn [prepend evs].
    rewrite count_ev_app. cbn [count_ev is_load_default_speaker].
    rewrite generate_step_quiet; reflexivity. }
  split.
  { rewrite speak_count by reflexivity. rewrite Hbody. cbn [prepend evs].
    rewrite count_ev_app. cbn [count_ev is_create_speaker].
    rewrite generate_step_quiet; reflexivity. }
  pose proof (generate_step_speaker i sc text output_file speaker
                ("Cloned File (" +:+ os_path_basename p +:+ ")") w2) as [Hin Honly].
  split.
  - apply speak_In; [reflexivity | discriminate |].
    rewrite Hbody. cbn [prepend evs]. apply in_app_iff. right. exact Hin.
  - intros t s c H. apply speak_In in H; [| reflexivity | discriminate].
    rewrite Hbody in H. cbn [prepend evs] in H. apply in_app_iff in H.
    destruct H as [H | H]; [|exact (Honly _ _ _ H)].
    cbn in H. intuition discriminate.
Qed.

(** The identifier step is reached exactly when the cloning step left no
    speaker: the file was absent or missing, or cloning failed. *)
Lemma resolve_speaker_falls_through voice_file src l w2 :
  clone_step i voice_file w1 = Res (Ret (None, src)) w2 l ->
  resolve_speaker i speaker_id voice_file w1 = prepend l (id_step i speaker_id w2).
Proof. intros H. unfold resolve_speaker, bind. rewrite H. reflexivity. Qed.

Lemma id_step_count_load w2 :
  count_ev is_load_default_speaker (evs (id_step i speaker_id w2)) = 1 /\
  In (EvLoadDefaultSpeaker (determined_id speaker_id)) (evs (id_step i speaker_id w2)) /\
  (forall id, In (EvLoadDefaultSpeaker id) (evs (id_step i speaker_id w2)) ->
              id = determined_id speaker_id).
Proof.
  destruct (id_step_spec i speaker_id w2) as (_ & (m & tail & -> & Hall) & _).
  split; [|split].
  - cbn. rewrite (count_ev_logs _ tail); [reflexivity | reflexivity | exact Hall].
  - cbn. tauto.
  - intros id [H | [H | H]]; [discriminate | congruence |].
    apply (In_logs _ _ Hall) in H. discriminate.
Qed.

(** Once the cloning step has left no speaker, the rest of the call asks
    for one identifier, [determined_id speaker_id], once. *)
Lemma speak_falls_through voice_file src l w2 :
  clone_step i voice_file w1 = Res (Ret (None, src)) w2 l ->
  let r := speak self text output_file speaker_id voice_file w in
  count_ev is_load_default_speaker (evs r) = 1 /\
  In (EvLoadDefaultSpeaker (determined_id speaker_id)) (evs r) /\
  (forall id, In (EvLoadDefaultSpeaker id) (evs r) -> id = determined_id speaker_id) /\
  count_ev is_create_speaker (evs r) = count_ev is_create_speaker l.
Proof.
  intros Hclone. cbv zeta.
  assert (Hbody : speak_body i sc text output_file speaker_id voice_file w1 =
                  prepend l (bind (id_step i speaker_id)
                                  (generate_step i sc text output_file) w2)).
  { unfold speak_body. apply bind_prepend.
    apply (resolve_speaker_falls_through _ _ _ _ Hclone). }
  destruct (id_step_count_load w2) as (Hone & Hin & Honly).
  assert (Hl : count_ev is_load_default_speaker l = 0).
  { pose proof (clone_step_quiet is_load_default_speaker
                  ltac:(reflexivity) i voice_file ltac:(reflexivity) w1) as H.
    rewrite Hclone in H. exact H. }
  repeat split.
  - rewrite speak_count by reflexivity. rewrite Hbody. cbn [prepend evs].
    rewrite count_ev_app, Hl, count_bind_quiet, Hone; [reflexivity|].
    intros a. apply generate_step_quiet; reflexivity.
  - apply speak_In; [reflexivity | discriminate |]. rewrite Hbody. cbn [prepend evs].
    apply in_app_iff. right. apply bind_In, Hin.
  - intros id H. apply speak_In in H; [| reflexivity | discriminate].
    rewrite Hbody in H. cbn [prepend evs] in H. apply in_app_iff in H.
    destruct H as [H | H].
    + exfalso. revert H. apply (count_ev_zero_not_In _ _ _ Hl). reflexivity.
    + apply bind_In_inv in H. destruct H as [H | [a H]]; [exact (Honly _ H)|].
      exfalso. revert H.
      apply (count_ev_zero_not_In is_load_default_speaker); [|reflexivity].
      apply generate_step_quiet; reflexivity.
  - rewrite speak_count by reflexivity. rewrite Hbody. cbn [prepend evs].
    rewrite count_ev_app, count_bind_quiet.
    + rewrite id_step_quiet; [lia | reflexivity | reflexivity].
    + intros a. apply generate_step_quiet; reflexivity.
Qed.

(** Resolution that ends without a speaker makes [speak] return [False]
    before anything is generated. *)
Lemma speak_unresolved voice_file src :
  out (resolve_speaker i speaker_id voice_file w1) = Ret (None, src) ->
  let r := speak self text output_file speaker_id voice_file w in
  out r = Ret false /\ count_ev is_generation (evs r) = 0.
Proof.
  intros Hres. cbv zeta.
  assert (Hbody : out (speak_body i sc text output_file speaker_id voice_file w1) = Ret false).
  { unfold speak_body. rewrite (bind_Ret _ _ _ _ Hres). reflexivity. }
  split.
  - rewrite speak_reaches_resolution. cbn [prepend out].
    unfold try_except. rewrite Hbody. exact Hbody.
  - rewrite speak_count by reflexivity.
    unfold speak_body. rewrite (bind_Ret _ _ _ _ Hres). cbn [prepend evs].
    rewrite count_ev_app, generate_step_unresolved. cbn [evs count_ev is_generation].
    rewrite (resolve_speaker_quiet is_generation); reflexivity.
Qed.

(** An error from [load_default_speaker] ends resolution without a speaker. *)
Lemma resolve_speaker_identifier_error voice_file src l w2 e w3 :
  clone_step i voice_file w1 = Res (Ret (None, src)) w2 l ->
  load_default_speaker i (determined_id speaker_id) w2 = (Raise e, w3) ->
  is_Exception e = true ->
  exists src', out (resolve_speaker i speaker_id voice_file w1) = Ret (None, src').
Proof.
  intros Hclone Hload He.
  destruct (id_step_spec i speaker_id w2) as (_ & _ & Hout).
  rewrite Hload in Hout. cbn [fst] in Hout. rewrite He in Hout.
  destruct Hout as [src' Hout]. exists src'.
  rewrite (resolve_speaker_falls_through _ _ _ _ Hclone). exact Hout.
Qed.

(** What the body of the [try] raises becomes [False] when it is an
    [Exception] and leaves [speak] when it is not. *)
Lemma speak_body_raised voice_file e :
  out (speak_body i sc text output_file speaker_id voice_file w1) = Raise e ->
  out (speak self text output_file speaker_id voice_file w) =
  if is_Exception e then Ret false else Raise e.
Proof.
  intros Hbody. rewrite speak_reaches_resolution. cbn [prepend out].
  unfold try_except, except_Exception. rewrite Hbody.
  destruct (is_Exception e); [reflexivity | exact Hbody].
Qed.

(** So does what resolution raises, and nothing is generated then. *)
Lemma speak_resolution_raised voice_file e :
  out (resolve_speaker i speaker_id voice_file w1) = Raise e ->
  let r := speak self text output_file speaker_id voice_file w in
  out r = (if is_Exception e then Ret false else Raise e) /\
  count_ev is_generation (evs r) = 0 /\
  (forall p, (forall l m, p (EvLog l m) = false) -> (forall d, p (EvMakedirs d) = false) ->
     count_ev p (evs r) = count_ev p (evs (resolve_speaker i speaker_id voice_file w1))).
Proof.
  intros Hres. cbv zeta.
  assert (Hbody : speak_body i sc text output_file speaker_id voice_file w1 =
                  Res (Raise e) (world (resolve_speaker i speaker_id voice_file w1))
                      (evs (resolve_speaker i speaker_id voice_file w1)))
    by (unfold speak_body; apply bind_Raise; exact Hres).
  split; [apply speak_body_raised; rewrite Hbody; reflexivity|].
  split.
  - rewrite speak_count by reflexivity. rewrite Hbody. cbn [evs].
    apply (resolve_speaker_quiet is_generation); reflexivity.
  - intros p Hl Hm. rewrite (speak_count p _ Hl Hm), Hbody. reflexivity.
Qed.

(** An exception from [load_default_speaker] that is not an [Exception]
    leaves resolution as it is. *)
Lemma resolve_speaker_identifier_interrupt voice_file src l w2 e w3 :
  clone_step i voice_file w1 = Res (Ret (None, src)) w2 l ->
  load_default_speaker i (determined_id speaker_id) w2 = (Raise e, w3) ->
  is_Exception e = false ->
  out (resolve_speaker i speaker_id voice_file w1) = Raise e.
Proof.
  intros Hclone Hload He.
  destruct (id_step_spec i speaker_id w2) as (_ & _ & Hout).
  rewrite Hload in Hout. cbn [fst] in Hout. rewrite He in Hout.
  rewrite (resolve_speaker_falls_through _ _ _ _ Hclone). exact Hout.
Qed.

(** C2, as amended.  In a call that reaches speaker resolution, when
    resolution reaches the identifier step (the cloning step left no
    speaker) and [load_default_speaker] raises for the determined
    identifier, [load_default_speaker] was called once and only for that
    identifier, and nothing is generated;
    (a) when what it raises is an [Exception], resolution gives no
        speaker and [speak] returns [False];
    (b) when it is not (a [KeyboardInterrupt], say), resolution raises it
        and so does [speak]: the call does not return [False]. *)
Theorem speak_failed_identifier_is_final voice_file src l w2 e w3 :
  clone_step i voice_file w1 = Res (Ret (None, src)) w2 l ->
  load_default_speaker i (determined_id speaker_id) w2 = (Raise e, w3) ->
  let r := speak self text output_file speaker_id voice_file w in
  count_ev is_load_default_speaker (evs r) = 1 /\
  (forall id, In (EvLoadDefaultSpeaker id) (evs r) -> id = determined_id speaker_id) /\
  count_ev is_generation (evs r) = 0 /\
  (is_Exception e = true ->
     out r = Ret false /\
     exists src', out (resolve_speaker i speaker_id voice_file w1) = Ret (None, src')) /\
  (is_Exception e = false ->
     out r = Raise e /\
     out (resolve_speaker i speaker_id voice_file w1) = Raise e).
Proof.
  intros Hclone Hload. cbv zeta.
  destruct (speak_falls_through _ _ _ _ Hclone) as (Hone & _ & Honly & _).
  split; [exact Hone|]. split; [exact Honly|].
  destruct (is_Exception e) eqn:He.
  - destruct (resolve_speaker_identifier_error _ _ _ _ _ _ Hclone Hload He) as [src' Hres].
    destruct (speak_unresolved _ _ Hres) as [Hfalse Hgen].
    split; [exact Hgen|]. split; [eauto | discriminate].
  - pose proof (resolve_speaker_identifier_interrupt _ _ _ _ _ _ Hclone Hload He) as Hres.
    destruct (speak_resolution_raised _ _ Hres) as (Hout & Hgen & _).
    rewrite He in Hout.
    split; [exact Hgen|]. split; [discriminate | auto].
Qed.

(** C3, as amended.  In a call that reaches speaker resolution, when
    [voice_file] names an existing file and [create_speaker] raises,
    [create_speaker] is called exactly once in the whole call;
    (a) when what it raises is an [Exception], resolution goes on with
        the identifier step, once: its events are the cloning attempt
        followed by those of the identifier step, and
        [load_default_speaker] is called once, for the determined
        identifier;
    (b) when it is not (a [KeyboardInterrupt], say), there is no
        fall-through: the exception leaves resolution and [speak], and
        [load_default_speaker] is not called at all. *)
Theorem speak_cloning_error_falls_through_once p e w2 :
  fs_exists w1 p = true ->
  create_speaker i (PStr p) w1 = (Raise e, w2) ->
  let r := speak self text output_file speaker_id (PStr p) w in
  count_ev is_create_speaker (evs r) = 1 /\
  (is_Exception e = true ->
     evs (resolve_speaker i speaker_id (PStr p) w1) =
       ([EvLog INFO ("Attempting voice cloning from: " +:+ p);
         EvCreateSpeaker (PStr p);
         EvLog ERROR ("Error creating speaker profile from " +:+ p +:+ ": "
                      +:+ exn_msg e +:+ ". Trying speaker ID or default...")]
        ++ evs (id_step i speaker_id w2))%list /\
     count_ev is_load_default_speaker (evs r) = 1 /\
     In (EvLoadDefaultSpeaker (determined_id speaker_id)) (evs r)) /\
  (is_Exception e = false ->
     out (resolve_speaker i speaker_id (PStr p) w1) = Raise e /\
     out r = Raise e /\
     count_ev is_load_default_speaker (evs r) = 0).
Proof.
  intros Hp Hc. cbv zeta.
  destruct (is_Exception e) eqn:He.
  - pose proof (clone_step_raised _ _ _ _ _ Hp Hc He) as Hclone.
    destruct (speak_falls_through _ _ _ _ Hclone) as (Hone & Hin & _ & Hcreate).
    split; [exact Hcreate|]. split; [|discriminate]. intros _.
    split; [|split; assumption].
    rewrite (resolve_speaker_falls_through _ _ _ _ Hclone). reflexivity.
  - pose proof (clone_step_interrupted _ _ _ _ _ Hp Hc He) as Hclone.
    assert (Hres : resolve_speaker i speaker_id (PStr p) w1 =
                   Res (Raise e) w2
                       [EvLog INFO ("Attempting voice cloning from: " +:+ p);
                        EvCreateSpeaker (PStr p)])
      by (unfold resolve_speaker, bind; rewrite Hclone; reflexivity).
    assert (Hout : out (resolve_speaker i speaker_id (PStr p) w1) = Raise e)
      by (rewrite Hres; reflexivity).
    destruct (speak_resolution_raised _ _ Hout) as (Hspeak & _ & Hcount).
    rewrite He in Hspeak.
    split; [rewrite Hcount, Hres by reflexivity; reflexivity|].
    split; [discriminate|]. intros _.
    split; [exact Hout|]. split; [exact Hspeak|].
    rewrite Hcount, Hres by reflexivity. reflexivity.
Qed.

(** C4.  In a call that reaches speaker resolution, without a voice file
    ([None], or a path that does not exist) and with [speaker_id] [None],
    [load_default_speaker] is called once, with the class default
    "EN-FEMALE-1-NEUTRAL". *)
Theorem speak_no_voice_no_id_loads_default voice_file :
  speaker_id = PNone ->
  voice_file = PNone \/ (exists p, voice_file = PStr p /\ fs_exists w1 p = false) ->
  let r := speak self text output_file speaker_id voice_file w in
  DEFAULT_VOICE = "EN-FEMALE-1-NEUTRAL" /\
  count_ev is_load_default_speaker (evs r) = 1 /\
  In (EvLoadDefaultSpeaker (PStr DEFAULT_VOICE)) (evs r) /\
  (forall id, In (EvLoadDefaultSpeaker id) (evs r) -> id = PStr DEFAULT_VOICE).
Proof.
  intros Hid Hvf. cbv zeta.
  assert (Hclone : clone_step i voice_file w1 = Res (Ret (None, "Unknown")) w1 []).
  { destruct Hvf as [-> | (p & -> & Hp)];
      [apply clone_step_skipped; reflexivity | apply clone_step_missing, Hp]. }
  destruct (speak_falls_through _ _ _ _ Hclone) as (Hone & Hin & Honly & _).
  replace (determined_id speaker_id) with (PStr DEFAULT_VOICE) in Hin, Honly
    by (rewrite Hid; reflexivity).
  repeat split; assumption.
Qed.

End Resolution.

(** C10.  A [voice_file] that names a path which does not exist is
    treated as [None]: the call gives the same result, leaves the same
    world and emits the same events; [create_speaker] is not called and
    no cloning error is logged.  In a call that reaches speaker
    resolution, resolution is then the identifier step and nothing else,
    as it is for [None]: [load_default_speaker] is called, once, for the
    determined identifier. *)
Theorem speak_missing_voice_file_like_none self text output_file speaker_id p w :
  fs_exists (world (ensure_output_dir output_file w)) p = false ->
  let r := speak self text output_file speaker_id (PStr p) w in
  r = speak self text output_file speaker_id PNone w /\
  count_ev is_create_speaker (evs r) = 0 /\
  count_ev is_cloning_error (evs r) = 0 /\
  (forall i sc,
     interface self = Some i -> sampler_config self = Some sc ->
     text <> "" -> output_file <> "" ->
     out (ensure_output_dir output_file w) = Ret true ->
     let w1 := world (ensure_output_dir output_file w) in
     resolve_speaker i speaker_id (PStr p) w1 = id_step i speaker_id w1 /\
     resolve_speaker i speaker_id PNone w1 = id_step i speaker_id w1 /\
     count_ev is_load_default_speaker (evs r) = 1 /\
     In (EvLoadDefaultSpeaker (determined_id speaker_id)) (evs r) /\
     (forall id, In (EvLoadDefaultSpeaker id) (evs r) -> id = determined_id speaker_id)).
Proof.
  intros Hp. cbv zeta.
  assert (Heq : speak self text output_file speaker_id (PStr p) w
                = speak self text output_file speaker_id PNone w).
  { unfold speak.
    destruct (interface self) as [i|]; [|reflexivity].
    destruct (sampler_config self) as [sc|]; [|reflexivity].
    destruct (negb (truthy (PStr text))); [reflexivity|].
    destruct (negb (truthy (PStr output_file))); [reflexivity|].
    destruct (out (ensure_output_dir output_file w)) as [dir_ok|e] eqn:Hdir.
    - rewrite !(bind_Ret _ _ _ _ Hdir). f_equal.
      destruct dir_ok; [|reflexivity]. cbn [negb].
      apply try_except_at. unfold speak_body, resolve_speaker.
      do 2 apply bind_at.
      rewrite (clone_step_missing _ _ _ Hp). reflexivity.
    - rewrite !(bind_Raise _ _ _ _ Hdir). reflexivity. }
  split; [exact Heq|]. split; [|split].
  - rewrite Heq.
    assert (Hq : quiet is_create_speaker (speak self text output_file speaker_id PNone)).
    { unfold speak, speak_body, speak_failed, resolve_speaker, generate_step,
        ensure_output_dir, id_step, clone_step.
      cbn [truthy]. quiet_tac. }
    apply Hq.
  - rewrite Heq. apply speak_without_file_no_cloning_error.
  - intros i sc Hi Hsc Ht Hf Hdir.
    pose proof (clone_step_missing i p _ Hp) as Hmissing.
    pose proof (clone_step_skipped i PNone (world (ensure_output_dir output_file w))
                  eq_refl) as Hskipped.
    destruct (speak_falls_through self i sc text output_file speaker_id w
                Hi Hsc Ht Hf Hdir (PStr p) _ _ _ Hmissing) as (Hone & Hin & Honly & _).
    split; [|split; [|split; [|split]]]; try assumption.
    + rewrite (resolve_speaker_falls_through i output_file speaker_id w _ _ _ _ Hmissing).
      reflexivity.
    + rewrite (resolve_speaker_falls_through i output_file speaker_id w _ _ _ _ Hskipped).
      reflexivity.
Qed.

(** ** When [speak] returns [False], and what it lets through *)



Lemma truthy_str_inv s : truthy (PStr s) = true -> s <> "".
Proof. destruct s; cbn; congruence. Qed.

Lemma bind_Ret_inv {A B} (m : M A) (f : A -> M B) w b :
  out (bind m f w) = Ret b ->
  exists a, out (m w) = Ret a /\ out (f a (world (m w))) = Ret b /\
            world (bind m f w) = world (f a (world (m w))).
Proof.
  unfold bind. destruct (out (m w)) as [a|e]; cbn; [eauto | discriminate].
Qed.

(** A [try] whose only clause is [except Exception] and whose clause
    always returns lets no [Exception] through. *)
Lemma try_Exception_contains {A} (body : M A) (h : exn -> M A) w e :
  (forall e' w', exists a, out (h e' w') = Ret a) ->
  out (try_except body (except_Exception h) w) = Raise e -> is_Exception e = false.
Proof.
  intros Hh.
  destruct (try_Exception_cases body h w)
    as [(a & Ho & ->) | [(e' & Ho & He & ->) | (e' & Ho & He & ->)]]; intros H.
  - congruence.
  - congruence.
  - cbn in H. destruct (Hh e' (world (body w))) as [a Ha]. congruence.
Qed.

Lemma ensure_output_dir_contains output_file w e :
  out (ensure_output_dir output_file w) = Raise e -> is_Exception e = false.
Proof.
  unfold ensure_output_dir. apply try_Exception_contains.
  intros e' w'. exists false. reflexivity.
Qed.

Lemma speak_contains self text output_file speaker_id voice_file w e :
  out (speak self text output_file speaker_id voice_file w) = Raise e ->
  is_Exception e = false.
Proof.
  unfold speak.
  destruct (interface self) as [i|]; [|discriminate].
  destruct (sampler_config self) as [sc|]; [|discriminate].
  destruct (negb (truthy (PStr text))); [discriminate|].
  destruct (negb (truthy (PStr output_file))); [discriminate|].
  destruct (out (ensure_output_dir output_file w)) as [dir_ok|e0] eqn:Hdir.
  - rewrite (bind_Ret _ _ _ _ Hdir). cbn [prepend out].
    destruct dir_ok; cbn [negb]; [|discriminate].
    apply try_Exception_contains. intros e' w'. exists false. reflexivity.
  - rewrite (bind_Raise _ _ _ _ Hdir). cbn. intros [= <-].
    exact (ensure_output_dir_contains _ _ _ Hdir).
Qed.

(** [speak] returns [True] only after every step has succeeded. *)
Lemma speak_true_inv self text output_file speaker_id voice_file w :
  let r := speak self text output_file speaker_id voice_file w in
  out r = Ret true ->
  exists i sc speaker src w2 l c a w3 w4 w5,
    interface self = Some i /\ sampler_config self = Some sc /\
    text <> "" /\ output_file <> "" /\
    out (ensure_output_dir output_file w) = Ret true /\
    resolve_speaker i speaker_id voice_file (world (ensure_output_dir output_file w))
      = Res (Ret (Some speaker, src)) w2 l /\
    new_GenerationConfig text CHUNKED speaker sc w2 = (Ret c, w3) /\
    generate i c w3 = (Ret a, w4) /\
    audio_save a output_file w4 = (Ret tt, w5) /\
    world r = w5 /\
    count_ev is_save (evs r) = 1 /\
    In (EvSave a output_file) (evs r).
Proof.
  cbv zeta. intros Htrue.
  destruct (interface self) as [i|] eqn:Hi;
    [|unfold speak in Htrue; rewrite Hi in Htrue; discriminate].
  destruct (sampler_config self) as [sc|] eqn:Hsc;
    [|unfold speak in Htrue; rewrite Hi, Hsc in Htrue; discriminate].
  destruct (truthy (PStr text)) eqn:Ht;
    [|unfold speak in Htrue; rewrite Hi, Hsc, Ht in Htrue; discriminate].
  destruct (truthy (PStr output_file)) eqn:Hf;
    [|unfold speak in Htrue; rewrite Hi, Hsc, Ht, Hf in Htrue; discriminate].
  apply truthy_str_inv in Ht, Hf.
  assert (Hdir : out (ensure_output_dir output_file w) = Ret true).
  { unfold speak in Htrue.
    rewrite Hi, Hsc, (truthy_str _ Ht), (truthy_str _ Hf) in Htrue. cbn [negb] in Htrue.
    destruct (out (ensure_output_dir output_file w)) as [[|]|e0] eqn:Hdir;
      [reflexivity | |].
    - rewrite (bind_Ret _ _ _ _ Hdir) in Htrue. discriminate.
    - rewrite (bind_Raise _ _ _ _ Hdir) in Htrue. discriminate. }
  pose proof (speak_reaches_resolution self i sc text output_file speaker_id w
                Hi Hsc Ht Hf Hdir voice_file) as Hspeak.
  pose proof (speak_count self i sc text output_file speaker_id w
                Hi Hsc Ht Hf Hdir is_save voice_file
                ltac:(reflexivity) ltac:(reflexivity)) as Hcount.
  pose proof (speak_In self i sc text output_file speaker_id w
                Hi Hsc Ht Hf Hdir voice_file) as HIn.
  rewrite Hspeak in Htrue. cbn [prepend out world] in Htrue.
  set (w1 := world (ensure_output_dir output_file w)) in *.
  destruct (try_Exception_cases
              (speak_body i sc text output_file speaker_id voice_file) speak_failed w1)
    as [(b & Ho & Hr) | [(e' & Ho & He & Hr) | (e' & Ho & He & Hr)]];
    cbv zeta in Hr; rewrite Hr in Htrue, Hspeak; [| congruence | discriminate].
  unfold speak_body in Htrue.
  destruct (bind_Ret_inv _ _ _ _ Htrue) as ([[speaker|] src] & Hres & Hgen & Hw);
    [|rewrite generate_step_unresolved in Hgen; discriminate].
  destruct (generate_step_true _ _ _ _ _ _ Hgen)
    as (speaker' & c & a & w3 & w4 & w5 & Hsp & Hc & Hg & Hs & Hw5 & Hone & Hin).
  cbn [fst] in Hsp. injection Hsp as <-.
  exists i, sc, speaker, src,
    (world (resolve_speaker i speaker_id voice_file w1)),
    (evs (resolve_speaker i speaker_id voice_file w1)), c, a, w3, w4, w5.
  assert (Hbody_evs :
    evs (speak_body i sc text output_file speaker_id voice_file w1) =
    (evs (resolve_speaker i speaker_id voice_file w1) ++
     evs (generate_step i sc text output_file (Some speaker, src)
            (world (resolve_speaker i speaker_id voice_file w1))))%list).
  { unfold speak_body. rewrite (bind_Ret _ _ _ _ Hres). reflexivity. }
  repeat split; try assumption.
  - rewrite <- Hres. reflexivity.
  - rewrite Hspeak. cbn [prepend world]. unfold speak_body. rewrite Hw. exact Hw5.
  - rewrite Hcount, Hbody_evs, count_ev_app, Hone.
    rewrite (resolve_speaker_quiet is_save); reflexivity.
  - apply HIn; [reflexivity | discriminate |].
    rewrite Hbody_evs. apply in_app_iff. right. exact Hin.
Qed.




(** ** The configuration loader *)

Lemma bind_lift_Ret {A B} (a : A) (f : A -> M B) :
  bind (lift_outcome (Ret a)) f = f a.
Proof. reflexivity. Qed.

Lemma bind_lift_Raise {A B} e (f : A -> M B) :
  bind (lift_outcome (Raise e)) f = raise e.
Proof. reflexivity. Qed.

Lemma bind_ret {A B} (a : A) (f : A -> M B) : bind (ret a) f = f a.
Proof. reflexivity. Qed.

Lemma bind_call_Ret {A B} ev (g : World -> outcome A * World) (f : A -> M B) w a w' :
  g w = (Ret a, w') -> bind (call ev g) f w = prepend [ev] (f a w').
Proof. intros H. unfold bind, call. rewrite H. reflexivity. Qed.

Lemma bind_call_Raise {A B} ev (g : World -> outcome A * World) (f : A -> M B) w e w' :
  g w = (Raise e, w') -> bind (call ev g) f w = Res (Raise e) w' [ev].
Proof. intros H. unfold bind, call. rewrite H. reflexivity. Qed.

Lemma with_default_keys_voice_file d :
  with_default_keys d !! "voice_file" = Some (default PNone (d !! "voice_file")).
Proof.
  unfold with_default_keys. cbv zeta.
  set (d1 := if bool_decide (is_Some (d !! "speaker_id")) then d
             else <["speaker_id" := PNone]> d).
  assert (H1 : d1 !! "voice_file" = d !! "voice_file").
  { unfold d1. destruct (bool_decide (is_Some (d !! "speaker_id"))); [reflexivity|].
    apply lookup_insert_ne. discriminate. }
  destruct (bool_decide (is_Some (d1 !! "voice_file"))) eqn:E.
  - apply bool_decide_eq_true in E. rewrite H1 in E |- *.
    destruct E as [v ->]. reflexivity.
  - apply bool_decide_eq_false in E. rewrite H1 in E. rewrite lookup_insert_eq.
    destruct (d !! "voice_file"); [exfalso; apply E; eauto | reflexivity].
Qed.

Lemma py_getitem_voice_file d :
  py_getitem (PDict (with_default_keys d)) "voice_file"
  = Ret (default PNone (d !! "voice_file")).
Proof. cbn [py_getitem]. rewrite with_default_keys_voice_file. reflexivity. Qed.

(** Lines 35-38 on a parsed object. *)
Lemma load_config_keys d (k : pyval -> M pyval) w :
  (has_id <- lift_outcome (py_contains "speaker_id" (PDict d));;
   config <- (if negb has_id
              then lift_outcome (py_setitem (PDict d) "speaker_id" PNone)
              else ret (PDict d));;
   has_vf <- lift_outcome (py_contains "voice_file" config);;
   config <- (if negb has_vf
              then lift_outcome (py_setitem config "voice_file" PNone)
              else ret config);;
   k config) w
  = k (PDict (with_default_keys d)) w.
Proof.
  unfold with_default_keys. cbv zeta.
  cbn [py_contains]. rewrite bind_lift_Ret.
  destruct (bool_decide (is_Some (d !! "speaker_id"))); cbn [negb py_setitem];
    rewrite ?bind_lift_Ret, ?bind_ret; cbn [py_contains]; rewrite bind_lift_Ret;
    match goal with |- context [bool_decide ?P] => destruct (bool_decide P) end;
    cbn [negb py_setitem]; rewrite ?bind_lift_Ret, ?bind_ret; reflexivity.
Qed.

(** What the body of the [with] block gives for a parsed object [d]. *)
Lemma load_config_body_object w d w' :
  json_load_file CONFIG_FILE w = (Ret (PDict d), w') ->
  let d2 := with_default_keys d in
  let vf := default PNone (d !! "voice_file") in
  load_config_body w =
  if truthy vf then
    match out (os_path_exists vf w') with
    | Ret true => Res (Ret (PDict d2)) w' [EvJsonLoad CONFIG_FILE]
    | Ret false =>
        Res (Ret (PDict (<["voice_file" := PNone]> d2))) w'
            [EvJsonLoad CONFIG_FILE;
             EvLog WARNING ("Voice file specified in " +:+ CONFIG_FILE +:+ " not found: "
                            +:+ py_str vf +:+ ". It will be ignored.")]
    | Raise e => Res (Raise e) w' [EvJsonLoad CONFIG_FILE]
    end
  else Res (Ret (PDict d2)) w' [EvJsonLoad CONFIG_FILE].
Proof.
  intros Hload. cbv zeta. unfold load_config_body.
  rewrite (bind_call_Ret _ _ _ _ _ _ Hload).
  rewrite load_config_keys.
  rewrite !py_getitem_voice_file.
  set (vf := default PNone (d !! "voice_file")).
  rewrite bind_lift_Ret.
  destruct (truthy vf) eqn:Ht.
  - rewrite !bind_lift_Ret.
    destruct (os_path_exists_pure vf w') as [Hw He].
    unfold bind. cbn [ret out world evs prepend]. rewrite Hw, He.
    destruct (out (os_path_exists vf w')) as [[|]|e]; reflexivity.
  - reflexivity.
Qed.

(** A parsed value that is not an object makes the body raise a
    [TypeError]: on the membership test, the item assignment or the item
    lookup. *)
Lemma load_config_body_not_object w v w' :
  json_load_file CONFIG_FILE w = (Ret v, w') ->
  (forall d, v <> PDict d) ->
  exists e, out (load_config_body w) = Raise e /\ is_Exception e = true.
Proof.
  intros Hload Hv. unfold load_config_body.
  rewrite (bind_call_Ret _ _ _ _ _ _ Hload). cbn [prepend out].
  destruct v; try (eexists; split; reflexivity); [| |exfalso; eapply Hv; reflexivity].
  - cbn [py_contains]. rewrite bind_lift_Ret.
    destruct (is_substring "speaker_id" s); cbn [negb py_setitem];
      [|eexists; split; reflexivity].
    rewrite bind_ret. cbn [py_contains]. rewrite bind_lift_Ret.
    destruct (is_substring "voice_file" s); cbn [negb py_setitem];
      eexists; split; reflexivity.
  - cbn [py_contains]. rewrite bind_lift_Ret.
    destruct (existsb _ l); cbn [negb py_setitem];
      [|eexists; split; reflexivity].
    rewrite bind_ret. cbn [py_contains]. rewrite bind_lift_Ret.
    destruct (existsb _ l); cbn [negb py_setitem];
      eexists; split; reflexivity.
Qed.

Lemma load_config_found w :
  fs_exists w CONFIG_FILE = true ->
  load_config w = try_except load_config_body load_config_except w.
Proof.
  intros H. unfold load_config, bind. cbn [os_path_exists ask out world evs].
  rewrite H. reflexivity.
Qed.

Lemma load_config_missing w :
  fs_exists w CONFIG_FILE = false ->
  load_config w =
  Res (Ret default_config) w
      [EvLog INFO (CONFIG_FILE +:+ " not found. Using default configuration.")].
Proof.
  intros H. unfold load_config, bind. cbn [os_path_exists ask out world evs].
  rewrite H. reflexivity.
Qed.

(** Both [except] clauses log one line and return the default. *)
Lemma load_config_except_Exception e :
  is_Exception e = true ->
  exists msg, load_config_except e = Some (log ERROR msg;; ret default_config).
Proof.
  intros He. unfold load_config_except. rewrite He.
  destruct (is_JSONDecodeError e); eauto.
Qed.

Lemma load_config_except_other e :
  is_Exception e = false -> load_config_except e = None.
Proof.
  intros He. unfold load_config_except. rewrite He.
  destruct e as [[] msg]; try reflexivity; discriminate He.
Qed.

Lemma load_config_error w e :
  fs_exists w CONFIG_FILE = true ->
  out (load_config_body w) = Raise e ->
  is_Exception e = true ->
  out (load_config w) = Ret default_config.
Proof.
  intros Hf Hb He. rewrite (load_config_found _ Hf). unfold try_except. rewrite Hb.
  destruct (load_config_except_Exception e He) as [msg ->]. reflexivity.
Qed.

Lemma load_config_contains w e :
  out (load_config w) = Raise e -> is_Exception e = false.
Proof.
  destruct (fs_exists w CONFIG_FILE) eqn:Hf.
  - rewrite (load_config_found _ Hf). unfold try_except.
    destruct (out (load_config_body w)) as [v|e'] eqn:Hb; [congruence|].
    destruct (is_Exception e') eqn:He'.
    + destruct (load_config_except_Exception e' He') as [msg ->]. discriminate.
    + rewrite (load_config_except_other e' He'). congruence.
  - rewrite (load_config_missing _ Hf). discriminate.
Qed.

(** C9.  [load_config] gives the default configuration, the object with
    [speaker_id] and [voice_file] both [None],
    (a) when the configuration file is missing,
    (b) when reading or parsing it raises an error (a [JSONDecodeError]
        or any other [Exception]),
    (c) when it parses to something that is not an object,
    (d) when any later line of the [with] block raises an error;
    (e) and in no case does [load_config] raise an [Exception]. *)
Theorem load_config_defaults_on_error w :
  let r := load_config w in
  default_config = PDict (<["speaker_id" := PNone]> (<["voice_file" := PNone]> ∅)) /\
  (fs_exists w CONFIG_FILE = false -> out r = Ret default_config) /\
  (forall e w', fs_exists w CONFIG_FILE = true ->
                json_load_file CONFIG_FILE w = (Raise e, w') ->
                is_Exception e = true -> out r = Ret default_config) /\
  (forall v w', fs_exists w CONFIG_FILE = true ->
                json_load_file CONFIG_FILE w = (Ret v, w') ->
                (forall d, v <> PDict d) -> out r = Ret default_config) /\
  (forall e, fs_exists w CONFIG_FILE = true ->
             out (load_config_body w) = Raise e ->
             is_Exception e = true -> out r = Ret default_config) /\
  (forall e, out r = Raise e -> is_Exception e = false).
Proof.
  cbv zeta. split; [reflexivity|]. split; [|split; [|split; [|split]]].
  - intros Hf. rewrite (load_config_missing _ Hf). reflexivity.
  - intros e w' Hf Hload He. apply (load_config_error w e Hf); [|exact He].
    unfold load_config_body. rewrite (bind_call_Raise _ _ _ _ _ _ Hload). reflexivity.
  - intros v w' Hf Hload Hv.
    destruct (load_config_body_not_object _ _ _ Hload Hv) as (e & Hb & He).
    exact (load_config_error w e Hf Hb He).
  - intros e. apply load_config_error.
  - intros e. apply load_config_contains.
Qed.

(** C8, as amended.  For every run of [load_config]:
    (a) when the file parses to an object whose [voice_file] is a
        non-empty path that does not exist when the file has been read,
        the configuration returned has [voice_file] [None];
    (b) a non-empty string [voice_file] of a returned configuration names
        a file that existed then;
    (c) an empty string [voice_file] is returned as it is. *)
Theorem load_config_voice_file_checked w :
  let r := load_config w in
  (forall d p w',
     fs_exists w CONFIG_FILE = true ->
     json_load_file CONFIG_FILE w = (Ret (PDict d), w') ->
     d !! "voice_file" = Some (PStr p) -> p <> "" -> fs_exists w' p = false ->
     exists d', out r = Ret (PDict d') /\ d' !! "voice_file" = Some PNone) /\
  (forall cfg, out r = Ret cfg ->
     exists d', cfg = PDict d' /\
       forall p, d' !! "voice_file" = Some (PStr p) -> p <> "" ->
                 fs_exists (world r) p = true) /\
  (forall d w',
     fs_exists w CONFIG_FILE = true ->
     json_load_file CONFIG_FILE w = (Ret (PDict d), w') ->
     d !! "voice_file" = Some (PStr "") ->
     exists d', out r = Ret (PDict d') /\ d' !! "voice_file" = Some (PStr "")).
Proof.
  cbv zeta. split; [|split].
  - intros d p w' Hf Hload Hvf Hp Hmiss.
    rewrite (load_config_found _ Hf). unfold try_except.
    rewrite (load_config_body_object _ _ _ Hload). rewrite Hvf.
    change (default PNone (Some (PStr p))) with (PStr p).
    rewrite (truthy_str _ Hp). cbn [os_path_exists ask out]. rewrite Hmiss. cbn [out].
    eexists. split; [reflexivity | apply lookup_insert_eq].
  - intros cfg Hcfg.
    destruct (fs_exists w CONFIG_FILE) eqn:Hf.
    2: { rewrite (load_config_missing _ Hf) in Hcfg. injection Hcfg as <-.
         eexists. split; [reflexivity|]. intros p Hp. discriminate Hp. }
    rewrite (load_config_found _ Hf) in Hcfg |- *.
    destruct (try_cases load_config_body load_config_except w)
      as [(a & Hb & Hr) | [(e & Hb & Hh & Hr) | (e & h & Hb & Hh & Hr)]];
      cbv zeta in Hr; rewrite Hr in Hcfg |- *; clear Hr.
    + (* the body returned *)
      rewrite Hb in Hcfg. injection Hcfg as ->.
      destruct (json_load_file CONFIG_FILE w) as [[v|e] w'] eqn:Hload.
      2: { unfold load_config_body in Hb.
           rewrite (bind_call_Raise _ _ _ _ _ _ Hload) in Hb. discriminate. }
      destruct v as [| | | | |l|d];
        try (destruct (load_config_body_not_object _ _ _ Hload) as (e & He & _);
             [intros d; discriminate | congruence]).
      rewrite (load_config_body_object _ _ _ Hload) in Hb |- *.
      destruct (truthy (default PNone (d !! "voice_file"))) eqn:Ht.
      * destruct (out (os_path_exists (default PNone (d !! "voice_file")) w'))
          as [[|]|e] eqn:Hex; cbn [out world] in Hb |- *; [| |discriminate].
        -- injection Hb as <-. eexists. split; [reflexivity|]. intros p Hp _.
           rewrite with_default_keys_voice_file in Hp. injection Hp as Hp.
           rewrite Hp in Hex. cbn in Hex. congruence.
        -- injection Hb as <-. eexists. split; [reflexivity|]. intros p Hp.
           rewrite lookup_insert_eq in Hp. discriminate.
      * cbn [out world] in Hb |- *. injection Hb as <-.
        eexists. split; [reflexivity|]. intros p Hp Hne.
        rewrite with_default_keys_voice_file in Hp. injection Hp as Hp.
        rewrite Hp in Ht. rewrite (truthy_str _ Hne) in Ht. discriminate.
    + congruence.
    + (* an [except] clause ran *)
      destruct (is_Exception e) eqn:He.
      * destruct (load_config_except_Exception e He) as [msg Hm].
        rewrite Hm in Hh. injection Hh as <-. cbn in Hcfg. injection Hcfg as <-.
        eexists. split; [reflexivity|]. intros p Hp. discriminate Hp.
      * rewrite (load_config_except_other e He) in Hh. discriminate.
  - intros d w' Hf Hload Hvf.
    rewrite (load_config_found _ Hf). unfold try_except.
    rewrite (load_config_body_object _ _ _ Hload). rewrite Hvf.
    change (default PNone (Some (PStr ""))) with (PStr "").
    change (truthy (PStr "")) with false. cbn [out].
    eexists. split; [reflexivity|]. rewrite with_default_keys_voice_file, Hvf. reflexivity.
Qed.

(** ** One pass through the conversation loop *)

(** [speak] saves at most once, and only to [output_file]. *)
Lemma speak_save_once self text output_file speaker_id voice_file w :
  let r := speak self text output_file speaker_id voice_file w in
  count_ev is_save (evs r) <= 1 /\
  (forall a p, In (EvSave a p) (evs r) -> p = output_file).
Proof.
  cbv zeta.
  assert (Hno : forall p0 (l : list event),
            count_ev is_save l = 0 ->
            count_ev is_save l <= 1 /\ (forall a p, In (EvSave a p) l -> p = p0)).
  { intros p0 l H. split; [lia|]. intros a p Hin. exfalso. revert Hin.
    apply (count_ev_zero_not_In is_save); [exact H | reflexivity]. }
  unfold speak.
  destruct (interface self) as [i|]; [|apply Hno; reflexivity].
  destruct (sampler_config self) as [sc|]; [|apply Hno; reflexivity].
  destruct (negb (truthy (PStr text))); [apply Hno; reflexivity|].
  destruct (negb (truthy (PStr output_file))); [apply Hno; reflexivity|].
  pose proof (ensure_output_dir_quiet is_save ltac:(reflexivity) output_file
                ltac:(reflexivity) w) as Hdirq.
  destruct (out (ensure_output_dir output_file w)) as [[|]|e] eqn:Hdir.
  - rewrite (bind_Ret _ _ _ _ Hdir). cbn [negb prepend evs].
    set (w1 := world (ensure_output_dir output_file w)).
    destruct (try_speak_failed_evs
                (speak_body i sc text output_file speaker_id voice_file) w1)
      as (tail & -> & Hall).
    pose proof (count_ev_logs is_save tail ltac:(reflexivity) Hall) as Htail.
    pose proof (resolve_speaker_quiet is_save ltac:(reflexivity) i speaker_id voice_file
                  ltac:(reflexivity) ltac:(reflexivity) w1) as Hresq.
    unfold speak_body, bind.
    destruct (out (resolve_speaker i speaker_id voice_file w1)) as [resolved|e];
      cbn [prepend evs].
    + destruct (generate_step_save_once i sc text output_file resolved
                  (world (resolve_speaker i speaker_id voice_file w1))) as [Hle Hpath].
      split.
      * rewrite !count_ev_app, Hdirq, Hresq, Htail. lia.
      * intros a p Hin. rewrite !in_app_iff in Hin.
        destruct Hin as [Hin | [[Hin | Hin] | Hin]].
        -- exfalso. revert Hin. apply (count_ev_zero_not_In is_save); [exact Hdirq | reflexivity].
        -- exfalso. revert Hin. apply (count_ev_zero_not_In is_save); [exact Hresq | reflexivity].
        -- exact (Hpath _ _ Hin).
        -- exfalso. revert Hin. apply (count_ev_zero_not_In is_save); [exact Htail | reflexivity].
    + apply Hno. rewrite !count_ev_app, Hdirq, Hresq, Htail. reflexivity.
  - rewrite (bind_Ret _ _ _ _ Hdir). cbn [negb prepend evs ret].
    apply Hno. rewrite count_ev_app, Hdirq. reflexivity.
  - rewrite (bind_Raise _ _ _ _ Hdir). cbn [evs]. apply Hno, Hdirq.
Qed.

Lemma play_audio_missing p w :
  fs_exists w p = false ->
  play_audio p w =
  Res (Ret tt) w
      [EvLog ERROR ("Audio file not found for playback: " +:+ p);
       EvPrint ("Error: Audio file '" +:+ p +:+ "' not found.")].
Proof.
  intros H. unfold play_audio, bind. cbn [os_path_exists ask out world evs].
  rewrite H. reflexivity.
Qed.

Lemma play_audio_found p w :
  fs_exists w p = true ->
  play_audio p w =
  match playsound p w with
  | (Ret _, w') =>
      Res (Ret tt) w'
          [EvLog INFO ("Playing audio file: " +:+ p); EvPlaysound p;
           EvLog INFO "Playback finished."]
  | (Raise e, w') =>
      if is_Exception e then
        Res (Ret tt) w'
            [EvLog INFO ("Playing audio file: " +:+ p); EvPlaysound p;
             EvLog ERROR ("Error playing audio file " +:+ p +:+ ": " +:+ exn_msg e);
             EvPrint ("Error: Could not play audio file '" +:+ p +:+ "'. Check logs.")]
      else
        Res (Raise e) w' [EvLog INFO ("Playing audio file: " +:+ p); EvPlaysound p]
  end.
Proof.
  intros H. unfold play_audio, bind at 1. cbn [os_path_exists ask out world evs].
  rewrite H. unfold try_except, except_Exception, bind, call, log, print, emit.
  cbn. destruct (playsound p w) as [[[]|e] w']; cbn; [reflexivity|].
  destruct (is_Exception e); reflexivity.
Qed.

(** [play_audio] calls [playsound] once when the file is there and not at
    all when it is not; it saves nothing. *)
Lemma play_audio_events p w :
  let r := play_audio p w in
  count_ev is_playsound (evs r) = (if fs_exists w p then 1 else 0) /\
  (forall q, In (EvPlaysound q) (evs r) -> q = p) /\
  count_ev is_save (evs r) = 0 /\
  (forall e, out r = Raise e -> is_Exception e = false).
Proof.
  cbv zeta. destruct (fs_exists w p) eqn:Hp.
  - rewrite (play_audio_found _ _ Hp).
    destruct (playsound p w) as [[[]|e] w'];
      [|destruct (is_Exception e) eqn:He]; cbn;
      (repeat split; [intros q H; intuition congruence | congruence]).
  - rewrite (play_audio_missing _ _ Hp). cbn.
    repeat split; [intros q H; intuition congruence | congruence].
Qed.

Lemma bind_log {B} l m (f : unit -> M B) :
  bind (log l m) f = fun w => prepend [EvLog l m] (f tt w).
Proof. reflexivity. Qed.

Lemma bind_print {B} m (f : unit -> M B) :
  bind (print m) f = fun w => prepend [EvPrint m] (f tt w).
Proof. reflexivity. Qed.

Lemma count_ev_notices p tail :
  (forall l m, p (EvLog l m) = false) -> (forall m, p (EvPrint m) = false) ->
  Forall (fun ev => is_log ev || is_print ev = true) tail -> count_ev p tail = 0.
Proof.
  intros Hl Hp Hall. induction Hall as [|ev tail Hev _ IH]; [reflexivity|].
  destruct ev; try discriminate; cbn; rewrite ?Hl, ?Hp; exact IH.
Qed.

(** What an [except] clause of the loop does, when one applies. *)
Lemma loop_except_cases e :
  (is_KeyboardInterrupt e = true /\
   loop_except e = Some (print (nl +:+ "Exiting...");; ret Break)) \/
  (is_KeyboardInterrupt e = false /\ is_Exception e = true /\
   loop_except e =
   Some (log ERROR ("An unexpected error occurred in the main loop: " +:+ exn_msg e);;
         print "An unexpected error occurred. Check logs.";;
         ret Continue)) \/
  (is_KeyboardInterrupt e = false /\ is_Exception e = false /\ loop_except e = None).
Proof.
  unfold loop_except.
  destruct (is_KeyboardInterrupt e); [left; auto|].
  destruct (is_Exception e); [right; left | right; right]; auto.
Qed.

Section Pass.

Variables (tts_handler : TTSHandler) (d : gmap string pyval).
Variables (w : World) (line : string) (w1 : World) (t : datetime) (w2 : World).

Hypothesis typed : input PROMPT w = (Ret line, w1).
Hypothesis line_accepted : accepted line = true.
Hypothesis clock : datetime_now w1 = (t, w2).

Let path : string := output_path_at t.
Let rs : result bool :=
  speak tts_handler line path (default PNone (d !! "speaker_id"))
        (default PNone (d !! "voice_file")) w2.

(** What follows the call of [speak], lines 120-124. *)
Let mid : result unit :=
  match out rs with
  | Ret true => play_audio path (world rs)
  | Ret false => Res (Ret tt) (world rs) [EvPrint SORRY]
  | Raise e => Res (Raise e) (world rs) []
  end.

Let opening : list event :=
  [EvInput PROMPT; EvNow; EvLog INFO ("Synthesizing text: '" +:+ line +:+ "'")].

Lemma loop_try_accepted :
  loop_try tts_handler (PDict d) w =
  Res (match out mid with Ret _ => Ret Continue | Raise e => Raise e end)
      (world mid) (opening ++ evs rs ++ evs mid).
Proof.
  unfold loop_try. rewrite (bind_call_Ret _ _ _ _ _ _ typed).
  unfold accepted in line_accepted. apply andb_prop in line_accepted.
  destruct line_accepted as [Hexit Hblank].
  apply negb_true_iff in Hexit. rewrite Hexit, Hblank. cbn [negb].
  unfold synthesize_and_play.
  rewrite (bind_call_Ret _ _ _ w1 t w2) by (rewrite clock; reflexivity).
  rewrite bind_log. cbn [py_get]. rewrite !bind_lift_Ret.
  fold path. fold rs. unfold bind at 1. fold rs. subst mid opening. cbv zeta.
  destruct (out rs) as [[|]|e] eqn:Hrs.
  - unfold bind. destruct (out (play_audio path (world rs)));
      unfold prepend, ret; cbn [out world evs app]; rewrite ?app_nil_r; reflexivity.
  - rewrite bind_print. unfold prepend, ret; cbn [out world evs app]. reflexivity.
  - unfold prepend; cbn [out world evs app]. rewrite app_nil_r. reflexivity.
Qed.

Lemma mid_contains e : out mid = Raise e -> is_Exception e = false.
Proof.
  subst mid. cbv zeta. destruct (out rs) as [[|]|e'] eqn:Hrs; cbn [out].
  - apply play_audio_events.
  - discriminate.
  - intros [= <-]. exact (speak_contains _ _ _ _ _ _ _ Hrs).
Qed.

Lemma mid_events :
  count_ev is_save (evs mid) = 0 /\
  count_ev is_playsound (evs mid) =
    match out rs with
    | Ret true => if fs_exists (world rs) path then 1 else 0
    | _ => 0
    end /\
  (forall q, In (EvPlaysound q) (evs mid) -> q = path).
Proof.
  subst mid. cbv zeta. destruct (out rs) as [[|]|e'] eqn:Hrs; cbn [evs].
  - destruct (play_audio_events path (world rs)) as (Hp & Honly & Hs & _). auto.
  - cbn. repeat split. intros q H. intuition discriminate.
  - cbn. repeat split. tauto.
Qed.

(** The events of a pass on an accepted line, and how it ends. *)
Lemma loop_body_accepted :
  let r := loop_body tts_handler (PDict d) w in
  (exists tail, evs r = (opening ++ evs rs ++ evs mid ++ tail)%list /\
                Forall (fun ev => is_log ev || is_print ev = true) tail) /\
  out r = match out mid with
          | Ret _ => Ret Continue
          | Raise e => if is_KeyboardInterrupt e then Ret Break else Raise e
          end.
Proof.
  cbv zeta. unfold loop_body, try_except. rewrite loop_try_accepted. cbn [out world evs].
  destruct (out mid) as [u|e] eqn:Hmid.
  - split; [|reflexivity]. exists []. rewrite !app_nil_r. auto.
  - pose proof (mid_contains e Hmid) as He.
    destruct (loop_except_cases e) as [(Hk & ->) | [(Hk & He' & _) | (Hk & _ & ->)]];
      rewrite Hk; [| congruence |].
    + split; [|reflexivity]. eexists. cbn [prepend evs].
      rewrite <- !app_assoc. split; [reflexivity|]. repeat constructor.
    + split; [|reflexivity]. exists []. rewrite !app_nil_r. auto.
Qed.

(** C7, as amended.  On an accepted line the pass reads the clock and
    makes one call of [speak], with the output path named after the clock
    value: its events are the prompt, the clock, a log line, the events of
    that call, and what follows it.  The pass
    (a) saves at most one file and plays at most once, both at that path;
    (b) when [speak] returns [True]: exactly one file was saved; playback
        is attempted once if the file is found and not at all otherwise;
        a missing file or an error of [playsound] prints a message and the
        loop goes on;
    (c) when [speak] returns [False]: no playback is attempted, the
        apology is printed and the loop goes on;
    (d) the pass lets no [Exception] and no [KeyboardInterrupt] through. *)
Theorem loop_pass_on_accepted_line :
  let r := loop_body tts_handler (PDict d) w in
  path = os_path_join CACHE_DIR (strftime_stamp t +:+ ".wav") /\
  (exists rest, evs r = (opening ++ evs rs ++ rest)%list) /\
  (count_ev is_save (evs r) <= 1 /\
   forall a p, In (EvSave a p) (evs r) -> p = path) /\
  (count_ev is_playsound (evs r) <= 1 /\
   forall p, In (EvPlaysound p) (evs r) -> p = path) /\
  (out rs = Ret true ->
     count_ev is_save (evs r) = 1 /\
     count_ev is_playsound (evs r) = (if fs_exists (world rs) path then 1 else 0) /\
     (fs_exists (world rs) path = false ->
        In (EvPrint ("Error: Audio file '" +:+ path +:+ "' not found.")) (evs r) /\
        out r = Ret Continue) /\
     (forall e w3,
        fs_exists (world rs) path = true ->
        playsound path (world rs) = (Raise e, w3) -> is_Exception e = true ->
        In (EvPrint ("Error: Could not play audio file '" +:+ path +:+ "'. Check logs."))
           (evs r) /\
        out r = Ret Continue) /\
     (forall u w3,
        fs_exists (world rs) path = true ->
        playsound path (world rs) = (Ret u, w3) -> out r = Ret Continue)) /\
  (out rs = Ret false ->
     count_ev is_playsound (evs r) = 0 /\
     In (EvPrint SORRY) (evs r) /\
     out r = Ret Continue) /\
  (forall e, out r = Raise e ->
     is_Exception e = false /\ is_KeyboardInterrupt e = false).
Proof.
  cbv zeta.
  destruct loop_body_accepted as [(tail & Hevs & Htail) Hout].
  destruct mid_events as (Hmid_save & Hmid_play & Hmid_only).
  destruct (speak_save_once tts_handler line path (default PNone (d !! "speaker_id"))
              (default PNone (d !! "voice_file")) w2) as [Hsave_le Hsave_path].
  fold rs in Hsave_le, Hsave_path.
  assert (Hspeak_play : count_ev is_playsound (evs rs) = 0)
    by (apply (speak_quiet is_playsound); reflexivity).
  pose proof (count_ev_notices is_save tail ltac:(reflexivity) ltac:(reflexivity) Htail)
    as Htail_save.
  pose proof (count_ev_notices is_playsound tail ltac:(reflexivity) ltac:(reflexivity) Htail)
    as Htail_play.
  assert (Hcount_save : count_ev is_save (evs (loop_body tts_handler (PDict d) w))
                        = count_ev is_save (evs rs)).
  { rewrite Hevs, !count_ev_app, Hmid_save, Htail_save. cbn. lia. }
  assert (Hcount_play : count_ev is_playsound (evs (loop_body tts_handler (PDict d) w))
                        = count_ev is_playsound (evs mid)).
  { rewrite Hevs, !count_ev_app, Hspeak_play, Htail_play. cbn. lia. }
  assert (Hin_mid : forall ev, In ev (evs mid) ->
                               In ev (evs (loop_body tts_handler (PDict d) w))).
  { intros ev H. rewrite Hevs, !in_app_iff. tauto. }
  split; [reflexivity|]. split; [exists (evs mid ++ tail)%list; exact Hevs|].
  split; [|split; [|split; [|split]]].
  - split; [lia|]. intros a p Hin. rewrite Hevs, !in_app_iff in Hin.
    destruct Hin as [Hin | [Hin | [Hin | Hin]]].
    + cbn in Hin. intuition discriminate.
    + exact (Hsave_path _ _ Hin).
    + exfalso. revert Hin. apply (count_ev_zero_not_In is_save); [exact Hmid_save | reflexivity].
    + exfalso. revert Hin. apply (count_ev_zero_not_In is_save); [exact Htail_save | reflexivity].
  - split.
    + rewrite Hcount_play, Hmid_play.
      destruct (out rs) as [[|]|]; [destruct (fs_exists (world rs) path)| |]; lia.
    + intros p Hin. rewrite Hevs, !in_app_iff in Hin.
      destruct Hin as [Hin | [Hin | [Hin | Hin]]].
      * cbn in Hin. intuition discriminate.
      * exfalso. revert Hin.
        apply (count_ev_zero_not_In is_playsound); [exact Hspeak_play | reflexivity].
      * exact (Hmid_only _ Hin).
      * exfalso. revert Hin.
        apply (count_ev_zero_not_In is_playsound); [exact Htail_play | reflexivity].
  - intros Htrue.
    destruct (speak_true_inv _ _ _ _ _ _ Htrue)
      as (i & sc & sp & src & w3 & l & c & a & w4 & w5 & w6 & Hinv).
    assert (Hone : count_ev is_save (evs rs) = 1) by (subst rs; tauto).
    assert (Hmid : mid = play_audio path (world rs)) by (subst mid; rewrite Htrue; reflexivity).
    rewrite Hcount_save, Hcount_play, Hmid_play, Htrue.
    split; [exact Hone|]. split; [reflexivity|]. split; [|split].
    + intros Hmiss. rewrite Hout, Hmid, (play_audio_missing _ _ Hmiss). cbn [out].
      split; [|reflexivity]. apply Hin_mid.
      rewrite Hmid, (play_audio_missing _ _ Hmiss). cbn. tauto.
    + intros e w7 Hfound Hplay He. rewrite Hout, Hmid, (play_audio_found _ _ Hfound).
      rewrite Hplay, He. cbn [out]. split; [|reflexivity]. apply Hin_mid.
      rewrite Hmid, (play_audio_found _ _ Hfound), Hplay, He. cbn. tauto.
    + intros u w7 Hfound Hplay. rewrite Hout, Hmid, (play_audio_found _ _ Hfound).
      rewrite Hplay. reflexivity.
  - intros Hfalse.
    assert (Hmid : mid = Res (Ret tt) (world rs) [EvPrint SORRY])
      by (subst mid; rewrite Hfalse; reflexivity).
    rewrite Hcount_play, Hmid_play, Hfalse. split; [reflexivity|].
    split; [apply Hin_mid; rewrite Hmid; cbn; tauto|].
    rewrite Hout, Hmid. reflexivity.
  - intros e He. rewrite Hout in He.
    destruct (out mid) as [u|e'] eqn:Hmid; [discriminate|].
    destruct (is_KeyboardInterrupt e') eqn:Hk; [discriminate|].
    injection He as <-. split; [exact (mid_contains _ Hmid) | exact Hk].
Qed.

End Pass.

(* ===================================================================== *)
(** * The rest of the two files                                           *)
(* ===================================================================== *)

(** ** [TTSHandler.__init__] *)

(** The three ways [__init__] can go, by what the engine answers. *)
Lemma TTSHandler_init_cases m b q w :
  let r := TTSHandler_init m b q w in
  (exists e w1, auto_config m b q w = (Raise e, w1) /\
     count_ev is_initialization (evs r) = 1 /\ count_ev is_auto_config (evs r) = 1 /\
     out r = if is_Exception e
             then Ret {| interface := None; sampler_config := None |}
             else Raise e) \/
  (exists c w1 e w2, auto_config m b q w = (Ret c, w1) /\
     new_Interface c w1 = (Raise e, w2) /\
     count_ev is_initialization (evs r) = 2 /\ count_ev is_auto_config (evs r) = 1 /\
     count_ev is_interface_construction (evs r) = 1 /\
     out r = if is_Exception e
             then Ret {| interface := None; sampler_config := None |}
             else Raise e) \/
  (exists c w1 i w2 o w3, auto_config m b q w = (Ret c, w1) /\
     new_Interface c w1 = (Ret i, w2) /\
     new_SamplerConfig recommended_sampler w2 = (o, w3) /\
     count_ev is_initialization (evs r) = 3 /\ count_ev is_auto_config (evs r) = 1 /\
     count_ev is_interface_construction (evs r) = 1 /\
     count_ev is_sampler_construction (evs r) = 1 /\
     out r = match o with
             | Ret sc => Ret {| interface := Some i; sampler_config := Some sc |}
             | Raise e => Raise e
             end).
Proof.
  cbv zeta. unfold TTSHandler_init, bind, try_except, except_Exception, call, log, emit.
  cbn.
  destruct (auto_config m b q w) as [[c|e] w1] eqn:Hc; cbn.
  - destruct (new_Interface c w1) as [[i|e] w2] eqn:Hi; cbn.
    + right; right.
      destruct (new_SamplerConfig recommended_sampler w2) as [[sc|e] w3] eqn:Hs; cbn;
        do 6 eexists; repeat split; first [eassumption | reflexivity].
    + right; left. destruct (is_Exception e) eqn:He; cbn;
        do 4 eexists; rewrite ?He; repeat split; first [eassumption | reflexivity].
  - left. destruct (is_Exception e) eqn:He; cbn;
      do 2 eexists; rewrite ?He; repeat split; first [eassumption | reflexivity].
Qed.

Lemma count_initialization_split l :
  count_ev is_initialization l =
  count_ev is_auto_config l + count_ev is_interface_construction l
  + count_ev is_sampler_construction l.
Proof.
  induction l as [|ev l IH]; [reflexivity|].
  cbn [count_ev]. rewrite IH. destruct ev; cbn; lia.
Qed.

(** X1.  A handler that [__init__] returns has an interface exactly when
    it has a sampler configuration.  An [Exception] raised while the model
    configuration or the interface is built never leaves [__init__]; the
    only [Exception] that does is one raised by [SamplerConfig], after
    both were built. *)
Theorem TTSHandler_init_invariant m b q w :
  let r := TTSHandler_init m b q w in
  (forall h, out r = Ret h -> (interface h = None <-> sampler_config h = None)) /\
  (forall e, out r = Raise e -> is_Exception e = true ->
     exists c w1 i w2 w3,
       auto_config m b q w = (Ret c, w1) /\
       new_Interface c w1 = (Ret i, w2) /\
       new_SamplerConfig recommended_sampler w2 = (Raise e, w3)).
Proof.
  cbv zeta.
  destruct (TTSHandler_init_cases m b q w)
    as [(e & w1 & Hc & _ & _ & Hout)
       | [(c & w1 & e & w2 & Hc & Hi & _ & _ & _ & Hout)
         | (c & w1 & i & w2 & o & w3 & Hc & Hi & Hs & _ & _ & _ & _ & Hout)]];
    cbv zeta in Hout; rewrite Hout.
  - destruct (is_Exception e) eqn:He; split.
    + intros h [= <-]. cbn. tauto.
    + discriminate.
    + discriminate.
    + intros e' [= <-]. congruence.
  - destruct (is_Exception e) eqn:He; split.
    + intros h [= <-]. cbn. tauto.
    + discriminate.
    + discriminate.
    + intros e' [= <-]. congruence.
  - destruct o as [sc|e]; split.
    + intros h [= <-]. cbn. split; discriminate.
    + discriminate.
    + discriminate.
    + intros e' [= <-] _. exists c, w1, i, w2, w3. auto.
Qed.

(** X2.  [__init__] asks for the model configuration once; it builds the
    interface only when that succeeded, and the sampler configuration
    only when the interface was built, each at most once. *)
Theorem TTSHandler_init_construction_order m b q w :
  let r := TTSHandler_init m b q w in
  count_ev is_auto_config (evs r) = 1 /\
  count_ev is_interface_construction (evs r) =
    match fst (auto_config m b q w) with Ret _ => 1 | Raise _ => 0 end /\
  count_ev is_sampler_construction (evs r) =
    match fst (auto_config m b q w) with
    | Ret c => match fst (new_Interface c (snd (auto_config m b q w))) with
               | Ret _ => 1
               | Raise _ => 0
               end
    | Raise _ => 0
    end.
Proof.
  cbv zeta.
  pose proof (count_initialization_split (evs (TTSHandler_init m b q w))) as Hsplit.
  destruct (TTSHandler_init_cases m b q w)
    as [(e & w1 & Hc & Hn & Ha & _)
       | [(c & w1 & e & w2 & Hc & Hi & Hn & Ha & Hf & _)
         | (c & w1 & i & w2 & o & w3 & Hc & Hi & Hs & Hn & Ha & Hf & Hsc & _)]];
    rewrite Hc; cbn [fst snd]; rewrite ?Hi; cbn [fst snd]; repeat split; lia.
Qed.

(** ** More of [speak] *)

(** Lines 110-117, case by case. *)
Lemma ensure_output_dir_cases output_file w :
  let dir := os_path_dirname output_file in
  ensure_output_dir output_file w =
  if negb (truthy (PStr dir)) || fs_exists w dir then Res (Ret true) w []
  else match os_makedirs dir w with
       | (Ret _, w') =>
           Res (Ret true) w'
               [EvMakedirs dir; EvLog INFO ("Created output directory for TTS: " +:+ dir)]
       | (Raise e, w') =>
           if is_Exception e
           then Res (Ret false) w'
                    [EvMakedirs dir;
                     EvLog ERROR ("Error creating directory for " +:+ output_file
                                  +:+ ": " +:+ exn_msg e)]
           else Res (Raise e) w' [EvMakedirs dir]
       end.
Proof.
  cbv zeta. unfold ensure_output_dir.
  destruct (truthy (PStr (os_path_dirname output_file))) eqn:Ht; cbn [negb orb];
    [|reflexivity].
  unfold try_except, except_Exception, bind, call, log, emit. cbn.
  destruct (fs_exists w (os_path_dirname output_file)); cbn; [reflexivity|].
  destruct (os_makedirs (os_path_dirname output_file) w) as [[u|e] w']; cbn;
    [reflexivity|]. destruct (is_Exception e); reflexivity.
Qed.

Lemma count_ev_zero_Forall (p : event -> bool) l :
  count_ev p l = 0 -> forall ev, In ev l -> p ev = false.
Proof.
  intros H ev Hin. destruct (p ev) eqn:Hp; [|reflexivity].
  exfalso. exact (count_ev_zero_not_In p l ev H Hp Hin).
Qed.

(** X3.  Whatever its arguments and whatever the world answers, [speak]
    only logs, makes the output directory and calls the engine's speaker
    and generation operations: it prints nothing, reads no input and no
    configuration, plays nothing and constructs nothing of the engine. *)
Theorem speak_effects_only self text output_file speaker_id voice_file w :
  let r := speak self text output_file speaker_id voice_file w in
  (forall ev, In ev (evs r) -> is_speak_effect ev = true) /\
  count_ev is_print (evs r) = 0 /\ count_ev is_input (evs r) = 0 /\
  count_ev is_playsound (evs r) = 0 /\ count_ev is_json_load (evs r) = 0 /\
  count_ev is_initialization (evs r) = 0.
Proof.
  cbv zeta. split; [|repeat split; apply (speak_quiet _); reflexivity].
  intros ev Hin.
  assert (Hq : quiet (fun ev => negb (is_speak_effect ev))
                     (speak self text output_file speaker_id voice_file))
    by (apply speak_quiet; reflexivity).
  apply (count_ev_zero_Forall _ _ (Hq w)) in Hin.
  apply negb_false_iff in Hin. exact Hin.
Qed.

Section Reached.

Variables (self : TTSHandler) (i : Interface) (sc : SamplerConfig).
Variables (text output_file : string) (w : World).

Hypothesis has_interface : interface self = Some i.
Hypothesis has_sampler : sampler_config self = Some sc.
Hypothesis text_given : text <> "".
Hypothesis output_given : output_file <> "".

Let dir : string := os_path_dirname output_file.

Lemma speak_ready_unfold speaker_id voice_file :
  speak self text output_file speaker_id voice_file w =
  bind (ensure_output_dir output_file)
       (fun dir_ok =>
          if negb dir_ok then ret false
          else try_except (speak_body i sc text output_file speaker_id voice_file)
                          (except_Exception speak_failed)) w.
Proof.
  unfold speak. rewrite has_interface, has_sampler.
  rewrite (truthy_str _ text_given), (truthy_str _ output_given). reflexivity.
Qed.

Lemma speak_count_makedirs speaker_id voice_file :
  count_ev is_makedirs (evs (speak self text output_file speaker_id voice_file w)) =
  count_ev is_makedirs (evs (ensure_output_dir output_file w)).
Proof.
  rewrite speak_ready_unfold. apply count_bind_quiet. intros dir_ok.
  apply quiet_if; [apply quiet_ret|].
  apply quiet_try.
  - unfold speak_body. apply quiet_bind.
    + apply resolve_speaker_quiet; reflexivity.
    + intros r. apply generate_step_quiet; reflexivity.
  - apply quiet_except_Exception. intros e. apply speak_failed_quiet. reflexivity.
Qed.

(** X4.  With a ready handler and non-empty text and output path, [speak]
    makes the directory of the output file only when that directory has
    a name and does not exist, and then once; when [os.makedirs] raises
    an error [speak] returns [False] without a single call to the
    engine. *)
Theorem speak_output_directory speaker_id voice_file :
  let r := speak self text output_file speaker_id voice_file w in
  (dir = "" \/ fs_exists w dir = true -> count_ev is_makedirs (evs r) = 0) /\
  (dir <> "" -> fs_exists w dir = false ->
     count_ev is_makedirs (evs r) = 1 /\ In (EvMakedirs dir) (evs r)) /\
  (forall e w',
     dir <> "" -> fs_exists w dir = false ->
     os_makedirs dir w = (Raise e, w') -> is_Exception e = true ->
     out r = Ret false /\ world r = w' /\ count_ev is_engine_call (evs r) = 0).
Proof.
  cbv zeta. pose proof (ensure_output_dir_cases output_file w) as Hdir.
  cbv zeta in Hdir. fold dir in Hdir. split; [|split].
  - intros Hskip. rewrite speak_count_makedirs, Hdir.
    destruct Hskip as [-> | ->]; [reflexivity|]. rewrite orb_true_r. reflexivity.
  - intros Hname Hmiss. rewrite speak_count_makedirs.
    assert (Hin : In (EvMakedirs dir) (evs (ensure_output_dir output_file w)) /\
                  count_ev is_makedirs (evs (ensure_output_dir output_file w)) = 1).
    { rewrite Hdir, (truthy_str _ Hname), Hmiss. cbn [negb orb].
      destruct (os_makedirs dir w) as [[u|e] w']; [|destruct (is_Exception e)];
        cbn; tauto. }
    split; [tauto|]. rewrite speak_ready_unfold. apply bind_In. tauto.
  - intros e w' Hname Hmiss Hmk He. rewrite speak_ready_unfold.
    rewrite (truthy_str _ Hname), Hmiss, Hmk, He in Hdir. cbn [negb orb] in Hdir.
    unfold bind. rewrite Hdir. cbn. repeat split.
Qed.

End Reached.

Section Resolved.

Variables (self : TTSHandler) (i : Interface) (sc : SamplerConfig).
Variables (text output_file : string) (speaker_id : pyval) (w : World).

Hypothesis has_interface : interface self = Some i.
Hypothesis has_sampler : sampler_config self = Some sc.
Hypothesis text_given : text <> "".
Hypothesis output_given : output_file <> "".
Hypothesis dir_ok : out (ensure_output_dir output_file w) = Ret true.

Let w1 : World := world (ensure_output_dir output_file w).

(** X5.  When the cloning step leaves no speaker, a [speaker_id] that is
    true in Python's sense is the one identifier asked for; any other
    ([None], the empty string, [0], an empty list) makes the class
    default the one identifier asked for. *)
Theorem speak_identifier_choice voice_file src l w2 :
  clone_step i voice_file w1 = Res (Ret (None, src)) w2 l ->
  let r := speak self text output_file speaker_id voice_file w in
  count_ev is_load_default_speaker (evs r) = 1 /\
  (truthy speaker_id = true ->
     In (EvLoadDefaultSpeaker speaker_id) (evs r) /\
     forall id, In (EvLoadDefaultSpeaker id) (evs r) -> id = speaker_id) /\
  (truthy speaker_id = false ->
     In (EvLoadDefaultSpeaker (PStr DEFAULT_VOICE)) (evs r) /\
     forall id, In (EvLoadDefaultSpeaker id) (evs r) -> id = PStr DEFAULT_VOICE).
Proof.
  intros Hclone. cbv zeta.
  destruct (speak_falls_through self i sc text output_file speaker_id w
              has_interface has_sampler text_given output_given dir_ok
              voice_file src l w2 Hclone) as (Hone & Hin & Honly & _).
  split; [exact Hone|].
  unfold determined_id in Hin, Honly.
  split; intros Ht; rewrite Ht in Hin, Honly; split; assumption.
Qed.

(** X6.  The engine returning [None] instead of raising is a failure
    too: after [create_speaker] returned [None] for an existing file the
    identifier step runs, once; and when [load_default_speaker] returns
    [None], [speak] returns [False] and generates nothing. *)
Theorem speak_engine_returns_None :
  (forall p w2,
     fs_exists w1 p = true -> create_speaker i (PStr p) w1 = (Ret None, w2) ->
     let r := speak self text output_file speaker_id (PStr p) w in
     count_ev is_create_speaker (evs r) = 1 /\
     count_ev is_load_default_speaker (evs r) = 1 /\
     In (EvLoadDefaultSpeaker (determined_id speaker_id)) (evs r)) /\
  (forall voice_file src l w2 w3,
     clone_step i voice_file w1 = Res (Ret (None, src)) w2 l ->
     load_default_speaker i (determined_id speaker_id) w2 = (Ret None, w3) ->
     let r := speak self text output_file speaker_id voice_file w in
     out r = Ret false /\ count_ev is_generation (evs r) = 0).
Proof.
  split.
  - intros p w2 Hp Hc. cbv zeta.
    pose proof (clone_step_returned _ _ _ _ _ Hp Hc) as Hclone.
    destruct (speak_falls_through self i sc text output_file speaker_id w
                has_interface has_sampler text_given output_given dir_ok
                _ _ _ _ Hclone) as (Hone & Hin & _ & Hcreate).
    repeat split; assumption.
  - intros voice_file src l w2 w3 Hclone Hload. cbv zeta.
    destruct (id_step_spec i speaker_id w2) as (_ & _ & Hout).
    rewrite Hload in Hout. cbn [fst] in Hout. destruct Hout as [src' Hout].
    apply (speak_unresolved self i sc text output_file speaker_id w
             has_interface has_sampler text_given output_given dir_ok voice_file src').
    rewrite (resolve_speaker_falls_through i output_file speaker_id w _ _ _ _ Hclone).
    exact Hout.
Qed.

(** What [generate_step] does with a speaker, by what the engine answers. *)
Lemma generate_step_cases speaker src w2 :
  generate_step i sc text output_file (Some speaker, src) w2 =
  let note := EvLog INFO ("Generating speech using speaker source: [" +:+ src
                          +:+ "] for text: '" +:+ slice_to 50 text +:+ "...'") in
  match new_GenerationConfig text CHUNKED speaker sc w2 with
  | (Raise e, w3) => Res (Raise e) w3 [EvGenerationConfig text speaker sc]
  | (Ret c, w3) =>
      match generate i c w3 with
      | (Raise e, w4) =>
          Res (Raise e) w4 [EvGenerationConfig text speaker sc; note; EvGenerate c]
      | (Ret a, w4) =>
          match audio_save a output_file w4 with
          | (Raise e, w5) =>
              Res (Raise e) w5
                  [EvGenerationConfig text speaker sc; note; EvGenerate c;
                   EvSave a output_file]
          | (Ret _, w5) =>
              Res (Ret true) w5
                  [EvGenerationConfig text speaker sc; note; EvGenerate c;
                   EvSave a output_file;
                   EvLog INFO ("Speech generated and saved to: " +:+ output_file)]
          end
      end
  end.
Proof.
  unfold generate_step, bind, call, log, emit. exec; reflexivity.
Qed.

(** X7.  Once a speaker is resolved, an error of the engine in any of the
    three generation calls makes [speak] return [False]: nothing is
    generated or saved after the failing call, and a failing save has
    been attempted exactly once. *)
Theorem speak_generation_error voice_file speaker src w2 l :
  resolve_speaker i speaker_id voice_file w1 = Res (Ret (Some speaker, src)) w2 l ->
  let r := speak self text output_file speaker_id voice_file w in
  (forall e w3,
     new_GenerationConfig text CHUNKED speaker sc w2 = (Raise e, w3) ->
     is_Exception e = true ->
     out r = Ret false /\ count_ev is_generation (evs r) = 1 /\
     count_ev is_save (evs r) = 0) /\
  (forall c w3 e w4,
     new_GenerationConfig text CHUNKED speaker sc w2 = (Ret c, w3) ->
     generate i c w3 = (Raise e, w4) -> is_Exception e = true ->
     out r = Ret false /\ count_ev is_generation (evs r) = 2 /\
     count_ev is_save (evs r) = 0) /\
  (forall c w3 a w4 e w5,
     new_GenerationConfig text CHUNKED speaker sc w2 = (Ret c, w3) ->
     generate i c w3 = (Ret a, w4) ->
     audio_save a output_file w4 = (Raise e, w5) -> is_Exception e = true ->
     out r = Ret false /\ count_ev is_save (evs r) = 1 /\
     In (EvSave a output_file) (evs r)).
Proof.
  intros Hres. cbv zeta. unfold w1 in Hres.
  set (w0 := world (ensure_output_dir output_file w)) in *.
  pose proof (speak_body_resolved i sc text output_file speaker_id w _ _ _ _ Hres) as Hbody.
  pose proof (speak_reaches_resolution self i sc text output_file speaker_id w
                has_interface has_sampler text_given output_given dir_ok voice_file)
    as Hspeak.
  pose proof (fun p Hl Hm => speak_count self i sc text output_file speaker_id w
                has_interface has_sampler text_given output_given dir_ok p voice_file Hl Hm)
    as Hcount.
  fold w0 in Hbody, Hspeak.
  assert (Hlq : forall p, (forall lv m, p (EvLog lv m) = false) ->
                          (forall v, p (EvCreateSpeaker v) = false) ->
                          (forall v, p (EvLoadDefaultSpeaker v) = false) ->
                          count_ev p l = 0).
  { intros p H1 H2 H3.
    pose proof (resolve_speaker_quiet p H1 i speaker_id voice_file H2 H3 w0) as H.
    rewrite Hres in H. exact H. }
  assert (Hfalse : forall e, out (speak_body i sc text output_file speaker_id voice_file w0)
                             = Raise e -> is_Exception e = true ->
                             out (speak self text output_file speaker_id voice_file w)
                             = Ret false).
  { intros e Hb He. rewrite Hspeak. cbn [prepend out].
    unfold try_except, except_Exception. rewrite Hb, He. reflexivity. }
  split; [|split].
  - intros e w3 Hc He.
    rewrite generate_step_cases, Hc in Hbody. cbv zeta in Hbody.
    split; [apply (Hfalse e); [rewrite Hbody; reflexivity | exact He]|].
    rewrite !Hcount by reflexivity. fold w0. rewrite Hbody. cbn [prepend evs].
    rewrite !count_ev_app, !Hlq by reflexivity. split; reflexivity.
  - intros c w3 e w4 Hc Hg He.
    rewrite generate_step_cases, Hc, Hg in Hbody. cbv zeta in Hbody.
    split; [apply (Hfalse e); [rewrite Hbody; reflexivity | exact He]|].
    rewrite !Hcount by reflexivity. fold w0. rewrite Hbody. cbn [prepend evs].
    rewrite !count_ev_app, !Hlq by reflexivity. split; reflexivity.
  - intros c w3 a w4 e w5 Hc Hg Hs He.
    rewrite generate_step_cases, Hc, Hg, Hs in Hbody. cbv zeta in Hbody.
    split; [apply (Hfalse e); [rewrite Hbody; reflexivity | exact He]|].
    split.
    + rewrite Hcount by reflexivity. fold w0. rewrite Hbody. cbn [prepend evs].
      rewrite count_ev_app, Hlq by reflexivity. reflexivity.
    + apply (speak_In self i sc text output_file speaker_id w
               has_interface has_sampler text_given output_given dir_ok voice_file);
        [reflexivity | discriminate |].
      fold w0. rewrite Hbody. cbn [prepend evs]. apply in_app_iff. right.
      cbn. tauto.
Qed.

End Resolved.

(** ** What [speak] does with what is raised during the call *)

Lemma try_except_prepend_out {A} (body body' : M A) handlers w w' l :
  body w = prepend l (body' w') ->
  out (try_except body handlers w) = out (try_except body' handlers w').
Proof.
  intros H. unfold try_except. rewrite H. cbn [prepend out world evs].
  destruct (out (body' w')) as [a|e]; [reflexivity|].
  destruct (handlers e); reflexivity.
Qed.

(** C6, as amended.  For every call of [speak]:
    (a) it lets no exception through whose class derives from [Exception];
    (b) it returns [True] only if the handler was ready, text and output
        path were non-empty, the directory step succeeded, resolution gave
        a speaker, and the generation configuration, the generation and
        the save all returned;
    and in a call with a ready handler and non-empty text and output path:
    (c) what [os.makedirs] raises in the directory step is turned into
        [False] when it is an [Exception] and reaches the caller when it
        is not; whatever the directory step lets through, which is never
        an [Exception], reaches the caller;
    (d) what the body of the [try] raises is turned into [False] when it
        is an [Exception], and reaches the caller when it is not;
    (e) an [Exception] raised by [create_speaker] is caught inside
        resolution and is not turned into [False]: the call goes on with
        the identifier step and ends as the rest of the body ends from
        there; what [create_speaker] raises that is not an [Exception]
        reaches the caller;
    (f) what [load_default_speaker] raises is turned into [False] when it
        is an [Exception] and reaches the caller when it is not;
    (g) and so is what [GenerationConfig], [generate] and [save] raise. *)
Theorem speak_contains_Exception_only self text output_file speaker_id voice_file w :
  let r := speak self text output_file speaker_id voice_file w in
  let converted e := out r = if is_Exception e then Ret false else Raise e in
  (forall e, out r = Raise e -> is_Exception e = false) /\
  (out r = Ret true ->
   exists i sc speaker src w2 l c a w3 w4 w5,
     interface self = Some i /\ sampler_config self = Some sc /\
     text <> "" /\ output_file <> "" /\
     out (ensure_output_dir output_file w) = Ret true /\
     resolve_speaker i speaker_id voice_file (world (ensure_output_dir output_file w))
       = Res (Ret (Some speaker, src)) w2 l /\
     new_GenerationConfig text CHUNKED speaker sc w2 = (Ret c, w3) /\
     generate i c w3 = (Ret a, w4) /\
     audio_save a output_file w4 = (Ret tt, w5) /\
     world r = w5) /\
  (forall i sc,
     interface self = Some i -> sampler_config self = Some sc ->
     text <> "" -> output_file <> "" ->
     let dir := os_path_dirname output_file in
     let w1 := world (ensure_output_dir output_file w) in
     (forall e w',
        dir <> "" -> fs_exists w dir = false -> os_makedirs dir w = (Raise e, w') ->
        converted e) /\
     (forall e,
        out (ensure_output_dir output_file w) = Raise e ->
        out r = Raise e /\ is_Exception e = false) /\
     (out (ensure_output_dir output_file w) = Ret true ->
      (forall e,
         out (speak_body i sc text output_file speaker_id voice_file w1) = Raise e ->
         converted e) /\
      (forall p e w2,
         voice_file = PStr p -> fs_exists w1 p = true ->
         create_speaker i (PStr p) w1 = (Raise e, w2) ->
         out r = if is_Exception e
                 then out (try_except
                             (resolved <- id_step i speaker_id;;
                              generate_step i sc text output_file resolved)
                             (except_Exception speak_failed) w2)
                 else Raise e) /\
      (forall src l w2 e w3,
         clone_step i voice_file w1 = Res (Ret (None, src)) w2 l ->
         load_default_speaker i (determined_id speaker_id) w2 = (Raise e, w3) ->
         converted e) /\
      (forall speaker src w2 l,
         resolve_speaker i speaker_id voice_file w1 = Res (Ret (Some speaker, src)) w2 l ->
         (forall e w3,
            new_GenerationConfig text CHUNKED speaker sc w2 = (Raise e, w3) ->
            converted e) /\
         (forall c w3 e w4,
            new_GenerationConfig text CHUNKED speaker sc w2 = (Ret c, w3) ->
            generate i c w3 = (Raise e, w4) ->
            converted e) /\
         (forall c w3 a w4 e w5,
            new_GenerationConfig text CHUNKED speaker sc w2 = (Ret c, w3) ->
            generate i c w3 = (Ret a, w4) ->
            audio_save a output_file w4 = (Raise e, w5) ->
            converted e)))).
Proof.
  cbv zeta. split; [|split].
  - intros e. apply speak_contains.
  - intros Htrue.
    destruct (speak_true_inv _ _ _ _ _ _ Htrue)
      as (i & sc & speaker & src & w2 & l & c & a & w3 & w4 & w5 & H).
    exists i, sc, speaker, src, w2, l, c, a, w3, w4, w5. tauto.
  - intros i sc Hi Hsc Ht Hf. split; [|split].
    + intros e w' Hname Hmiss Hmk.
      pose proof (ensure_output_dir_cases output_file w) as Hdir. cbv zeta in Hdir.
      rewrite (truthy_str _ Hname), Hmiss, Hmk in Hdir. cbn [negb orb] in Hdir.
      rewrite (speak_ready_unfold self i sc text output_file w Hi Hsc Ht Hf).
      unfold bind. rewrite Hdir. destruct (is_Exception e); reflexivity.
    + intros e Hdir.
      split; [|exact (ensure_output_dir_contains _ _ _ Hdir)].
      rewrite (speak_ready_unfold self i sc text output_file w Hi Hsc Ht Hf).
      rewrite (bind_Raise _ _ _ _ Hdir). reflexivity.
    + intros Hdir.
      pose proof (speak_body_raised self i sc text output_file speaker_id w
                    Hi Hsc Ht Hf Hdir) as Hraised.
      pose proof (speak_resolution_raised self i sc text output_file speaker_id w
                    Hi Hsc Ht Hf Hdir) as Hres_raised.
      split; [|split; [|split]].
      * intros e. apply Hraised.
      * intros p e w2 -> Hp Hc. destruct (is_Exception e) eqn:He.
        -- pose proof (clone_step_raised _ _ _ _ _ Hp Hc He) as Hclone.
           rewrite (speak_reaches_resolution self i sc text output_file speaker_id w
                      Hi Hsc Ht Hf Hdir).
           cbn [prepend out].
           apply (try_except_prepend_out _ _ _ _ _
                    [EvLog INFO ("Attempting voice cloning from: " +:+ p);
                     EvCreateSpeaker (PStr p);
                     EvLog ERROR ("Error creating speaker profile from " +:+ p +:+ ": "
                                  +:+ exn_msg e +:+ ". Trying speaker ID or default...")]).
           unfold speak_body. apply bind_prepend.
           apply (resolve_speaker_falls_through i output_file speaker_id w _ _ _ _ Hclone).
        -- pose proof (clone_step_interrupted _ _ _ _ _ Hp Hc He) as Hclone.
           assert (Hout : out (resolve_speaker i speaker_id (PStr p)
                                 (world (ensure_output_dir output_file w))) = Raise e)
             by (unfold resolve_speaker, bind; rewrite Hclone; reflexivity).
           destruct (Hres_raised _ _ Hout) as (Hspeak & _). rewrite He in Hspeak.
           exact Hspeak.
      * intros src l w2 e w3 Hclone Hload. destruct (is_Exception e) eqn:He.
        -- destruct (resolve_speaker_identifier_error
                       i output_file speaker_id w _ _ _ _ _ _ Hclone Hload He) as [src' Hres].
           exact (proj1 (speak_unresolved self i sc text output_file speaker_id w
                           Hi Hsc Ht Hf Hdir _ _ Hres)).
        -- pose proof (resolve_speaker_identifier_interrupt
                         i output_file speaker_id w _ _ _ _ _ _ Hclone Hload He) as Hout.
           destruct (Hres_raised _ _ Hout) as (Hspeak & _). rewrite He in Hspeak.
           exact Hspeak.
      * intros speaker src w2 l Hres.
        pose proof (speak_body_resolved i sc text output_file speaker_id w _ _ _ _ Hres)
          as Hbody.
        pose proof (generate_step_cases i sc text output_file speaker src w2) as Hgen.
        cbv zeta in Hgen.
        split; [|split].
        -- intros e w3 Hc. apply Hraised. rewrite Hbody, Hgen, Hc. reflexivity.
        -- intros c w3 e w4 Hc Hg. apply Hraised. rewrite Hbody, Hgen, Hc, Hg. reflexivity.
        -- intros c w3 a w4 e w5 Hc Hg Hs. apply Hraised.
           rewrite Hbody, Hgen, Hc, Hg, Hs. reflexivity.
Qed.

(** ** [ensure_cache_dir] *)

Lemma ensure_cache_dir_found w :
  fs_exists w CACHE_DIR = true ->
  out (ensure_cache_dir w) = Ret true /\ ensure_cache_dir w = Res (Ret true) w [].
Proof.
  intros H. unfold ensure_cache_dir, bind.
  cbn [os_path_exists ask out world evs]. rewrite H. split; reflexivity.
Qed.

Lemma ensure_cache_dir_missing w :
  fs_exists w CACHE_DIR = false ->
  ensure_cache_dir w =
  match os_makedirs CACHE_DIR w with
  | (Ret _, w') =>
      Res (Ret true) w'
          [EvMakedirs CACHE_DIR; EvLog INFO ("Created cache directory: " +:+ CACHE_DIR)]
  | (Raise e, w') =>
      if is_OSError e
      then Res (Ret false) w'
               [EvMakedirs CACHE_DIR;
                EvLog ERROR ("Error creating cache directory " +:+ CACHE_DIR
                             +:+ ": " +:+ exn_msg e)]
      else Res (Raise e) w' [EvMakedirs CACHE_DIR]
  end.
Proof.
  intros H. unfold ensure_cache_dir, bind at 1.
  cbn [os_path_exists ask out world evs]. rewrite H. cbn [negb].
  unfold try_except, bind, call, log, emit.
  destruct (os_makedirs CACHE_DIR w) as [[u|e] w']; cbn; [reflexivity|].
  destruct (is_OSError e); reflexivity.
Qed.

(** X8.  [ensure_cache_dir] does nothing when the cache directory exists;
    otherwise it calls [os.makedirs] once, returns [True] when that
    succeeds and [False] when it raises an [OSError]; an exception of
    another class is not caught. *)
Theorem ensure_cache_dir_behaviour w :
  let r := ensure_cache_dir w in
  (fs_exists w CACHE_DIR = true -> r = Res (Ret true) w []) /\
  (forall u w',
     fs_exists w CACHE_DIR = false -> os_makedirs CACHE_DIR w = (Ret u, w') ->
     out r = Ret true /\ world r = w' /\ count_ev is_makedirs (evs r) = 1) /\
  (forall e w',
     fs_exists w CACHE_DIR = false -> os_makedirs CACHE_DIR w = (Raise e, w') ->
     is_OSError e = true ->
     out r = Ret false /\ world r = w' /\ count_ev is_makedirs (evs r) = 1) /\
  (forall e w',
     fs_exists w CACHE_DIR = false -> os_makedirs CACHE_DIR w = (Raise e, w') ->
     is_OSError e = false ->
     out r = Raise e /\ world r = w').
Proof.
  cbv zeta. pose proof (ensure_cache_dir_missing w) as Hmissing.
  split; [|split; [|split]].
  - intros H. apply ensure_cache_dir_found, H.
  - intros u w' H Hmk. rewrite (Hmissing H), Hmk. repeat split.
  - intros e w' H Hmk He. rewrite (Hmissing H), Hmk, He. repeat split.
  - intros e w' H Hmk He. rewrite (Hmissing H), Hmk, He. repeat split.
Qed.

(** ** More of [load_config] *)

Lemma with_default_keys_speaker_id d :
  with_default_keys d !! "speaker_id" = Some (default PNone (d !! "speaker_id")).
Proof.
  unfold with_default_keys. cbv zeta.
  set (d1 := if bool_decide (is_Some (d !! "speaker_id")) then d
             else <["speaker_id" := PNone]> d).
  assert (H1 : d1 !! "speaker_id" = Some (default PNone (d !! "speaker_id"))).
  { unfold d1. destruct (bool_decide (is_Some (d !! "speaker_id"))) eqn:E.
    - apply bool_decide_eq_true in E. destruct E as [v ->]. reflexivity.
    - apply bool_decide_eq_false in E. rewrite lookup_insert_eq.
      destruct (d !! "speaker_id"); [exfalso; apply E; eauto | reflexivity]. }
  destruct (bool_decide (is_Some (d1 !! "voice_file"))); [exact H1|].
  rewrite lookup_insert_ne by discriminate. exact H1.
Qed.

Lemma with_default_keys_other d k :
  k <> "speaker_id" -> k <> "voice_file" -> with_default_keys d !! k = d !! k.
Proof.
  intros Hs Hv. unfold with_default_keys. cbv zeta.
  destruct (bool_decide (is_Some (d !! "speaker_id")));
    match goal with |- context [bool_decide ?P] => destruct (bool_decide P) end;
    rewrite ?lookup_insert_ne by congruence; reflexivity.
Qed.

(** [os.path.exists] raises nothing but errors. *)
Lemma os_path_exists_raises v w e :
  out (os_path_exists v w) = Raise e -> is_Exception e = true.
Proof.
  destruct v; cbn; try discriminate; try (intros [= <-]; reflexivity).
  destruct (_ && _)%bool; cbn; [discriminate | intros [= <-]; reflexivity].
Qed.

(** X9.  A configuration object whose [voice_file] passes the check
    (it is false in Python's sense, or names an existing file) is
    returned with its entries as they are in the file, [speaker_id]
    whatever it is, and with [None] for [speaker_id] and [voice_file]
    where the file has no such key; when [voice_file] names a missing
    file only that entry is replaced. *)
Theorem load_config_keeps_entries w d w' :
  fs_exists w CONFIG_FILE = true ->
  json_load_file CONFIG_FILE w = (Ret (PDict d), w') ->
  let vf := default PNone (d !! "voice_file") in
  forall b, (if truthy vf then out (os_path_exists vf w') else Ret true) = Ret b ->
  exists d', out (load_config w) = Ret (PDict d') /\
    d' !! "speaker_id" = Some (default PNone (d !! "speaker_id")) /\
    d' !! "voice_file" = Some (if b then vf else PNone) /\
    (forall k, k <> "speaker_id" -> k <> "voice_file" -> d' !! k = d !! k).
Proof.
  intros Hf Hload vf b Hb.
  rewrite (load_config_found _ Hf). unfold try_except.
  rewrite (load_config_body_object _ _ _ Hload). fold vf.
  destruct (truthy vf).
  - rewrite Hb. destruct b; cbn [out].
    + eexists. split; [reflexivity|].
      split; [apply with_default_keys_speaker_id|].
      split; [apply with_default_keys_voice_file|]. apply with_default_keys_other.
    + eexists. split; [reflexivity|].
      split; [rewrite lookup_insert_ne by discriminate; apply with_default_keys_speaker_id|].
      split; [apply lookup_insert_eq|].
      intros k Hs Hv. rewrite lookup_insert_ne by congruence.
      apply with_default_keys_other; assumption.
  - injection Hb as <-. cbn [out].
    eexists. split; [reflexivity|].
    split; [apply with_default_keys_speaker_id|].
    split; [apply with_default_keys_voice_file|]. apply with_default_keys_other.
Qed.

Lemma load_config_except_quiet p e h :
  (forall l m, p (EvLog l m) = false) -> load_config_except e = Some h -> quiet p h.
Proof.
  intros Hl. unfold load_config_except.
  destruct (is_JSONDecodeError e); [intros [= <-]; quiet_tac|].
  destruct (is_Exception e); [intros [= <-]; quiet_tac | discriminate].
Qed.

Lemma load_config_body_after_read p (k : pyval -> M pyval) :
  (forall l m, p (EvLog l m) = false) ->
  forall config, quiet p
    (has_id <- lift_outcome (py_contains "speaker_id" config);;
     config <- (if negb has_id
                then lift_outcome (py_setitem config "speaker_id" PNone)
                else ret config);;
     has_vf <- lift_outcome (py_contains "voice_file" config);;
     config <- (if negb has_vf
                then lift_outcome (py_setitem config "voice_file" PNone)
                else ret config);;
     vf <- lift_outcome (py_getitem config "voice_file");;
     missing <- (if truthy vf
                 then (vf' <- lift_outcome (py_getitem config "voice_file");;
                       b <- os_path_exists vf';; ret (negb b))
                 else ret false);;
     if missing : bool then
       vf' <- lift_outcome (py_getitem config "voice_file");;
       log WARNING ("Voice file specified in " +:+ CONFIG_FILE +:+ " not found: "
                    +:+ py_str vf' +:+ ". It will be ignored.");;
       lift_outcome (py_setitem config "voice_file" PNone)
     else ret config).
Proof. intros Hl config. quiet_tac. Qed.

(** [load_config] always returns an object. *)
Lemma load_config_returns_object w cfg :
  out (load_config w) = Ret cfg ->
  exists d, cfg = PDict d /\ is_Some (d !! "speaker_id") /\ is_Some (d !! "voice_file").
Proof.
  intros Hcfg.
  assert (Hdef : exists d, default_config = PDict d /\
                           is_Some (d !! "speaker_id") /\ is_Some (d !! "voice_file")).
  { eexists. split; [reflexivity|]. split; eexists; reflexivity. }
  destruct (fs_exists w CONFIG_FILE) eqn:Hf.
  2: { rewrite (load_config_missing _ Hf) in Hcfg. injection Hcfg as <-. exact Hdef. }
  rewrite (load_config_found _ Hf) in Hcfg.
  destruct (try_cases load_config_body load_config_except w)
    as [(a & Hb & Hr) | [(e & Hb & Hh & Hr) | (e & h & Hb & Hh & Hr)]];
    cbv zeta in Hr; rewrite Hr in Hcfg; clear Hr.
  - rewrite Hb in Hcfg. injection Hcfg as ->.
    destruct (json_load_file CONFIG_FILE w) as [[v|e] w'] eqn:Hload.
    2: { unfold load_config_body in Hb.
         rewrite (bind_call_Raise _ _ _ _ _ _ Hload) in Hb. discriminate. }
    destruct v as [| | | | |l|d];
      try (destruct (load_config_body_not_object _ _ _ Hload) as (e & He & _);
           [intros d; discriminate | congruence]).
    rewrite (load_config_body_object _ _ _ Hload) in Hb.
    assert (H2 : is_Some (with_default_keys d !! "speaker_id") /\
                 is_Some (with_default_keys d !! "voice_file")).
    { rewrite with_default_keys_speaker_id, with_default_keys_voice_file. split; eauto. }
    destruct (truthy (default PNone (d !! "voice_file"))).
    + destruct (out (os_path_exists (default PNone (d !! "voice_file")) w'))
        as [[|]|e]; cbn [out] in Hb; [| |discriminate]; injection Hb as <-.
      * eexists. split; [reflexivity | exact H2].
      * eexists. split; [reflexivity|]. rewrite lookup_insert_ne by discriminate.
        rewrite lookup_insert_eq. split; [tauto | eauto].
    + cbn [out] in Hb. injection Hb as <-. eexists. split; [reflexivity | exact H2].
  - congruence.
  - destruct (is_Exception e) eqn:He.
    + destruct (load_config_except_Exception e He) as [msg Hm].
      rewrite Hm in Hh. injection Hh as <-. cbn in Hcfg. injection Hcfg as <-. exact Hdef.
    + rewrite (load_config_except_other e He) in Hh. discriminate.
Qed.

Lemma load_config_count_json w :
  count_ev is_json_load (evs (load_config w)) = (if fs_exists w CONFIG_FILE then 1 else 0).
Proof.
  destruct (fs_exists w CONFIG_FILE) eqn:Hf.
  - rewrite (load_config_found _ Hf).
    assert (Hbody : count_ev is_json_load (evs (load_config_body w)) = 1).
    { unfold load_config_body. rewrite count_bind_quiet.
      - unfold call. destruct (json_load_file CONFIG_FILE w). reflexivity.
      - apply (load_config_body_after_read is_json_load (fun c => ret c)). reflexivity. }
    destruct (try_cases load_config_body load_config_except w)
      as [(a & Hb & Hr) | [(e & Hb & Hh & Hr) | (e & h & Hb & Hh & Hr)]];
      cbv zeta in Hr; rewrite Hr; clear Hr; [exact Hbody | exact Hbody|].
    cbn [prepend evs]. rewrite count_ev_app, Hbody.
    rewrite (load_config_except_quiet is_json_load e h ltac:(reflexivity) Hh). reflexivity.
  - rewrite (load_config_missing _ Hf). reflexivity.
Qed.

(** What [os.path.exists] cannot take as a path. *)
Lemma os_path_exists_unusable v w :
  (forall s, v <> PStr s) -> (forall b, v <> PBool b) ->
  (forall n, v = PInt n -> (n < - 2 ^ 31 \/ 2 ^ 31 <= n)%Z) ->
  exists e, out (os_path_exists v w) = Raise e /\ is_Exception e = true.
Proof.
  intros Hs Hb Hn. destruct v as [|b|n|f|s|l|d];
    try (eexists; split; reflexivity).
  - destruct (Hb b eq_refl).
  - unfold os_path_exists.
    destruct (Hn n eq_refl) as [H | H].
    + replace (- 2 ^ 31 <=? n)%Z with false by (symmetry; apply Z.leb_gt; exact H).
      eexists; split; reflexivity.
    + replace (n <? 2 ^ 31)%Z with false by (symmetry; apply Z.ltb_ge; exact H).
      rewrite andb_false_r. eexists; split; reflexivity.
  - destruct (Hs s eq_refl).
Qed.

(** X10.  A [voice_file] that is true in Python's sense but is neither a
    string nor a usable descriptor (a non-empty list or object, a
    non-zero float, an integer that does not fit a C [int]) makes
    [os.path.exists] raise, and [load_config], having read the file,
    returns the default configuration: the [speaker_id] of the file is
    dropped with it. *)
Theorem load_config_unusable_voice_file_drops_all w d w' v :
  fs_exists w CONFIG_FILE = true ->
  json_load_file CONFIG_FILE w = (Ret (PDict d), w') ->
  d !! "voice_file" = Some v -> truthy v = true ->
  (forall s, v <> PStr s) -> (forall b, v <> PBool b) ->
  (forall n, v = PInt n -> (n < - 2 ^ 31 \/ 2 ^ 31 <= n)%Z) ->
  out (load_config w) = Ret default_config /\
  count_ev is_json_load (evs (load_config w)) = 1.
Proof.
  intros Hf Hload Hv Ht Hs Hb Hn.
  destruct (os_path_exists_unusable v w' Hs Hb Hn) as (e & He & Hexn).
  split.
  - apply (load_config_error w e Hf); [|exact Hexn].
    rewrite (load_config_body_object _ _ _ Hload), Hv.
    change (default PNone (Some v)) with v. rewrite Ht, He. reflexivity.
  - rewrite load_config_count_json, Hf. reflexivity.
Qed.

(** X11.  Whatever the file holds, a configuration that [load_config]
    returns is an object with both keys [speaker_id] and [voice_file];
    [load_config] reads the file once when it exists and not at all when
    it does not, and besides that it only logs. *)
Theorem load_config_shape_and_effects w :
  let r := load_config w in
  (forall cfg, out r = Ret cfg ->
     exists d, cfg = PDict d /\ is_Some (d !! "speaker_id") /\
               is_Some (d !! "voice_file")) /\
  count_ev is_json_load (evs r) = (if fs_exists w CONFIG_FILE then 1 else 0) /\
  (forall ev, In ev (evs r) -> is_log ev || is_json_load ev = true).
Proof.
  cbv zeta. split; [apply load_config_returns_object|]. split.
  - apply load_config_count_json.
  - intros ev Hin.
    assert (Hq : quiet (fun ev => negb (is_log ev || is_json_load ev)) load_config).
    { unfold load_config. apply quiet_bind; [apply quiet_os_path_exists|]. intros found.
      apply quiet_if; [|quiet_tac].
      apply quiet_try.
      - unfold load_config_body. apply quiet_bind; [apply quiet_call; reflexivity|].
        intros config.
        apply (load_config_body_after_read _ (fun c => ret c)). reflexivity.
      - intros e h. apply load_config_except_quiet. reflexivity. }
    apply (count_ev_zero_Forall _ _ (Hq w)) in Hin.
    apply negb_false_iff in Hin. exact Hin.
Qed.

(** ** The conversation loop on lines that are not spoken *)

Lemma loop_try_input_Ret h cfg w line w1 :
  input PROMPT w = (Ret line, w1) ->
  loop_try h cfg w =
  prepend [EvInput PROMPT]
    ((if existsb (String.eqb (lower line)) ["quit"; "exit"] then ret Break
      else if negb (truthy (PStr line)) then
        print "Please enter some text.";; ret Continue
      else synthesize_and_play h cfg line) w1).
Proof. intros H. unfold loop_try. rewrite (bind_call_Ret _ _ _ _ _ _ H). reflexivity. Qed.

Lemma main_loop_step fuel h cfg w :
  main_loop (S fuel) h cfg w =
  match out (loop_body h cfg w) with
  | Ret Continue =>
      prepend (evs (loop_body h cfg w)) (main_loop fuel h cfg (world (loop_body h cfg w)))
  | Ret Break => Res (Ret Returned) (world (loop_body h cfg w)) (evs (loop_body h cfg w))
  | Raise e => Res (Raise e) (world (loop_body h cfg w)) (evs (loop_body h cfg w))
  end.
Proof.
  cbn [main_loop]. unfold bind.
  destruct (out (loop_body h cfg w)) as [[|]|e]; [reflexivity | | reflexivity].
  unfold prepend, ret. cbn [out world evs]. rewrite app_nil_r. reflexivity.
Qed.

(** X12.  A line that is [quit] or [exit] in any mix of upper and lower
    case ends the loop at once: the pass does nothing but read the line
    (no clock, no synthesis, no playback, no message), and [main]'s loop
    returns. *)
Theorem loop_exit_word h cfg w line w1 :
  input PROMPT w = (Ret line, w1) ->
  lower line = "quit" \/ lower line = "exit" ->
  loop_body h cfg w = Res (Ret Break) w1 [EvInput PROMPT] /\
  forall fuel, main_loop (S fuel) h cfg w = Res (Ret Returned) w1 [EvInput PROMPT].
Proof.
  intros Hin Hword.
  assert (Hbody : loop_body h cfg w = Res (Ret Break) w1 [EvInput PROMPT]).
  { unfold loop_body, try_except. rewrite (loop_try_input_Ret _ _ _ _ _ Hin).
    assert (Hex : existsb (String.eqb (lower line)) ["quit"; "exit"] = true)
      by (destruct Hword as [-> | ->]; reflexivity).
    rewrite Hex. reflexivity. }
  split; [exact Hbody|]. intros fuel. rewrite main_loop_step, Hbody. reflexivity.
Qed.

(** X13.  On an empty line the pass asks for text and the loop prompts
    again: nothing is synthesized and the clock is not read. *)
Theorem loop_blank_line h cfg w w1 :
  input PROMPT w = (Ret "", w1) ->
  loop_body h cfg w =
    Res (Ret Continue) w1 [EvInput PROMPT; EvPrint "Please enter some text."] /\
  forall fuel,
    main_loop (S fuel) h cfg w =
    prepend [EvInput PROMPT; EvPrint "Please enter some text."] (main_loop fuel h cfg w1).
Proof.
  intros Hin.
  assert (Hbody : loop_body h cfg w =
                  Res (Ret Continue) w1 [EvInput PROMPT; EvPrint "Please enter some text."]).
  { unfold loop_body, try_except. rewrite (loop_try_input_Ret _ _ _ _ _ Hin). reflexivity. }
  split; [exact Hbody|]. intros fuel. rewrite main_loop_step, Hbody. reflexivity.
Qed.

Lemma loop_try_input_Raise h cfg w e w1 :
  input PROMPT w = (Raise e, w1) ->
  loop_try h cfg w = Res (Raise e) w1 [EvInput PROMPT].
Proof. intros H. unfold loop_try. rewrite (bind_call_Raise _ _ _ _ _ _ H). reflexivity. Qed.

(** X14.  When reading the line raises: a [KeyboardInterrupt] prints the
    farewell and ends the loop; any [Exception] (end of input, say) is
    logged, reported, and the loop goes on; anything else leaves the
    loop as it is. *)
Theorem loop_input_raises h cfg w e w1 :
  input PROMPT w = (Raise e, w1) ->
  loop_body h cfg w =
  if is_KeyboardInterrupt e then
    Res (Ret Break) w1 [EvInput PROMPT; EvPrint (nl +:+ "Exiting...")]
  else if is_Exception e then
    Res (Ret Continue) w1
        [EvInput PROMPT;
         EvLog ERROR ("An unexpected error occurred in the main loop: " +:+ exn_msg e);
         EvPrint "An unexpected error occurred. Check logs."]
  else Res (Raise e) w1 [EvInput PROMPT].
Proof.
  intros Hin. unfold loop_body, try_except.
  rewrite (loop_try_input_Raise _ _ _ _ _ Hin). cbn [out world evs].
  unfold loop_except.
  destruct (is_KeyboardInterrupt e); [reflexivity|].
  destruct (is_Exception e); reflexivity.
Qed.



(** ** What the parts of [main] can emit *)

Lemma ensure_cache_dir_quiet p :
  (forall l m, p (EvLog l m) = false) -> (forall d, p (EvMakedirs d) = false) ->
  quiet p ensure_cache_dir.
Proof.
  intros Hl Hm. unfold ensure_cache_dir.
  apply quiet_bind; [apply quiet_os_path_exists|]. intros found.
  apply quiet_if; [|apply quiet_ret].
  apply quiet_try; [quiet_tac|].
  intros e h. destruct (is_OSError e); [intros [= <-]; quiet_tac | discriminate].
Qed.

Lemma TTSHandler_init_quiet p m b q :
  (forall l s, p (EvLog l s) = false) ->
  (forall ev, is_initialization ev = true -> p ev = false) ->
  quiet p (TTSHandler_init m b q).
Proof. intros Hl Hi. unfold TTSHandler_init. quiet_tac. Qed.

Lemma load_config_quiet p :
  (forall l m, p (EvLog l m) = false) -> (forall f, p (EvJsonLoad f) = false) ->
  quiet p load_config.
Proof.
  intros Hl Hj. unfold load_config.
  apply quiet_bind; [apply quiet_os_path_exists|]. intros found.
  apply quiet_if; [|quiet_tac].
  apply quiet_try.
  - unfold load_config_body. apply quiet_bind; [apply quiet_call, Hj|].
    intros config. apply (load_config_body_after_read _ (fun c => ret c) Hl).
  - intros e h. apply load_config_except_quiet, Hl.
Qed.

Lemma play_audio_quiet p file_path :
  (forall l m, p (EvLog l m) = false) -> (forall m, p (EvPrint m) = false) ->
  (forall f, p (EvPlaysound f) = false) ->
  quiet p (play_audio file_path).
Proof. intros Hl Hp Hs. unfold play_audio. quiet_tac. Qed.

Lemma loop_except_quiet p e h :
  (forall l m, p (EvLog l m) = false) -> (forall m, p (EvPrint m) = false) ->
  loop_except e = Some h -> quiet p h.
Proof.
  intros Hl Hp. unfold loop_except.
  destruct (is_KeyboardInterrupt e); [intros [= <-]; quiet_tac|].
  destruct (is_Exception e); [intros [= <-]; quiet_tac | discriminate].
Qed.

Lemma synthesize_and_play_quiet p h cfg line :
  (forall ev, is_loop_effect ev = true -> is_input ev = false -> p ev = false) ->
  quiet p (synthesize_and_play h cfg line).
Proof.
  intros H.
  assert (Hl : forall l m, p (EvLog l m) = false) by (intros; apply H; reflexivity).
  assert (Hp : forall m, p (EvPrint m) = false) by (intros; apply H; reflexivity).
  unfold synthesize_and_play.
  apply quiet_bind; [apply quiet_call, H; reflexivity|]. intros now.
  apply quiet_bind; [apply quiet_emit, Hl|]. intros ?.
  apply quiet_bind; [apply quiet_lift|]. intros speaker_id.
  apply quiet_bind; [apply quiet_lift|]. intros voice_file.
  apply quiet_bind; [apply speak_quiet; intros; apply H; reflexivity|].
  intros success. apply quiet_bind; [|intros ?; apply quiet_ret].
  apply quiet_if; [|quiet_tac].
  apply play_audio_quiet; [assumption | assumption |]. intros f. apply H; reflexivity.
Qed.

(** What follows the reading of the line, in a pass. *)
Lemma loop_after_input_quiet p h cfg line :
  (forall ev, is_loop_effect ev = true -> is_input ev = false -> p ev = false) ->
  quiet p (if existsb (String.eqb (lower line)) ["quit"; "exit"] then ret Break
           else if negb (truthy (PStr line)) then
             print "Please enter some text.";; ret Continue
           else synthesize_and_play h cfg line).
Proof.
  intros H.
  assert (Hp : forall m, p (EvPrint m) = false) by (intros; apply H; reflexivity).
  apply quiet_if; [apply quiet_ret|].
  apply quiet_if; [quiet_tac | apply synthesize_and_play_quiet, H].
Qed.

Lemma loop_body_quiet p h cfg :
  (forall ev, is_loop_effect ev = true -> p ev = false) ->
  quiet p (loop_body h cfg).
Proof.
  intros H.
  unfold loop_body. apply quiet_try.
  - unfold loop_try. apply quiet_bind; [apply quiet_call, H; reflexivity|].
    intros line. apply loop_after_input_quiet. auto.
  - intros e k. apply loop_except_quiet; intros; apply H; reflexivity.
Qed.

Lemma main_loop_quiet p fuel h cfg :
  (forall ev, is_loop_effect ev = true -> p ev = false) ->
  quiet p (main_loop fuel h cfg).
Proof.
  intros H. induction fuel as [|fuel IH]; cbn [main_loop]; [apply quiet_ret|].
  apply quiet_bind; [apply loop_body_quiet, H|].
  intros [|]; [exact IH | apply quiet_ret].
Qed.

Lemma quiet_Forall (q : event -> bool) {A} (m : M A) w :
  quiet (fun ev => negb (q ev)) m -> Forall (fun ev => q ev = true) (evs (m w)).
Proof.
  intros H. apply List.Forall_forall. intros ev Hin.
  apply (count_ev_zero_Forall _ _ (H w)) in Hin. apply negb_false_iff in Hin. exact Hin.
Qed.

Lemma Forall_count_zero (p q : event -> bool) l :
  (forall ev, q ev = true -> p ev = false) ->
  Forall (fun ev => q ev = true) l -> count_ev p l = 0.
Proof.
  intros H Hall. induction Hall as [|ev l Hev _ IH]; [reflexivity|].
  cbn [count_ev]. rewrite (H ev Hev). exact IH.
Qed.

(** ** [main] before its loop *)

Lemma count_try_quiet p {A} (body : M A) handlers w :
  (forall e h, handlers e = Some h -> quiet p h) ->
  count_ev p (evs (try_except body handlers w)) = count_ev p (evs (body w)).
Proof.
  intros Hh.
  destruct (try_cases body handlers w)
    as [(a & _ & Hr) | [(e & _ & _ & Hr) | (e & h & _ & Hk & Hr)]];
    cbv zeta in Hr; rewrite Hr; [reflexivity | reflexivity |].
  cbn [prepend evs]. rewrite count_ev_app, (Hh _ _ Hk). lia.
Qed.

Lemma prepend_prepend {A} l1 l2 (r : result A) :
  prepend l1 (prepend l2 r) = prepend (l1 ++ l2) r.
Proof. unfold prepend. cbn [out world evs]. rewrite app_assoc. reflexivity. Qed.

(** Lines 79-87 of [main]: the construction of the handler. *)
Lemma main_init_try w :
  let r := try_except
      (h <- TTSHandler_init VERSION_1_0_SIZE_1B LLAMACPP FP16;; ret (Some h))
      (except_Exception (fun e =>
       print ("FATAL: Failed to initialize TTS Handler: " +:+ exn_msg e);;
       print "Please check your outetts installation, model downloads, and configurations.";;
       ret None)) w in
  Forall (fun ev => is_startup_effect ev = true) (evs r) /\
  count_ev is_json_load (evs r) = 0 /\
  count_ev is_auto_config (evs r) <= 1 /\
  count_ev is_interface_construction (evs r) <= 1 /\
  count_ev is_sampler_construction (evs r) <= 1 /\
  (forall h, out r = Ret (Some h) ->
     out (TTSHandler_init VERSION_1_0_SIZE_1B LLAMACPP FP16 w) = Ret h) /\
  (out r = Ret None ->
     exists e, out (TTSHandler_init VERSION_1_0_SIZE_1B LLAMACPP FP16 w) = Raise e /\
               is_Exception e = true) /\
  (forall e, out r = Raise e ->
     out (TTSHandler_init VERSION_1_0_SIZE_1B LLAMACPP FP16 w) = Raise e /\
     is_Exception e = false).
Proof.
  cbv zeta.
  set (body := (h <- TTSHandler_init VERSION_1_0_SIZE_1B LLAMACPP FP16;; ret (Some h))).
  set (handler := fun e : exn =>
       print ("FATAL: Failed to initialize TTS Handler: " +:+ exn_msg e);;
       print "Please check your outetts installation, model downloads, and configurations.";;
       ret (@None TTSHandler)).
  assert (Hq : forall p, (forall l s, p (EvLog l s) = false) ->
                 (forall s, p (EvPrint s) = false) ->
                 (forall ev, is_initialization ev = true -> p ev = false) ->
                 quiet p (try_except body (except_Exception handler))).
  { intros p Hl Hp Hi. apply quiet_try.
    - apply quiet_bind; [apply TTSHandler_init_quiet; assumption | intros ?; apply quiet_ret].
    - apply quiet_except_Exception. intros e. unfold handler. quiet_tac. }
  assert (Hcount : forall p, (forall s, p (EvPrint s) = false) ->
                     count_ev p (evs (try_except body (except_Exception handler) w))
                     = count_ev p (evs (TTSHandler_init VERSION_1_0_SIZE_1B LLAMACPP FP16 w))).
  { intros p Hp. rewrite count_try_quiet.
    - unfold body. apply count_bind_quiet. intros ?. apply quiet_ret.
    - apply quiet_except_Exception. intros e. unfold handler. quiet_tac. }
  assert (Hbody : out (body w) =
                  match out (TTSHandler_init VERSION_1_0_SIZE_1B LLAMACPP FP16 w) with
                  | Ret h => Ret (Some h)
                  | Raise e => Raise e
                  end).
  { unfold body, bind. destruct (out (TTSHandler_init _ _ _ w)); reflexivity. }
  split; [apply (quiet_Forall is_startup_effect), Hq; first [reflexivity | intros [] H; first [discriminate H | reflexivity]]|].
  split; [apply Hq; first [reflexivity | intros [] H; first [discriminate H | reflexivity]]|].
  pose proof (TTSHandler_init_cases VERSION_1_0_SIZE_1B LLAMACPP FP16 w) as Hcases.
  pose proof (count_initialization_split
                (evs (TTSHandler_init VERSION_1_0_SIZE_1B LLAMACPP FP16 w))) as Hsplit.
  cbv zeta in Hcases.
  rewrite !Hcount by reflexivity.
  split; [|split; [|split]].
  1-3: destruct Hcases
      as [(e & w1 & _ & Hn & Ha & _)
         | [(c & w1 & e & w2 & _ & _ & Hn & Ha & Hf & _)
           | (c & w1 & i & w2 & o & w3 & _ & _ & _ & Hn & Ha & Hf & Hsc & _)]]; lia.
  destruct (try_Exception_cases body handler w)
    as [(a & Ho & Hr) | [(e & Ho & He & Hr) | (e & Ho & He & Hr)]];
    cbv zeta in Hr; rewrite Hr; clear Hr; rewrite ?Ho; cbn [prepend out];
    rewrite Hbody in Ho;
    destruct (out (TTSHandler_init VERSION_1_0_SIZE_1B LLAMACPP FP16 w)) as [h0|e0];
    try discriminate; injection Ho as <-.
  - split; [intros h [= <-]; reflexivity|]. split; [discriminate | discriminate].
  - split; [discriminate|]. split; [discriminate|]. intros e' [= <-]. auto.
  - split; [discriminate|]. split; [eauto | discriminate].
Qed.

(** The events of [main] before its loop, and whether the loop is
    entered: it is with a handler that has its interface and sampler
    configuration, and a configuration that is an object. *)
Lemma main_startup fuel w :
  exists pre,
    Forall (fun ev => is_startup_effect ev = true) pre /\
    count_ev is_json_load pre <= 1 /\
    count_ev is_auto_config pre <= 1 /\
    count_ev is_interface_construction pre <= 1 /\
    count_ev is_sampler_construction pre <= 1 /\
    ((evs (main fuel w) = pre /\ out (main fuel w) <> Ret OutOfFuel) \/
     (exists h i sc d w',
        interface h = Some i /\ sampler_config h = Some sc /\
        main fuel w = prepend pre (main_loop fuel h (PDict d) w'))).
Proof.
  set (r0 := ensure_cache_dir w).
  assert (H0all : Forall (fun ev => is_startup_effect ev = true) (evs r0))
    by (apply (quiet_Forall is_startup_effect), ensure_cache_dir_quiet; reflexivity).
  assert (H0 : forall p, (forall l m, p (EvLog l m) = false) ->
                 (forall d, p (EvMakedirs d) = false) -> count_ev p (evs r0) = 0)
    by (intros p Hl Hm; apply ensure_cache_dir_quiet; assumption).
  pose proof (H0 is_json_load ltac:(reflexivity) ltac:(reflexivity)) as H0j.
  pose proof (H0 is_auto_config ltac:(reflexivity) ltac:(reflexivity)) as H0a.
  pose proof (H0 is_interface_construction ltac:(reflexivity) ltac:(reflexivity)) as H0i.
  pose proof (H0 is_sampler_construction ltac:(reflexivity) ltac:(reflexivity)) as H0s.
  clear H0.
  unfold main. fold r0.
  destruct (out r0) as [[|]|e] eqn:Hr0.
  3: { exists (evs r0). unfold r0 in Hr0 |- *. rewrite (bind_Raise _ _ _ _ Hr0). fold r0.
       repeat (split; [first [assumption | lia]|]). left. split; [reflexivity | discriminate]. }
  2: { exists (evs r0 ++ [EvPrint "Failed to create cache directory. Exiting."])%list.
       unfold r0 in Hr0 |- *. rewrite (bind_Ret _ _ _ _ Hr0). fold r0.
       split; [apply Forall_app; split; [assumption | repeat constructor]|].
       rewrite !count_ev_app. cbn [count_ev is_json_load is_auto_config
         is_interface_construction is_sampler_construction].
       repeat (split; [lia|]). left. split; [reflexivity | discriminate]. }
  unfold r0 in Hr0. rewrite (bind_Ret _ _ _ _ Hr0). fold r0. cbn [negb].
  rewrite bind_print. cbn beta.
  destruct (main_init_try (world r0)) as (H1all & H1j & H1a & H1i & H1s & H1h & _ & _).
  cbv zeta in H1all, H1j, H1a, H1i, H1s, H1h.
  set (try1 := try_except _ _) in *.
  set (r1 := try1 (world r0)) in *.
  set (P1 := EvPrint "Initializing TTS Handler (this might take a while)...").
  assert (Hpre1 : Forall (fun ev => is_startup_effect ev = true) (evs r0 ++ [P1] ++ evs r1))
    by (apply Forall_app; split; [assumption|];
        apply Forall_app; split; [repeat constructor | assumption]).
  assert (Hc1 : forall p, p P1 = false ->
            count_ev p (evs r0 ++ [P1] ++ evs r1) = count_ev p (evs r0) + count_ev p (evs r1)).
  { intros p Hp. rewrite !count_ev_app. cbn [count_ev]. rewrite Hp. lia. }
  destruct (out r1) as [[h|]|e] eqn:Hr1.
  3: { exists (evs r0 ++ [P1] ++ evs r1)%list.
       unfold r1 in Hr1. rewrite (bind_Raise _ _ _ _ Hr1). fold r1.
       split; [assumption|]. rewrite !Hc1 by reflexivity.
       repeat (split; [lia|]). left. split; [reflexivity | discriminate]. }
  2: { exists (evs r0 ++ [P1] ++ evs r1)%list.
       unfold r1 in Hr1. rewrite (bind_Ret _ _ _ _ Hr1). fold r1.
       split; [assumption|]. rewrite !Hc1 by reflexivity.
       repeat (split; [lia|]). left.
       split; [cbn; rewrite app_nil_r; reflexivity | discriminate]. }
  pose proof (H1h h eq_refl) as Hinit.
  unfold r1 in Hr1. rewrite (bind_Ret _ _ _ _ Hr1). fold r1.
  destruct (TTSHandler_init_cases VERSION_1_0_SIZE_1B LLAMACPP FP16 (world r0))
    as [(e & w1 & _ & _ & _ & Hout)
       | [(c & w1 & e & w2 & _ & _ & _ & _ & _ & Hout)
         | (c & w1 & i & w2 & o & w3 & _ & _ & _ & _ & _ & _ & _ & Hout)]];
    cbv zeta in Hout; rewrite Hinit in Hout.
  1-2: destruct (is_Exception e); [|discriminate]; injection Hout as ->; cbn [interface].
  1-2: exists (evs r0 ++ [P1] ++ evs r1 ++
               [EvPrint "FATAL: TTS Interface could not be initialized (check logs for details). Exiting."])%list.
  1-2: split; [rewrite !app_assoc; apply Forall_app; split;
                 [rewrite <- !app_assoc; assumption | repeat constructor]|].
  1-2: rewrite !count_ev_app; unfold P1; cbn [count_ev is_json_load is_auto_config
         is_interface_construction is_sampler_construction];
       repeat (split; [lia|]); left; split; [reflexivity | discriminate].
  destruct o as [sc|e]; [|discriminate]. injection Hout as ->. cbn [interface].
  rewrite !bind_print. cbn beta.
  set (r2 := load_config (world r1)).
  assert (H2all : Forall (fun ev => is_startup_effect ev = true) (evs r2))
    by (apply (quiet_Forall is_startup_effect), load_config_quiet; reflexivity).
  assert (H2j : count_ev is_json_load (evs r2) <= 1)
    by (unfold r2; rewrite load_config_count_json;
        destruct (fs_exists (world r1) CONFIG_FILE); lia).
  assert (H2 : forall p, (forall l m, p (EvLog l m) = false) ->
                 (forall f, p (EvJsonLoad f) = false) -> count_ev p (evs r2) = 0)
    by (intros p Hl Hm; apply load_config_quiet; assumption).
  pose proof (H2 is_auto_config ltac:(reflexivity) ltac:(reflexivity)) as H2a.
  pose proof (H2 is_interface_construction ltac:(reflexivity) ltac:(reflexivity)) as H2i.
  pose proof (H2 is_sampler_construction ltac:(reflexivity) ltac:(reflexivity)) as H2s.
  clear H2.
  set (P2 := EvPrint (nl +:+ "Simple Speak App (using OuteTTS)")).
  set (P3 := EvPrint "Type 'quit' or 'exit' to stop.").
  exists (evs r0 ++ [P1] ++ evs r1 ++ [P2; P3] ++ evs r2)%list.
  split.
  { repeat (apply Forall_app; split); first [assumption | repeat constructor]. }
  rewrite !count_ev_app. unfold P1, P2, P3. cbn [count_ev is_json_load is_auto_config
    is_interface_construction is_sampler_construction].
  repeat (split; [lia|]).
  destruct (out r2) as [cfg|e] eqn:Hr2.
  - destruct (load_config_returns_object _ _ Hr2) as (d & -> & _).
    right. exists {| interface := Some i; sampler_config := Some sc |}, i, sc, d, (world r2).
    split; [reflexivity|]. split; [reflexivity|].
    unfold r2 in Hr2. rewrite (bind_Ret _ _ _ _ Hr2). fold r2.
    rewrite !prepend_prepend. rewrite <- !app_assoc. reflexivity.
  - left. unfold r2 in Hr2. rewrite (bind_Raise _ _ _ _ Hr2). fold r2.
    split; [cbn [prepend evs]; rewrite <- ?app_assoc; reflexivity | discriminate].
Qed.

(** ** Counting over a run *)

Lemma synthesize_and_play_counts h cfg line w :
  let r := synthesize_and_play h cfg line w in
  count_ev is_playsound (evs r) <= count_ev is_save (evs r) /\
  count_ev is_save (evs r) <= 1.
Proof.
  cbv zeta. unfold synthesize_and_play.
  destruct (datetime_now w) as [t w2] eqn:Hclock.
  rewrite (bind_call_Ret _ _ _ _ t w2) by (rewrite Hclock; reflexivity).
  cbv zeta. rewrite bind_log. cbn beta.
  destruct (py_get cfg "speaker_id") as [sid|e];
    [rewrite bind_lift_Ret | rewrite bind_lift_Raise; cbn; lia].
  destruct (py_get cfg "voice_file") as [vf|e];
    [rewrite bind_lift_Ret | rewrite bind_lift_Raise; cbn; lia].
  set (rs := speak h line (output_path_at t) sid vf w2).
  destruct (speak_save_once h line (output_path_at t) sid vf w2) as [Hle _]. fold rs in Hle.
  assert (Hplay : count_ev is_playsound (evs rs) = 0)
    by (apply (speak_quiet is_playsound); reflexivity).
  destruct (out rs) as [[|]|e] eqn:Hrs.
  - destruct (speak_true_inv _ _ _ _ _ _ Hrs)
      as (i & sc & sp & src & w3 & l & c & a & w4 & w5 & w6 & Hinv).
    assert (Hone : count_ev is_save (evs rs) = 1) by (subst rs; tauto).
    destruct (play_audio_events (output_path_at t) (world rs)) as (Hp & _ & Hs & _).
    cbv zeta in Hp, Hs.
    unfold rs in Hrs. rewrite (bind_Ret _ _ _ _ Hrs). fold rs.
    assert (Hrest : forall q,
              count_ev q (evs ((play_audio (output_path_at t);; ret Continue) (world rs)))
              = count_ev q (evs (play_audio (output_path_at t) (world rs))))
      by (intros q; apply count_bind_quiet; intros ?; apply quiet_ret).
    cbn [prepend evs]. rewrite !count_ev_app, !Hrest, Hp, Hs, Hone, Hplay.
    cbn [count_ev is_save is_playsound].
    destruct (fs_exists (world rs) (output_path_at t)); lia.
  - unfold rs in Hrs. rewrite (bind_Ret _ _ _ _ Hrs). fold rs.
    cbn [prepend evs]. rewrite !count_ev_app, Hplay. cbn. lia.
  - unfold rs in Hrs. rewrite (bind_Raise _ _ _ _ Hrs). fold rs.
    cbn [prepend evs]. rewrite !count_ev_app, Hplay. cbn. lia.
Qed.

(** A pass prompts once, saves at most one file and plays only a file
    it has saved. *)
Lemma loop_body_counts h cfg w :
  let r := loop_body h cfg w in
  count_ev is_input (evs r) = 1 /\
  count_ev is_playsound (evs r) <= count_ev is_save (evs r) /\
  count_ev is_save (evs r) <= 1.
Proof.
  cbv zeta. unfold loop_body.
  rewrite !count_try_quiet
    by (intros e k; apply loop_except_quiet; reflexivity).
  split.
  - unfold loop_try. rewrite count_bind_quiet.
    + unfold call. destruct (input PROMPT w). reflexivity.
    + intros line. apply loop_after_input_quiet. auto.
  - destruct (input PROMPT w) as [[line|e] w1] eqn:Hin.
    + rewrite (loop_try_input_Ret _ _ _ _ _ Hin). cbn [prepend evs].
      rewrite !count_ev_app. cbn [count_ev is_save is_playsound].
      destruct (existsb _ _); [cbn; lia|].
      destruct (negb _); [cbn; lia|].
      apply synthesize_and_play_counts.
    + rewrite (loop_try_input_Raise _ _ _ _ _ Hin). cbn. lia.
Qed.

Lemma main_loop_counts fuel h cfg w :
  let r := main_loop fuel h cfg w in
  count_ev is_playsound (evs r) <= count_ev is_save (evs r) /\
  count_ev is_save (evs r) <= count_ev is_input (evs r) /\
  count_ev is_input (evs r) <= fuel.
Proof.
  cbv zeta. revert w. induction fuel as [|fuel IH]; intros w; [cbn; lia|].
  rewrite main_loop_step.
  destruct (loop_body_counts h cfg w) as (Hi & Hp & Hs). cbv zeta in Hi, Hp, Hs.
  destruct (out (loop_body h cfg w)) as [[|]|e]; cbn [prepend evs].
  - specialize (IH (world (loop_body h cfg w))). rewrite !count_ev_app. lia.
  - lia.
  - lia.
Qed.

(** X17.  In a run of [main], and in any run of its loop, there are no
    more calls of [playsound] than calls of [save] (counted whether or
    not they return), no more calls of [save] than prompts, and no more
    prompts than passes through the loop. *)
Theorem main_playback_saved_prompted :
  (forall fuel h cfg w,
     let r := main_loop fuel h cfg w in
     count_ev is_playsound (evs r) <= count_ev is_save (evs r) /\
     count_ev is_save (evs r) <= count_ev is_input (evs r) /\
     count_ev is_input (evs r) <= fuel) /\
  (forall fuel w,
     let r := main fuel w in
     count_ev is_playsound (evs r) <= count_ev is_save (evs r) /\
     count_ev is_save (evs r) <= count_ev is_input (evs r) /\
     count_ev is_input (evs r) <= fuel).
Proof.
  split; [apply main_loop_counts|]. intros fuel w. cbv zeta.
  destruct (main_startup fuel w)
    as (pre & Hpre & _ & _ & _ & _ & [(Hevs & _) | (h & i & sc & d & w' & _ & _ & Hmain)]).
  - rewrite Hevs.
    rewrite !(Forall_count_zero _ is_startup_effect pre) by
      first [assumption | intros [] H; first [discriminate H | reflexivity]].
    lia.
  - rewrite Hmain. cbn [prepend evs]. rewrite !count_ev_app.
    rewrite !(Forall_count_zero _ is_startup_effect pre) by
      first [assumption | intros [] H; first [discriminate H | reflexivity]].
    apply main_loop_counts.
Qed.

(** X18.  A run of [main] is a start followed by the loop: the start
    only logs, prints, makes the cache directory, constructs the engine
    and reads the configuration; what follows are only effects of the
    loop.  So the configuration is read at most once and each part of the
    engine constructed at most once in a run, all before the first line
    is asked for; and the loop never reads the configuration or
    constructs anything of the engine. *)
Theorem main_start_then_loop fuel w :
  (exists pre post,
     evs (main fuel w) = (pre ++ post)%list /\
     Forall (fun ev => is_startup_effect ev = true) pre /\
     Forall (fun ev => is_loop_effect ev = true) post) /\
  count_ev is_json_load (evs (main fuel w)) <= 1 /\
  count_ev is_auto_config (evs (main fuel w)) <= 1 /\
  count_ev is_interface_construction (evs (main fuel w)) <= 1 /\
  count_ev is_sampler_construction (evs (main fuel w)) <= 1 /\
  (forall h cfg w',
     count_ev is_json_load (evs (main_loop fuel h cfg w')) = 0 /\
     count_ev is_initialization (evs (main_loop fuel h cfg w')) = 0).
Proof.
  assert (Hloop : forall h cfg w',
            Forall (fun ev => is_loop_effect ev = true) (evs (main_loop fuel h cfg w'))).
  { intros h cfg w'. apply (quiet_Forall is_loop_effect), main_loop_quiet.
    intros ev ->. reflexivity. }
  assert (Hzero : forall p h cfg w',
            (forall ev, is_loop_effect ev = true -> p ev = false) ->
            count_ev p (evs (main_loop fuel h cfg w')) = 0).
  { intros p h cfg w' Hp. apply main_loop_quiet, Hp. }
  destruct (main_startup fuel w)
    as (pre & Hpre & Hj & Ha & Hi & Hs &
        [(Hevs & _) | (h & i & sc & d & w' & _ & _ & Hmain)]).
  - rewrite Hevs. split; [exists pre, []; rewrite app_nil_r; auto|].
    repeat (split; [assumption|]).
    intros h cfg w'. split; apply Hzero; intros [] H; first [discriminate H | reflexivity].
  - rewrite Hmain. cbn [prepend evs]. split; [exists pre, (evs (main_loop fuel h (PDict d) w')); auto|].
    rewrite !count_ev_app.
    rewrite !(Hzero _ h (PDict d) w') by
      (intros [] H; first [discriminate H | reflexivity]).
    repeat (split; [lia|]).
    intros h' cfg w''. split; apply Hzero; intros [] H; first [discriminate H | reflexivity].
Qed.

(** [main] once the cache directory is there. *)
Lemma main_after_cache fuel w :
  out (ensure_cache_dir w) = Ret true ->
  let w1 := world (ensure_cache_dir w) in
  let ri := TTSHandler_init VERSION_1_0_SIZE_1B LLAMACPP FP16 w1 in
  main fuel w =
  prepend (evs (ensure_cache_dir w) ++
           [EvPrint "Initializing TTS Handler (this might take a while)..."])
    match out ri with
    | Ret h =>
        prepend (evs ri)
          match interface h with
          | None =>
              Res (Ret Returned) (world ri)
                [EvPrint "FATAL: TTS Interface could not be initialized (check logs for details). Exiting."]
          | Some _ =>
              prepend [EvPrint (nl +:+ "Simple Speak App (using OuteTTS)");
                       EvPrint "Type 'quit' or 'exit' to stop."]
                ((config <- load_config;; main_loop fuel h config) (world ri))
          end
    | Raise e =>
        if is_Exception e then
          Res (Ret Returned) (world ri)
            (evs ri ++
             [EvPrint ("FATAL: Failed to initialize TTS Handler: " +:+ exn_msg e);
              EvPrint "Please check your outetts installation, model downloads, and configurations."])
        else Res (Raise e) (world ri) (evs ri)
    end.
Proof.
  intros H0. cbv zeta. unfold main. rewrite (bind_Ret _ _ _ _ H0). cbn [negb].
  rewrite bind_print. cbn beta. rewrite prepend_prepend. f_equal.
  set (w1 := world (ensure_cache_dir w)).
  set (ri := TTSHandler_init VERSION_1_0_SIZE_1B LLAMACPP FP16 w1).
  match goal with |- context [try_except ?b ?k] => set (body := b); set (handlers := k) end.
  destruct (out ri) as [h|e] eqn:Hri.
  - assert (Ht : try_except body handlers w1 = Res (Ret (Some h)) (world ri) (evs ri)).
    { unfold try_except, body, bind. fold ri. rewrite Hri. unfold prepend, ret.
      cbn [out world evs]. rewrite app_nil_r. reflexivity. }
    rewrite (bind_Ret _ _ _ (Some h)) by (rewrite Ht; reflexivity). rewrite Ht.
    cbn [world evs]. destruct (interface h); [|reflexivity].
    rewrite !bind_print. cbn beta. rewrite !prepend_prepend, <- !app_assoc. reflexivity.
  - assert (Hb : body w1 = Res (Raise e) (world ri) (evs ri)).
    { unfold body, bind. fold ri. rewrite Hri. reflexivity. }
    unfold bind at 1, try_except. rewrite Hb. cbn [out world evs].
    unfold handlers, except_Exception. clearbody ri w1.
    destruct (is_Exception e); [|reflexivity]. cbn. unfold prepend, ret.
    cbn [out world evs]. rewrite ?app_nil_r. reflexivity.
Qed.

(** X19.  [main] gives up before its loop, returning normally, in three
    cases: the cache directory could not be made (the engine is then not
    even constructed), the handler came back without an interface, or
    [__init__] raised an error.  Each time the last thing printed says
    which, and no line is asked for, no configuration read and the
    engine never called for a speaker or for audio. *)
Theorem main_gives_up_before_loop fuel w :
  let r0 := ensure_cache_dir w in
  let ri := TTSHandler_init VERSION_1_0_SIZE_1B LLAMACPP FP16 (world r0) in
  let r := main fuel w in
  let nothing_spoken :=
    count_ev is_input (evs r) = 0 /\ count_ev is_json_load (evs r) = 0 /\
    count_ev is_engine_call (evs r) = 0 in
  (out r0 = Ret false ->
     out r = Ret Returned /\
     evs r = (evs r0 ++ [EvPrint "Failed to create cache directory. Exiting."])%list /\
     count_ev is_initialization (evs r) = 0 /\ nothing_spoken) /\
  (forall h, out r0 = Ret true -> out ri = Ret h -> interface h = None ->
     out r = Ret Returned /\
     (exists l, evs r =
        (l ++ [EvPrint "FATAL: TTS Interface could not be initialized (check logs for details). Exiting."])%list) /\
     nothing_spoken) /\
  (forall e, out r0 = Ret true -> out ri = Raise e -> is_Exception e = true ->
     out r = Ret Returned /\
     (exists l, evs r =
        (l ++ [EvPrint ("FATAL: Failed to initialize TTS Handler: " +:+ exn_msg e);
               EvPrint "Please check your outetts installation, model downloads, and configurations."])%list) /\
     nothing_spoken).
Proof.
  cbv zeta.
  assert (H0 : forall p, (forall l m, p (EvLog l m) = false) ->
                 (forall d, p (EvMakedirs d) = false) ->
                 count_ev p (evs (ensure_cache_dir w)) = 0)
    by (intros p Hl Hm; apply ensure_cache_dir_quiet; assumption).
  assert (Hi : forall p w1, (forall l m, p (EvLog l m) = false) ->
                 (forall ev, is_initialization ev = true -> p ev = false) ->
                 count_ev p (evs (TTSHandler_init VERSION_1_0_SIZE_1B LLAMACPP FP16 w1)) = 0)
    by (intros p w1 Hl Hm; apply TTSHandler_init_quiet; assumption).
  split; [|split].
  - intros Hr0. unfold main. rewrite (bind_Ret _ _ _ _ Hr0). cbn [negb prepend out evs].
    split; [reflexivity|]. split; [reflexivity|].
    rewrite !count_ev_app, !H0 by reflexivity. repeat split.
  - intros h Hr0 Hri Hnone. rewrite (main_after_cache _ _ Hr0). cbv zeta.
    rewrite Hri, Hnone. cbn [prepend out evs].
    split; [reflexivity|]. split; [eexists; rewrite !app_assoc; reflexivity|].
    rewrite !count_ev_app, !H0 by reflexivity.
    rewrite !Hi by first [reflexivity | intros [] H; first [discriminate H | reflexivity]].
    repeat split.
  - intros e Hr0 Hri He. rewrite (main_after_cache _ _ Hr0). cbv zeta.
    rewrite Hri, He. cbn [prepend out evs].
    split; [reflexivity|]. split; [eexists; rewrite !app_assoc; reflexivity|].
    rewrite !count_ev_app, !H0 by reflexivity.
    rewrite !Hi by first [reflexivity | intros [] H; first [discriminate H | reflexivity]].
    repeat split.
Qed.

(** ** The time stamp in the name of the output file *)

Lemma read_decimal_zeros k s : read_decimal (zeros k +:+ s) = read_decimal s.
Proof.
  induction k as [|k IH]; [reflexivity|].
  change (zeros (S k) +:+ s) with (String "0" (zeros k +:+ s)).
  rewrite <- IH. unfold read_decimal. cbn [NilEmpty.uint_of_string].
  destruct (NilEmpty.uint_of_string (zeros k +:+ s)) as [d|]; reflexivity.
Qed.

(** A zero-filled number reads back as that number, whatever the width. *)
Lemma read_decimal_zfill width n : read_decimal (zfill width n) = Some n.
Proof.
  unfold zfill. cbv zeta. rewrite read_decimal_zeros. unfold read_decimal.
  rewrite NilEmpty.usu. cbn [option_map]. f_equal.
  apply DecimalNat.Unsigned.of_to.
Qed.

Lemma zfill_inj width n m : zfill width n = zfill width m -> n = m.
Proof.
  intros H. apply (f_equal read_decimal) in H.
  rewrite !read_decimal_zfill in H. congruence.
Qed.

Lemma zfill_length_below width bound :
  forallb (fun n => Nat.eqb (String.length (zfill width n)) width) (seq 0 bound) = true ->
  forall n, n < bound -> String.length (zfill width n) = width.
Proof.
  intros H n Hn. rewrite forallb_forall in H.
  apply Nat.eqb_eq, H, in_seq. lia.
Qed.

Lemma zfill_length_2 n : n < 100 -> String.length (zfill 2 n) = 2.
Proof. apply zfill_length_below. vm_compute. reflexivity. Qed.

Lemma zfill_length_4 n : n < 100 * 100 -> String.length (zfill 4 n) = 4.
Proof. apply zfill_length_below. vm_compute. reflexivity. Qed.

Lemma string_app_length a b :
  String.length (a +:+ b) = String.length a + String.length b.
Proof.
  induction a as [|c a IH]; [reflexivity|].
  change (S (String.length (a +:+ b)) = S (String.length a + String.length b)).
  f_equal. exact IH.
Qed.

Lemma string_app_inj a a' b b' :
  String.length a = String.length a' -> a +:+ b = a' +:+ b' -> a = a' /\ b = b'.
Proof.
  revert a'. induction a as [|c a IH]; intros [|c' a']; cbn; try discriminate.
  - auto.
  - intros [= Hlen] [= -> Heq]. destruct (IH a' Hlen Heq) as [-> ->]. auto.
Qed.

Lemma string_sep_inj (c : ascii) a b : String c "" +:+ a = String c "" +:+ b -> a = b.
Proof. intros H. change (String c a = String c b) in H. congruence. Qed.

(** For clock values with a year of four digits the stamp has 19
    characters, and two clock values have the same stamp only if they
    are the same. *)
Lemma strftime_stamp_injective t1 t2 :
  datetime_valid t1 -> datetime_valid t2 ->
  String.length (strftime_stamp t1) = 19 /\
  (strftime_stamp t1 = strftime_stamp t2 -> t1 = t2).
Proof.
  intros (Hy1 & Hm1 & Hd1 & Hh1 & Hmi1 & Hs1) (Hy2 & Hm2 & Hd2 & Hh2 & Hmi2 & Hs2).
  destruct t1 as [y1 m1 d1 h1 mi1 s1], t2 as [y2 m2 d2 h2 mi2 s2].
  cbn [year month day hour minute second] in *. unfold strftime_stamp.
  cbn [year month day hour minute second].
  pose proof (zfill_length_4 y1 ltac:(lia)) as Ly1.
  pose proof (zfill_length_4 y2 ltac:(lia)) as Ly2.
  pose proof (zfill_length_2 m1 ltac:(lia)) as Lm1.
  pose proof (zfill_length_2 m2 ltac:(lia)) as Lm2.
  pose proof (zfill_length_2 d1 ltac:(lia)) as Ld1.
  pose proof (zfill_length_2 d2 ltac:(lia)) as Ld2.
  pose proof (zfill_length_2 h1 ltac:(lia)) as Lh1.
  pose proof (zfill_length_2 h2 ltac:(lia)) as Lh2.
  pose proof (zfill_length_2 mi1 ltac:(lia)) as Lmi1.
  pose proof (zfill_length_2 mi2 ltac:(lia)) as Lmi2.
  pose proof (zfill_length_2 s1 ltac:(lia)) as Ls1.
  split.
  - rewrite !string_app_length, Ly1, Lm1, Ld1, Lh1, Lmi1, Ls1. reflexivity.
  - intros H.
    apply string_app_inj in H; [|congruence]. destruct H as [Hy H].
    apply string_sep_inj in H. apply string_app_inj in H; [|congruence]. destruct H as [Hm H].
    apply string_sep_inj in H. apply string_app_inj in H; [|congruence]. destruct H as [Hd H].
    apply string_sep_inj in H. apply string_app_inj in H; [|congruence]. destruct H as [Hh H].
    apply string_sep_inj in H. apply string_app_inj in H; [|congruence]. destruct H as [Hmi H].
    apply string_sep_inj in H.
    apply zfill_inj in Hy, Hm, Hd, Hh, Hmi, H. congruence.
Qed.

(** A pass saves nowhere but at the path named after the clock value it
    read. *)
Lemma synthesize_and_play_save_path h cfg line w a p :
  In (EvSave a p) (evs (synthesize_and_play h cfg line w)) ->
  p = output_path_at (fst (datetime_now w)).
Proof.
  unfold synthesize_and_play.
  destruct (datetime_now w) as [t w2] eqn:Hclock. cbn [fst].
  rewrite (bind_call_Ret _ _ _ _ t w2) by (rewrite Hclock; reflexivity).
  cbv zeta. rewrite bind_log. cbn beta.
  destruct (py_get cfg "speaker_id") as [sid|e];
    [rewrite bind_lift_Ret | rewrite bind_lift_Raise; cbn; intuition discriminate].
  destruct (py_get cfg "voice_file") as [vf|e];
    [rewrite bind_lift_Ret | rewrite bind_lift_Raise; cbn; intuition discriminate].
  destruct (speak_save_once h line (output_path_at t) sid vf w2) as [_ Hpath].
  cbn [prepend evs]. rewrite !in_app_iff.
  intros [H | [H | H]]; [cbn in H; intuition discriminate | cbn in H; intuition discriminate |].
  apply bind_In_inv in H. destruct H as [H | [success H]]; [exact (Hpath _ _ H)|].
  exfalso. revert H. apply (count_ev_zero_not_In is_save); [|reflexivity].
  apply quiet_bind; [|intros ?; apply quiet_ret].
  apply quiet_if; [apply play_audio_quiet; reflexivity | quiet_tac].
Qed.

(** X20.  When [os.path.join] with the cache directory gives different
    paths for different file names (as [posixpath.join] does), the path
    of lines 106-108 determines the clock value it was made from, for
    clock values with a year of four digits; and two passes of the loop
    that call [save] with the same path have read the same clock value,
    to the second. *)
Theorem output_path_at_injective :
  (forall f g : string, os_path_join CACHE_DIR f = os_path_join CACHE_DIR g -> f = g) ->
  (forall t1 t2,
     datetime_valid t1 -> datetime_valid t2 ->
     output_path_at t1 = output_path_at t2 -> t1 = t2) /\
  (forall h1 cfg1 line1 w1 a1 h2 cfg2 line2 w2 a2 p,
     datetime_valid (fst (datetime_now w1)) -> datetime_valid (fst (datetime_now w2)) ->
     In (EvSave a1 p) (evs (synthesize_and_play h1 cfg1 line1 w1)) ->
     In (EvSave a2 p) (evs (synthesize_and_play h2 cfg2 line2 w2)) ->
     fst (datetime_now w1) = fst (datetime_now w2)).
Proof.
  intros Hjoin.
  assert (Hpath : forall t1 t2, datetime_valid t1 -> datetime_valid t2 ->
                    output_path_at t1 = output_path_at t2 -> t1 = t2).
  { intros t1 t2 H1 H2 Heq. unfold output_path_at in Heq. apply Hjoin in Heq.
    destruct (strftime_stamp_injective t1 t2 H1 H2) as (L1 & Hinj).
    destruct (strftime_stamp_injective t2 t1 H2 H1) as (L2 & _).
    apply Hinj. apply string_app_inj in Heq; [tauto | congruence]. }
  split; [exact Hpath|].
  intros h1 cfg1 line1 w1 a1 h2 cfg2 line2 w2 a2 p H1 H2 Hin1 Hin2.
  apply synthesize_and_play_save_path in Hin1, Hin2.
  apply Hpath; congruence.
Qed.

End Theory.

(* ===================================================================== *)
(** * Runs in the concrete world                                          *)
(* ===================================================================== *)

#[local] Existing Instance Demo.ext.

Example lower_QUIT : lower "QuIt" = "quit".
Proof. reflexivity. Qed.

Example stamp_of_morning : strftime_stamp Demo.morning = "2025-04-09_07-30-05".
Proof. reflexivity. Qed.

Example path_of_morning : output_path_at Demo.morning = "cache/2025-04-09_07-30-05.wav".
Proof. reflexivity. Qed.

(** A call with a voice file, event by event. *)
Example speak_with_sample :
  speak Demo.handler "hello" "cache/a.wav" PNone (PStr "me.wav") Demo.fine
  = Res (Ret true)
        (Demo.with_files Demo.fine ["cache/a.wav"; "cache"; "config.json"; "me.wav"])
        [EvLog INFO "Attempting voice cloning from: me.wav";
         EvCreateSpeaker (PStr "me.wav");
         EvLog INFO "Speaker profile created successfully from file.";
         EvGenerationConfig "hello" 7 tt;
         EvLog INFO "Generating speech using speaker source: [Cloned File (me.wav)] for text: 'hello...'";
         EvGenerate ("hello", 7);
         EvSave "hello" "cache/a.wav";
         EvLog INFO "Speech generated and saved to: cache/a.wav"].
Proof. vm_compute. reflexivity. Qed.

(** [create_speaker] returning [None] without raising is not a success:
    the identifier step runs. *)
Example speak_clone_returns_None :
  let r := speak Demo.handler "hello" "cache/a.wav" PNone (PStr "me.wav")
                 (Demo.with_cloning Demo.fine (Ret None)) in
  count_ev is_create_speaker (evs r) = 1 /\
  In (EvLoadDefaultSpeaker (PStr DEFAULT_VOICE)) (evs r) /\
  In (EvGenerationConfig "hello" 1 tt) (evs r).
Proof. vm_compute. tauto. Qed.

(** A whole run of [main]: one line is spoken and played, [quit] ends it. *)
Example main_hello_quit :
  let r := main 5 Demo.fine in
  out r = Ret Returned /\
  count_ev is_save (evs r) = 1 /\ count_ev is_playsound (evs r) = 1 /\
  In (EvPlaysound "cache/2025-04-09_07-30-05.wav") (evs r).
Proof. vm_compute. tauto. Qed.

(** On end of input [input] raises [EOFError] on every pass, the loop
    catches it and goes on: the run is cut by the bound, not by [main]. *)
Example main_end_of_input :
  out (main 5 (Demo.with_stdin Demo.fine [])) = Ret OutOfFuel.
Proof. vm_compute. reflexivity. Qed.

(* ===================================================================== *)
(** * The properties at concrete inputs                                   *)
(* ===================================================================== *)

(** C1 at the sample [me.wav], cloned as speaker 7. *)
Lemma speak_valid_voice_file_uses_clone_witness :
  count_ev is_load_default_speaker
    (evs (speak Demo.handler "hello" "cache/a.wav" PNone (PStr "me.wav") Demo.fine)) = 0 /\
  In (EvGenerationConfig "hello" 7 tt)
    (evs (speak Demo.handler "hello" "cache/a.wav" PNone (PStr "me.wav") Demo.fine)).
Proof.
  pose proof (speak_valid_voice_file_uses_clone Demo.handler tt tt "hello" "cache/a.wav"
                PNone Demo.fine eq_refl eq_refl ltac:(discriminate) ltac:(discriminate)
                eq_refl "me.wav" 7 Demo.fine eq_refl eq_refl) as H.
  cbv zeta in H. destruct H as (_ & Hload & _ & Hin & _). split; assumption.
Defined.

(** C2 as stated fails: [load_default_speaker] raises for the determined
    identifier, a [KeyboardInterrupt], and [speak] does not return
    [False]: it raises. *)
Lemma speak_identifier_interrupt_is_raised :
  fst (load_default_speaker tt (determined_id (PStr "EN-MALE-9")) Demo.builtin_interrupted)
    = Raise Demo.ctrl_c /\
  out (speak Demo.handler "hello" "cache/a.wav" (PStr "EN-MALE-9") PNone
         Demo.builtin_interrupted)
    = Raise Demo.ctrl_c /\
  out (speak Demo.handler "hello" "cache/a.wav" (PStr "EN-MALE-9") PNone
         Demo.builtin_interrupted)
    <> Ret false.
Proof. vm_compute. repeat split. discriminate. Qed.

(** C2, amended, with a provided identifier the engine refuses, and with
    the same identifier when Ctrl-C arrives instead. *)
Lemma speak_failed_identifier_is_final_witness :
  out (speak Demo.handler "hello" "cache/a.wav" (PStr "EN-MALE-9") PNone Demo.no_builtin)
    = Ret false /\
  count_ev is_load_default_speaker
    (evs (speak Demo.handler "hello" "cache/a.wav" (PStr "EN-MALE-9") PNone Demo.no_builtin)) = 1 /\
  (forall id,
     In (EvLoadDefaultSpeaker id)
        (evs (speak Demo.handler "hello" "cache/a.wav" (PStr "EN-MALE-9") PNone Demo.no_builtin)) ->
     id = PStr "EN-MALE-9") /\
  out (speak Demo.handler "hello" "cache/a.wav" (PStr "EN-MALE-9") PNone
         Demo.builtin_interrupted)
    = Raise Demo.ctrl_c.
Proof.
  pose proof (speak_failed_identifier_is_final Demo.handler tt tt "hello" "cache/a.wav"
                (PStr "EN-MALE-9") Demo.no_builtin eq_refl eq_refl
                ltac:(discriminate) ltac:(discriminate) eq_refl
                PNone "Unknown" [] Demo.no_builtin Demo.boom Demo.no_builtin
                eq_refl eq_refl) as H.
  pose proof (speak_failed_identifier_is_final Demo.handler tt tt "hello" "cache/a.wav"
                (PStr "EN-MALE-9") Demo.builtin_interrupted eq_refl eq_refl
                ltac:(discriminate) ltac:(discriminate) eq_refl
                PNone "Unknown" [] Demo.builtin_interrupted Demo.ctrl_c
                Demo.builtin_interrupted eq_refl eq_refl) as H'.
  cbv zeta in H, H'. destruct H as (Hone & Honly & _ & Herr & _).
  destruct H' as (_ & _ & _ & _ & Hint).
  split; [exact (proj1 (Herr eq_refl))|].
  split; [exact Hone|]. split; [exact Honly|]. exact (proj1 (Hint eq_refl)).
Defined.

(** C3 as stated fails: the file exists, [create_speaker] raises, a
    [KeyboardInterrupt], and resolution does not fall through to the
    identifier step: [load_default_speaker] is not called and the
    exception leaves [speak]. *)
Lemma speak_cloning_interrupt_no_fall_through :
  fs_exists Demo.clone_interrupted "me.wav" = true /\
  fst (create_speaker tt (PStr "me.wav") Demo.clone_interrupted) = Raise Demo.ctrl_c /\
  count_ev is_load_default_speaker
    (evs (speak Demo.handler "hello" "cache/a.wav" PNone (PStr "me.wav")
            Demo.clone_interrupted)) = 0 /\
  out (speak Demo.handler "hello" "cache/a.wav" PNone (PStr "me.wav") Demo.clone_interrupted)
    = Raise Demo.ctrl_c.
Proof. vm_compute. repeat split. Qed.

(** C3, amended, when cloning [me.wav] raises an error, and when Ctrl-C
    arrives instead. *)
Lemma speak_cloning_error_falls_through_once_witness :
  count_ev is_create_speaker
    (evs (speak Demo.handler "hello" "cache/a.wav" PNone (PStr "me.wav") Demo.no_cloning)) = 1 /\
  count_ev is_load_default_speaker
    (evs (speak Demo.handler "hello" "cache/a.wav" PNone (PStr "me.wav") Demo.no_cloning)) = 1 /\
  count_ev is_load_default_speaker
    (evs (speak Demo.handler "hello" "cache/a.wav" PNone (PStr "me.wav")
            Demo.clone_interrupted)) = 0.
Proof.
  pose proof (speak_cloning_error_falls_through_once Demo.handler tt tt "hello"
                "cache/a.wav" PNone Demo.no_cloning eq_refl eq_refl
                ltac:(discriminate) ltac:(discriminate) eq_refl
                "me.wav" Demo.boom Demo.no_cloning eq_refl eq_refl) as H.
  pose proof (speak_cloning_error_falls_through_once Demo.handler tt tt "hello"
                "cache/a.wav" PNone Demo.clone_interrupted eq_refl eq_refl
                ltac:(discriminate) ltac:(discriminate) eq_refl
                "me.wav" Demo.ctrl_c Demo.clone_interrupted eq_refl eq_refl) as H'.
  cbv zeta in H, H'. destruct H as (Hcreate & Herr & _).
  destruct H' as (_ & _ & Hint).
  split; [exact Hcreate|].
  split; [exact (proj1 (proj2 (Herr eq_refl)))|].
  exact (proj2 (proj2 (Hint eq_refl))).
Defined.

(** C4 with neither voice file nor identifier. *)
Lemma speak_no_voice_no_id_loads_default_witness :
  In (EvLoadDefaultSpeaker (PStr "EN-FEMALE-1-NEUTRAL"))
     (evs (speak Demo.handler "hello" "cache/a.wav" PNone PNone Demo.fine)) /\
  count_ev is_load_default_speaker
     (evs (speak Demo.handler "hello" "cache/a.wav" PNone PNone Demo.fine)) = 1.
Proof.
  pose proof (speak_no_voice_no_id_loads_default Demo.handler tt tt "hello" "cache/a.wav"
                PNone Demo.fine eq_refl eq_refl ltac:(discriminate) ltac:(discriminate)
                eq_refl PNone eq_refl (or_introl eq_refl)) as H.
  cbv zeta in H. destruct H as (_ & Hone & Hin & _). split; assumption.
Defined.

(** C10 at a path that is not there. *)
Lemma speak_missing_voice_file_like_none_witness :
  speak Demo.handler "hello" "cache/a.wav" PNone (PStr "nowhere.wav") Demo.fine
  = speak Demo.handler "hello" "cache/a.wav" PNone PNone Demo.fine /\
  count_ev is_load_default_speaker
    (evs (speak Demo.handler "hello" "cache/a.wav" PNone (PStr "nowhere.wav") Demo.fine)) = 1 /\
  In (EvLoadDefaultSpeaker (PStr "EN-FEMALE-1-NEUTRAL"))
     (evs (speak Demo.handler "hello" "cache/a.wav" PNone (PStr "nowhere.wav") Demo.fine)).
Proof.
  pose proof (speak_missing_voice_file_like_none Demo.handler "hello" "cache/a.wav"
                PNone "nowhere.wav" Demo.fine eq_refl) as H.
  cbv zeta in H. destruct H as (Heq & _ & _ & Hid).
  destruct (Hid tt tt eq_refl eq_refl ltac:(discriminate) ltac:(discriminate) eq_refl)
    as (_ & _ & Hone & Hin & _).
  split; [exact Heq|]. split; [exact Hone | exact Hin].
Defined.


(** C6 as stated fails: a [KeyboardInterrupt] raised while the engine
    generates reaches the caller of [speak]. *)
Lemma speak_lets_interrupt_through :
  out (speak Demo.handler "hello" "cache/a.wav" PNone PNone Demo.interrupted)
  = Raise (Exn KeyboardInterrupt "").
Proof. vm_compute. reflexivity. Qed.

(** C6, amended: an error of [create_speaker] is caught and the call
    still returns [True]; an error of [load_default_speaker] gives
    [False]; Ctrl-C while the engine generates reaches the caller. *)
Lemma speak_contains_Exception_only_witness :
  out (speak Demo.handler "hello" "cache/a.wav" PNone (PStr "me.wav") Demo.no_cloning)
    = Ret true /\
  out (speak Demo.handler "hello" "cache/a.wav" PNone PNone Demo.no_builtin) = Ret false /\
  out (speak Demo.handler "hello" "cache/a.wav" PNone PNone Demo.interrupted)
    = Raise (Exn KeyboardInterrupt "").
Proof.
  split; [|split].
  - destruct (speak_contains_Exception_only Demo.handler "hello" "cache/a.wav" PNone
                (PStr "me.wav") Demo.no_cloning) as (_ & _ & H).
    destruct (H tt tt eq_refl eq_refl ltac:(discriminate) ltac:(discriminate))
      as (_ & _ & H').
    destruct (H' eq_refl) as (_ & Hclone & _).
    exact (Hclone "me.wav" Demo.boom Demo.no_cloning eq_refl eq_refl eq_refl).
  - destruct (speak_contains_Exception_only Demo.handler "hello" "cache/a.wav" PNone
                PNone Demo.no_builtin) as (_ & _ & H).
    destruct (H tt tt eq_refl eq_refl ltac:(discriminate) ltac:(discriminate))
      as (_ & _ & H').
    destruct (H' eq_refl) as (_ & _ & Hload & _).
    exact (Hload "Unknown" [] Demo.no_builtin Demo.boom Demo.no_builtin eq_refl eq_refl).
  - destruct (speak_contains_Exception_only Demo.handler "hello" "cache/a.wav" PNone
                PNone Demo.interrupted) as (_ & _ & H).
    destruct (H tt tt eq_refl eq_refl ltac:(discriminate) ltac:(discriminate))
      as (_ & _ & H').
    destruct (H' eq_refl) as (_ & _ & _ & Hgen).
    destruct (Hgen 1 _ Demo.interrupted _ eq_refl) as (_ & Hg & _).
    exact (Hg ("hello", 1) Demo.interrupted (Exn KeyboardInterrupt "") Demo.interrupted
              eq_refl eq_refl).
Defined.

(** C7 as stated fails: the line is accepted, the built-in voice cannot
    be loaded, and the pass saves no file and attempts no playback. *)
Lemma loop_pass_without_file_or_playback :
  fst (input PROMPT Demo.no_builtin) = Ret "hello" /\ accepted "hello" = true /\
  count_ev is_save (evs (loop_body Demo.handler default_config Demo.no_builtin)) = 0 /\
  count_ev is_playsound (evs (loop_body Demo.handler default_config Demo.no_builtin)) = 0 /\
  out (loop_body Demo.handler default_config Demo.no_builtin) = Ret Continue.
Proof. vm_compute. repeat split. Qed.

(** C7, amended, on the line [hello] in the world where all works. *)
Lemma loop_pass_on_accepted_line_witness :
  count_ev is_save (evs (loop_body Demo.handler (PDict ∅) Demo.fine)) = 1 /\
  count_ev is_playsound (evs (loop_body Demo.handler (PDict ∅) Demo.fine)) = 1 /\
  (forall a p, In (EvSave a p) (evs (loop_body Demo.handler (PDict ∅) Demo.fine)) ->
               p = "cache/2025-04-09_07-30-05.wav") /\
  out (loop_body Demo.handler (PDict ∅) Demo.fine) = Ret Continue.
Proof.
  pose proof (loop_pass_on_accepted_line Demo.handler ∅ Demo.fine "hello"
                (Demo.with_stdin Demo.fine [Ret "quit"]) Demo.morning
                (Demo.with_stdin Demo.fine [Ret "quit"]) eq_refl eq_refl eq_refl) as H.
  cbv zeta in H. destruct H as (_ & _ & (_ & Hpath) & _ & Htrue & _).
  destruct (Htrue eq_refl) as (Hone & Hplay & _ & _ & Hok).
  split; [exact Hone|]. split; [exact Hplay|]. split; [exact Hpath|].
  refine (Hok tt _ eq_refl eq_refl).
Defined.

(** C8 as stated fails: an empty [voice_file] names no existing file and
    is returned as it is, not as [None]. *)
Lemma load_config_keeps_empty_voice_file :
  fs_exists Demo.config_blank "" = false /\
  out (load_config Demo.config_blank)
  = Ret (PDict (<["speaker_id" := PNone]> (<["voice_file" := PStr ""]> ∅))).
Proof. vm_compute. split; reflexivity. Qed.

(** C8, amended, at a configuration that names [gone.wav]. *)
Lemma load_config_voice_file_checked_witness :
  exists d', out (load_config Demo.config_gone) = Ret (PDict d') /\
             d' !! "voice_file" = Some PNone.
Proof.
  destruct (load_config_voice_file_checked (Ext := Demo.ext) Demo.config_gone) as (Hnull & _ & _).
  exact (Hnull (<["voice_file" := PStr "gone.wav"]> ∅) "gone.wav" Demo.config_gone
           eq_refl eq_refl eq_refl ltac:(discriminate) eq_refl).
Defined.

(** C9 at a file that does not parse, at one that holds a list, and at
    no file at all. *)
Lemma load_config_defaults_on_error_witness :
  out (load_config Demo.config_garbled) = Ret default_config /\
  out (load_config Demo.config_list) = Ret default_config /\
  out (load_config Demo.config_absent) = Ret default_config.
Proof.
  split; [|split].
  - destruct (load_config_defaults_on_error (Ext := Demo.ext) Demo.config_garbled) as (_ & _ & H & _).
    exact (H (Exn JSONDecodeError "Expecting value") Demo.config_garbled
             eq_refl eq_refl eq_refl).
  - destruct (load_config_defaults_on_error (Ext := Demo.ext) Demo.config_list) as (_ & _ & _ & H & _).
    refine (H _ Demo.config_list eq_refl eq_refl _). intros d; discriminate.
  - destruct (load_config_defaults_on_error (Ext := Demo.ext) Demo.config_absent) as (_ & H & _).
    exact (H eq_refl).
Defined.

(** The output directory: [cache] is there, [out] is made. *)
Lemma speak_output_directory_witness :
  count_ev is_makedirs
    (evs (speak Demo.handler "hello" "cache/a.wav" PNone PNone Demo.fine)) = 0 /\
  In (EvMakedirs "out") (evs (speak Demo.handler "hello" "out/a.wav" PNone PNone Demo.fine)).
Proof.
  split.
  - pose proof (speak_output_directory Demo.handler tt tt "hello" "cache/a.wav" Demo.fine
                  eq_refl eq_refl ltac:(discriminate) ltac:(discriminate) PNone PNone) as H.
    cbv zeta in H. destruct H as (H & _). apply H. right. reflexivity.
  - pose proof (speak_output_directory Demo.handler tt tt "hello" "out/a.wav" Demo.fine
                  eq_refl eq_refl ltac:(discriminate) ltac:(discriminate) PNone PNone) as H.
    cbv zeta in H. destruct H as (_ & H & _). apply H; [discriminate | reflexivity].
Defined.

(** A given identifier is asked for; an empty one gives the default. *)
Lemma speak_identifier_choice_witness :
  In (EvLoadDefaultSpeaker (PStr "EN-MALE-9"))
     (evs (speak Demo.handler "hello" "cache/a.wav" (PStr "EN-MALE-9") PNone Demo.fine)) /\
  In (EvLoadDefaultSpeaker (PStr "EN-FEMALE-1-NEUTRAL"))
     (evs (speak Demo.handler "hello" "cache/a.wav" (PStr "") PNone Demo.fine)).
Proof.
  split.
  - pose proof (speak_identifier_choice Demo.handler tt tt "hello" "cache/a.wav"
                  (PStr "EN-MALE-9") Demo.fine eq_refl eq_refl
                  ltac:(discriminate) ltac:(discriminate) eq_refl
                  PNone "Unknown" [] Demo.fine eq_refl) as H.
    cbv zeta in H. destruct H as (_ & H & _). exact (proj1 (H eq_refl)).
  - pose proof (speak_identifier_choice Demo.handler tt tt "hello" "cache/a.wav"
                  (PStr "") Demo.fine eq_refl eq_refl
                  ltac:(discriminate) ltac:(discriminate) eq_refl
                  PNone "Unknown" [] Demo.fine eq_refl) as H.
    cbv zeta in H. destruct H as (_ & _ & H). exact (proj1 (H eq_refl)).
Defined.

(** The engine answers [None]: for the sample, and for the built-in voice. *)
Lemma speak_engine_returns_None_witness :
  count_ev is_load_default_speaker
    (evs (speak Demo.handler "hello" "cache/a.wav" PNone (PStr "me.wav") Demo.clone_refused)) = 1 /\
  out (speak Demo.handler "hello" "cache/a.wav" PNone PNone Demo.builtin_refused) = Ret false.
Proof.
  split.
  - destruct (speak_engine_returns_None Demo.handler tt tt "hello" "cache/a.wav" PNone
                Demo.clone_refused eq_refl eq_refl
                ltac:(discriminate) ltac:(discriminate) eq_refl) as (H & _).
    pose proof (H "me.wav" Demo.clone_refused eq_refl eq_refl) as H'.
    cbv zeta in H'. exact (proj1 (proj2 H')).
  - destruct (speak_engine_returns_None Demo.handler tt tt "hello" "cache/a.wav" PNone
                Demo.builtin_refused eq_refl eq_refl
                ltac:(discriminate) ltac:(discriminate) eq_refl) as (_ & H).
    pose proof (H PNone "Unknown" [] Demo.builtin_refused Demo.builtin_refused
                  eq_refl eq_refl) as H'.
    cbv zeta in H'. exact (proj1 H').
Defined.

(** Generation raises; the disk is full when the audio is saved. *)
Lemma speak_generation_error_witness :
  out (speak Demo.handler "hello" "cache/a.wav" PNone PNone Demo.no_synthesis) = Ret false /\
  out (speak Demo.handler "hello" "cache/a.wav" PNone PNone Demo.disk_full) = Ret false /\
  In (EvSave "hello" "cache/a.wav")
     (evs (speak Demo.handler "hello" "cache/a.wav" PNone PNone Demo.disk_full)).
Proof.
  split.
  - pose proof (speak_generation_error Demo.handler tt tt "hello" "cache/a.wav" PNone
                  Demo.no_synthesis eq_refl eq_refl
                  ltac:(discriminate) ltac:(discriminate) eq_refl
                  PNone 1 _ Demo.no_synthesis _ eq_refl) as H.
    cbv zeta in H. destruct H as (_ & H & _).
    exact (proj1 (H ("hello", 1) Demo.no_synthesis Demo.boom Demo.no_synthesis
                    eq_refl eq_refl eq_refl)).
  - pose proof (speak_generation_error Demo.handler tt tt "hello" "cache/a.wav" PNone
                  Demo.disk_full eq_refl eq_refl
                  ltac:(discriminate) ltac:(discriminate) eq_refl
                  PNone 1 _ Demo.disk_full _ eq_refl) as H.
    cbv zeta in H. destruct H as (_ & _ & H).
    pose proof (H ("hello", 1) Demo.disk_full "hello" Demo.disk_full
                  (Exn OSError "No space left on device") Demo.disk_full
                  eq_refl eq_refl eq_refl eq_refl) as H'.
    split; [exact (proj1 H') | exact (proj2 (proj2 H'))].
Defined.

(** The configuration of the world where all works names [me.wav]. *)
Lemma load_config_keeps_entries_witness :
  exists d', out (load_config Demo.fine) = Ret (PDict d') /\
             d' !! "speaker_id" = Some PNone /\
             d' !! "voice_file" = Some (PStr "me.wav").
Proof.
  destruct (load_config_keeps_entries (Ext := Demo.ext) Demo.fine
              (<["voice_file" := PStr "me.wav"]> ∅) Demo.fine eq_refl eq_refl true eq_refl)
    as (d' & H1 & H2 & H3 & _).
  exists d'. split; [exact H1 | split; [exact H2 | exact H3]].
Defined.

(** A list for [voice_file] costs the file its [speaker_id]. *)
Lemma load_config_unusable_voice_file_drops_all_witness :
  out (load_config Demo.config_unusable) = Ret default_config.
Proof.
  refine (proj1 (load_config_unusable_voice_file_drops_all (Ext := Demo.ext)
            Demo.config_unusable
            (<["speaker_id" := PStr "EN-MALE-9"]> (<["voice_file" := PList [PStr "me.wav"]]> ∅))
            Demo.config_unusable (PList [PStr "me.wav"])
            eq_refl eq_refl eq_refl eq_refl _ _ _)); intros; discriminate.
Defined.

(** [Quit] ends the loop. *)
Lemma loop_exit_word_witness :
  main_loop 3 Demo.handler default_config (Demo.says [Ret "Quit"])
  = Res (Ret Returned) (Demo.says []) [EvInput PROMPT].
Proof.
  destruct (loop_exit_word Demo.handler default_config (Demo.says [Ret "Quit"]) "Quit"
              (Demo.says []) eq_refl (or_introl eq_refl)) as (_ & H).
  exact (H 2).
Defined.

(** An empty line. *)
Lemma loop_blank_line_witness :
  loop_body Demo.handler default_config (Demo.says [Ret ""])
  = Res (Ret Continue) (Demo.says []) [EvInput PROMPT; EvPrint "Please enter some text."].
Proof.
  exact (proj1 (loop_blank_line Demo.handler default_config (Demo.says [Ret ""])
                  (Demo.says []) eq_refl)).
Defined.

(** Ctrl-C at the prompt, and the end of input. *)
Lemma loop_input_raises_witness :
  out (loop_body Demo.handler default_config (Demo.says [Raise Demo.ctrl_c])) = Ret Break /\
  out (loop_body Demo.handler default_config (Demo.says [])) = Ret Continue.
Proof.
  split.
  - rewrite (loop_input_raises Demo.handler default_config (Demo.says [Raise Demo.ctrl_c])
               Demo.ctrl_c (Demo.says []) eq_refl).
    reflexivity.
  - rewrite (loop_input_raises Demo.handler default_config (Demo.says [])
               (Exn EOFError "EOF when reading a line") (Demo.says []) eq_refl).
    reflexivity.
Defined.


(** Without an engine [main] returns before it asks for a line. *)
Lemma main_gives_up_before_loop_witness :
  out (main 5 Demo.no_engine) = Ret Returned /\
  count_ev is_input (evs (main 5 Demo.no_engine)) = 0.
Proof.
  pose proof (main_gives_up_before_loop 5 Demo.no_engine) as H.
  cbv zeta in H. destruct H as (_ & H & _).
  destruct (H Demo.without_interface eq_refl eq_refl eq_refl) as (Hout & _ & Hin & _).
  split; [exact Hout | exact Hin].
Defined.

(** [posixpath.join] with the cache directory: an absolute name is
    returned as it is, any other follows [cache/]. *)
Lemma output_path_at_injective_witness :
  output_path_at Demo.morning = "cache/2025-04-09_07-30-05.wav" /\
  output_path_at Demo.morning <> output_path_at Demo.evening.
Proof.
  assert (Hjoin : forall f g : string,
            os_path_join CACHE_DIR f = os_path_join CACHE_DIR g -> f = g).
  { assert (Habs : forall x, String.prefix "/" x = true -> exists y, x = String "/" y).
    { intros [|c x] H; [discriminate H|].
      change ((if ascii_dec "/" c then String.prefix "" x else false) = true) in H.
      destruct (ascii_dec "/" c) as [<-|]; [eauto | discriminate H]. }
    assert (Hrel : forall x, "cache" +:+ "/" +:+ x = String "c" ("ache/" +:+ x))
      by reflexivity.
    intros f g. cbn. unfold Demo.join, CACHE_DIR. cbn.
    destruct (String.prefix "/" f) eqn:Hf, (String.prefix "/" g) eqn:Hg; intros H.
    - exact H.
    - destruct (Habs f Hf) as [y ->]. rewrite Hrel in H. discriminate H.
    - destruct (Habs g Hg) as [y ->]. rewrite Hrel in H. discriminate H.
    - apply (string_app_inj "cache/" "cache/" f g eq_refl H). }
  assert (Hm : datetime_valid Demo.morning) by (unfold datetime_valid; cbn; lia).
  assert (He : datetime_valid Demo.evening) by (unfold datetime_valid; cbn; lia).
  destruct (output_path_at_injective Hjoin) as (Hinj & _).
  split; [reflexivity|]. intros Heq.
  specialize (Hinj Demo.morning Demo.evening Hm He Heq). discriminate Hinj.
Defined.
